(** * Logistics analysis scripts: a shallow embedding

    The repository is a set of batch scripts over pandas DataFrames.  This
    development embeds the parts of [data_cleaning.py],
    [advanced_analysis.py], [analysis_visuals.py],
    [final_analysis_report.py], [route_clustering.py],
    [src/analysis_utils.py] and [src/data_generator.py] that the
    specification talks about, and then proves properties of them.

    Conventions.
    - A float64 value is a [num]: [None] is NaN, [Some q] a finite value
      whose arithmetic is exact ([Qc]); rounding error and infinities are
      outside the model.
    - A DataFrame handled by the cleaning scripts is a [frame]: column
      labels and rows of dynamically typed cells.  Rows are positional;
      every Series assigned to a frame carries that frame's own index, so
      index labels play no role.
    - DataFrames are Python objects: the scripts that mutate them run in a
      state monad over a store of frames.
    - Library routines whose result the scripts only pass on (parsing of
      numbers and dates, scipy's test, scikit-learn's scaler and KMeans,
      numpy's random draws) are parameters, gathered in type classes. *)

From Stdlib Require Import ZArith QArith Qcanon Lqa Ascii String.
From stdpp Require Import base numbers option list strings gmap sorting.

Local Open Scope Z_scope.

(** ** Numbers *)

Module Num.

Abbreviation num := (option Qc).

Definition qc (n : Z) (d : positive) : Qc := Q2Qc (n # d).

Definition of_Z (n : Z) : Qc := Qc_of_Z n.

Definition of_nat (n : nat) : Qc := Qc_of_Z (Z.of_nat n).

(** Nearest integer, ties to the even one (what [numpy.around] and
  Python's [round] do on a value that is exactly representable). *)
Definition round_half_even (x : Qc) : Z :=
let a := Qnum (this x) in
let b := Z.pos (Qden (this x)) in
let q := a / b in
let r := a mod b in
match 2 * r ?= b with
| Lt => q
| Gt => q + 1
| Eq => if Z.even q then q else q + 1
end.

(** [x.round(2)] *)
Definition round2 (x : Qc) : Qc :=
(of_Z (round_half_even (qc 100 1 * x)) / qc 100 1)%Qc.

(** NaN-propagating arithmetic of float64 columns. *)
Definition lift2 (f : Qc → Qc → Qc) (x y : num) : num :=
match x, y with
| Some a, Some b => Some (f a b)
| _, _ => None
end.

Definition add : num → num → num := lift2 Qcplus.
Definition sub : num → num → num := lift2 Qcminus.
Definition mul : num → num → num := lift2 Qcmult.

(** Division; a zero divisor has no finite result and is mapped to NaN. *)
Definition div (x y : num) : num :=
match x, y with
| Some a, Some b => if decide (b = 0%Qc) then None else Some (a / b)%Qc
| _, _ => None
end.

(** Comparisons of float64 values: false as soon as one side is NaN. *)
Definition gtb (x y : num) : bool :=
match x, y with
| Some a, Some b => bool_decide (b < a)%Qc
| _, _ => false
end.


Definition ltb (x y : num) : bool := gtb y x.

Definition qmax (a b : Qc) : Qc := if decide (a ≤ b)%Qc then b else a.
Definition qmin (a b : Qc) : Qc := if decide (a ≤ b)%Qc then a else b.

(** [Series.clip(lo, hi)]; NaN stays NaN. *)
Definition clip (lo hi : Qc) (x : num) : num := (λ a, qmin hi (qmax lo a)) <$> x.

(** [Series.dropna()] on a float column. *)
Definition dropna (l : list num) : list Qc := omap id l.

Definition sum (l : list Qc) : Qc := foldr Qcplus 0%Qc l.

(** [Series.mean()]: NaN is skipped; NaN when nothing is left. *)
Definition mean (l : list num) : num :=
match dropna l with
| [] => None
| v => Some (sum v / of_nat (length v))%Qc
end.

(** [Series.max()] *)
Definition maximum (l : list num) : num :=
match dropna l with
| [] => None
| x :: v => Some (foldr qmax x v)
end.

(** [Series.median()]: NaN is skipped; the middle value of the sorted
  rest, or the mean of the two middle values. *)
Definition median (l : list num) : num :=
let v := merge_sort Qcle (dropna l) in
let n := length v in
if Nat.even n
then match n with
     | O => None
     | _ => lift2 (λ a b, (a + b) / qc 2 1)%Qc
              (v !! (n / 2 - 1)%nat) (v !! (n / 2)%nat)
     end
else v !! (n / 2)%nat.

(** Integer part of a non-negative rational. *)
Definition floor (x : Qc) : Z := Qnum (this x) / Z.pos (Qden (this x)).

(** [Series.quantile(p)] with the default linear interpolation: on the
  sorted non-NaN values [v], at position [p * (n - 1)], the value
  [v[lo] + (v[lo+1] - v[lo]) * frac]. *)
Definition quantile (p : Qc) (l : list num) : num :=
let v := merge_sort Qcle (dropna l) in
let pos := (p * of_nat (length v - 1))%Qc in
let lo := Z.to_nat (floor pos) in
let frac := (pos - of_Z (floor pos))%Qc in
match v !! lo with
| None => None
| Some a =>
    let b := default a (v !! S lo) in
    Some (a + (b - a) * frac)%Qc
end.

End Num.

Import Num.

(** ** Exceptions *)

(** The Python exceptions the scripts can raise.  [Dangling] stands for a
    reference to no object; no script produces one. *)
Inductive exn :=
  | KeyError (label : string)
  | ValueError (what : string)
  | FileNotFoundError (path : string)
  | Dangling.

(** [str(e)], as far as the scripts show it. *)
Definition exn_text (e : exn) : string :=
  match e with
  | KeyError label => label
  | ValueError what => what
  | FileNotFoundError path => path +:+ " not found"
  | Dangling => ""
  end.

Inductive result (A : Type) :=
  | Ok (a : A)
  | Raise (e : exn).
Arguments Ok {A} a.
Arguments Raise {A} e.

Global Instance exn_eq_dec : EqDecision exn.
Proof. solve_decision. Defined.
Global Instance result_eq_dec {A} `{EqDecision A} : EqDecision (result A).
Proof. solve_decision. Defined.

Global Instance result_ret : MRet result := @Ok.
Global Instance result_bind : MBind result := λ A B k m,
  match m with
  | Ok a => k a
  | Raise e => Raise e
  end.

(** ** Cells and frames *)

(** A cell of a DataFrame: a missing value (NaN, None or NaT), a number, a
    string, or a timestamp in nanoseconds since the epoch. *)
Inductive cell :=
  | NA
  | Num (q : Qc)
  | Str (s : string)
  | Time (ns : Z).

Global Instance cell_eq_dec : EqDecision cell.
Proof. solve_decision. Defined.

Abbreviation series := (list cell).
Abbreviation row := (list cell).

Record frame := Frame { columns : list string; rows : list row }.

Global Instance frame_eq_dec : EqDecision frame.
Proof. solve_decision. Defined.

(** The float64 view of a cell and back. *)
Definition cell_num (c : cell) : num :=
  match c with
  | Num q => Some q
  | _ => None
  end.

Definition num_cell (x : num) : cell :=
  match x with
  | Some q => Num q
  | None => NA
  end.

Definition isna (c : cell) : bool :=
  match c with
  | NA => true
  | _ => false
  end.

(** Library routines whose results on text are not fixed by the scripts:
    how pandas reads a number or a date out of a string, how it turns a
    number into a date, and how Python prints numbers and dates. *)
Class Pandas := {
  parse_number : string → option Qc;
  parse_datetime : string → option Z;
  datetime_of_number : Qc → option Z;
  str_of_number : Qc → string;
  str_of_datetime : Z → string
}.

(** *** Strings *)

Definition lower_ascii (c : ascii) : ascii :=
  let n := nat_of_ascii c in
  if bool_decide (65 ≤ n ≤ 90)%nat then ascii_of_nat (n + 32) else c.

(** [str.lower], on ASCII letters; other bytes are left as they are. *)
Fixpoint lower (s : string) : string :=
  match s with
  | EmptyString => EmptyString
  | String c s' => String (lower_ascii c) (lower s')
  end.

(** The ASCII characters [str.strip] removes. *)
Definition is_space (c : ascii) : bool :=
  let n := nat_of_ascii c in
  bool_decide (9 ≤ n ≤ 13)%nat || bool_decide (28 ≤ n ≤ 32)%nat.

Fixpoint lstrip (s : string) : string :=
  match s with
  | EmptyString => EmptyString
  | String c s' => if is_space c then lstrip s' else s
  end.

Fixpoint rstrip (s : string) : string :=
  match s with
  | EmptyString => EmptyString
  | String c s' =>
      match rstrip s' with
      | EmptyString => if is_space c then EmptyString else String c EmptyString
      | t => String c t
      end
  end.

(** [str.strip] *)
Definition strip (s : string) : string := rstrip (lstrip s).

(** *** Series operations *)

Section series_ops.
Context `{Pandas}.

(** [Series.astype(str)] on one cell: a missing value prints as "nan". *)
Definition astype_str (c : cell) : string :=
  match c with
  | NA => "nan"
  | Num q => str_of_number q
  | Str s => s
  | Time t => str_of_datetime t
  end.

(** [astype(str)], [str.lower()], [str.strip()] on one cell. *)
Definition standardize_cell (c : cell) : cell :=
  Str (strip (lower (astype_str c))).

(** [_standardize_strings]: [series.astype(str).str.lower().str.strip()] *)
Definition _standardize_strings (s : series) : series :=
  standardize_cell <$> s.

(** [pd.to_numeric(series, errors="coerce")] on one cell; a timestamp
    converts to its nanosecond count. *)
Definition to_numeric_cell (c : cell) : cell :=
  match c with
  | NA => NA
  | Num q => Num q
  | Str s => num_cell (parse_number s)
  | Time t => Num (of_Z t)
  end.

Definition to_numeric_coerce (s : series) : series := to_numeric_cell <$> s.

(** [pd.to_datetime(series, errors="coerce")] on one cell. *)
Definition to_datetime_cell (c : cell) : cell :=
  match c with
  | NA => NA
  | Time t => Time t
  | Str s => from_option Time NA (parse_datetime s)
  | Num q => from_option Time NA (datetime_of_number q)
  end.

Definition to_datetime_coerce (s : series) : series := to_datetime_cell <$> s.

(** [pd.to_datetime(series)] with the default [errors="raise"]. *)
Definition to_datetime_strict_cell (c : cell) : result cell :=
  match c with
  | NA => Ok NA
  | Time t => Ok (Time t)
  | Str s => from_option (λ t, Ok (Time t)) (Raise (ValueError "to_datetime")) (parse_datetime s)
  | Num q => from_option (λ t, Ok (Time t)) (Raise (ValueError "to_datetime")) (datetime_of_number q)
  end.

Fixpoint to_datetime_strict (s : series) : result series :=
  match s with
  | [] => Ok []
  | c :: s' =>
      t ← to_datetime_strict_cell c;
      ts ← to_datetime_strict s';
      Ok (t :: ts)
  end.
End series_ops.

(** [Series.fillna(value)] on one cell. *)
Definition fillna (value : cell) (c : cell) : cell :=
  if isna c then value else c.

(** [Series.median()] of a column, as a cell. *)
Definition series_median (s : series) : cell :=
  num_cell (median (cell_num <$> s)).

(** The values of the group of key [k]. *)
Definition group_values (keys vals : series) (k : cell) : series :=
  (filter (λ kv, kv.1 = k) (zip keys vals)).*2.

(** [df.groupby(group_col)[col].transform(lambda s: s.fillna(s.median()))]
    given the key column and the value column.  Rows whose key is missing
    belong to no group and come out as NaN. *)
Definition groupby_transform_fillna_median (keys vals : series) : series :=
  zip_with (λ k v,
    if isna k then NA
    else fillna (series_median (group_values keys vals k)) v) keys vals.

(** *** Frame operations *)

Fixpoint find_index (name : string) (cols : list string) : option nat :=
  match cols with
  | [] => None
  | c :: cs => if decide (c = name) then Some O else S <$> find_index name cs
  end.

(** The position of the one column labelled [name].  A missing label is a
    [KeyError].  With a repeated label [df[name]] is a DataFrame, on which
    every use the scripts make of it raises; the model raises at the
    access and does not tell those exceptions apart. *)
Definition col_index (name : string) (f : frame) : result nat :=
  match find_index name (columns f) with
  | None => Raise (KeyError name)
  | Some i =>
      if decide (name ∈ drop (S i) (columns f))
      then Raise (ValueError name)
      else Ok i
  end.

Definition cell_at (i : nat) (r : row) : cell := default NA (r !! i).

(** [df[name]] *)
Definition get_column (name : string) (f : frame) : result series :=
  i ← col_index name f; Ok (cell_at i <$> rows f).

Fixpoint set_cells (name : string) (v : cell) (cols : list string) (r : row) : row :=
  match cols, r with
  | c :: cs, x :: xs => (if decide (c = name) then v else x) :: set_cells name v cs xs
  | _, _ => r
  end.

(** [df[name] = values]: every column labelled [name] is replaced; a new
    label is appended. *)
Definition set_column (name : string) (vs : series) (f : frame) : frame :=
  if decide (name ∈ columns f)
  then Frame (columns f) (zip_with (λ r v, set_cells name v (columns f) r) (rows f) vs)
  else Frame (columns f ++ [name]) (zip_with (λ r v, r ++ [v]) (rows f) vs).

(** [m.get(c, c)] for a dict written as its list of items. *)
Fixpoint rename_label (m : list (string * string)) (c : string) : string :=
  match m with
  | [] => c
  | (k, v) :: m' => if decide (k = c) then v else rename_label m' c
  end.

(** [df.rename(columns=m)] *)
Definition rename (m : list (string * string)) (f : frame) : frame :=
  Frame (rename_label m <$> columns f) (rows f).

(** Keep the first occurrence of each element. *)
Fixpoint dedup_from {A} `{EqDecision A} (seen l : list A) : list A :=
  match l with
  | [] => []
  | x :: l' =>
      if decide (x ∈ seen) then dedup_from seen l'
      else x :: dedup_from (x :: seen) l'
  end.

(** [df.drop_duplicates()] *)
Definition drop_duplicates (f : frame) : frame :=
  Frame (columns f) (dedup_from [] (rows f)).

(** ** The store *)

(** DataFrames are objects; a variable holds a reference.  The world a
    script runs in: the frames allocated so far, the CSV files on disk
    (each as the frame [pd.read_csv] makes of it), the other files the
    scripts write (text reports, by path) and what was printed. *)
Abbreviation loc := positive.

Record world := World {
  heap : gmap loc frame;
  files : gmap string frame;
  reports : gmap string (list string);
  stdout : list string
}.

Definition st (A : Type) : Type := world → result A * world.

Global Instance st_ret : MRet st := λ A a w, (Ok a, w).
Global Instance st_bind : MBind st := λ A B k m w,
  match m w with
  | (Ok a, w') => k a w'
  | (Raise e, w') => (Raise e, w')
  end.

Definition raise {A} (e : exn) : st A := λ w, (Raise e, w).

Definition lift {A} (r : result A) : st A := λ w, (r, w).

Definition new_frame (f : frame) : st loc := λ w,
  let l := fresh (dom (heap w)) in
  (Ok l, World (<[l := f]> (heap w)) (files w) (reports w) (stdout w)).

Definition read_frame (l : loc) : st frame := λ w,
  match heap w !! l with
  | Some f => (Ok f, w)
  | None => (Raise Dangling, w)
  end.

Definition write_frame (l : loc) (f : frame) : st unit := λ w,
  (Ok tt, World (<[l := f]> (heap w)) (files w) (reports w) (stdout w)).

(** [print(s)]; a message is recorded without its emoji and without the
    blank lines around it. *)
Definition print (s : string) : st unit := λ w,
  (Ok tt, World (heap w) (files w) (reports w) (stdout w ++ [s])).

(** [path.exists()] *)
Definition path_exists (path : string) : st bool := λ w,
  (Ok (bool_decide (is_Some (files w !! path))), w).

(** [pd.read_csv(path)]: a new frame, or [FileNotFoundError]. *)
Definition read_csv (path : string) : st loc := λ w,
  match files w !! path with
  | Some f => new_frame f w
  | None => (Raise (FileNotFoundError path), w)
  end.

Definition write_file (path : string) (f : frame) : st unit := λ w,
  (Ok tt, World (heap w) (<[path := f]> (files w)) (reports w) (stdout w)).

(** [df.to_csv(path, index=False)]; what is stored is the frame a later
    [read_csv] is taken to return. *)
Definition to_csv (df : loc) (path : string) : st unit :=
  f ← read_frame df; write_file path f.

(** [for x in l: body] *)
Fixpoint for_each {A} (l : list A) (body : A → st unit) : st unit :=
  match l with
  | [] => mret tt
  | x :: l' => body x;; for_each l' body
  end.

(** *** DataFrame methods on references *)

(** [df.copy()] *)
Definition df_copy (df : loc) : st loc :=
  f ← read_frame df; new_frame f.

(** [df.rename(columns=m, inplace=True)] *)
Definition df_rename_inplace (df : loc) (m : list (string * string)) : st unit :=
  f ← read_frame df; write_frame df (rename m f).

(** [df[name]], the values of the column. *)
Definition df_getitem (df : loc) (name : string) : st series :=
  f ← read_frame df; lift (get_column name f).

(** [df[name] = values] *)
Definition df_setitem (df : loc) (name : string) (vs : series) : st unit :=
  f ← read_frame df; write_frame df (set_column name vs f).

(** [df.drop_duplicates()]: a new frame. *)
Definition df_drop_duplicates (df : loc) : st loc :=
  f ← read_frame df; new_frame (drop_duplicates f).

(** ** data_cleaning.py *)

Module data_cleaning.
Section cleaning.
Context `{Pandas}.

Definition RAW_DATA_DIR : string := "data".
Definition CLEAN_DATA_DIR : string := "cleaned_data".

Definition path_join (dir name : string) : string := dir +:+ "/" +:+ name.

Definition _load_csv (filename : string) : st loc :=
  let path := path_join RAW_DATA_DIR filename in
  present ← path_exists path;
  if negb present then raise (FileNotFoundError path)
  else read_csv path.

Definition _fill_numeric_by_group_median
    (df : loc) (group_col : string) (numeric_cols : list string) : st unit :=
  for_each numeric_cols (λ col,
    keys ← df_getitem df group_col;
    vals ← df_getitem df col;
    df_setitem df col (groupby_transform_fillna_median keys vals)).

Definition shipments_rename_map : list (string * string) :=
  [ ("дата отправки", "ship_date"); ("дата доставки", "delivery_date");
    ("вес", "weight"); ("стоимость", "cost"); ("отправитель", "sender");
    ("получатель", "recipient"); ("маршрут", "route_id"); ("статус", "status") ].

Definition clean_shipments (df0 : loc) : st loc :=
  df ← df_copy df0;
  df_rename_inplace df shipments_rename_map;;
  s ← df_getitem df "ship_date";
  df_setitem df "ship_date" (to_datetime_coerce s);;
  s ← df_getitem df "delivery_date";
  df_setitem df "delivery_date" (to_datetime_coerce s);;
  for_each ["weight"; "cost"] (λ col,
    s ← df_getitem df col;
    df_setitem df col (to_numeric_coerce s));;
  _fill_numeric_by_group_median df "route_id" ["weight"; "cost"];;
  for_each ["sender"; "recipient"; "status"] (λ col,
    s ← df_getitem df col;
    df_setitem df col (_standardize_strings s));;
  df_drop_duplicates df.

Definition routes_rename_map : list (string * string) :=
  [ ("маршрут_id", "route_id"); ("начальный пункт", "origin");
    ("конечный пункт", "destination"); ("расстояние", "distance");
    ("среднее время в пути", "avg_time"); ("средняя стоимость", "avg_cost") ].

Definition clean_routes (df0 : loc) : st loc :=
  df ← df_copy df0;
  df_rename_inplace df routes_rename_map;;
  for_each ["distance"; "avg_time"; "avg_cost"] (λ col,
    s ← df_getitem df col;
    df_setitem df col (to_numeric_coerce s));;
  s ← df_getitem df "origin";
  df_setitem df "origin" (_standardize_strings s);;
  s ← df_getitem df "destination";
  df_setitem df "destination" (_standardize_strings s);;
  df_drop_duplicates df.

Definition warehouses_rename_map : list (string * string) :=
  [ ("регион", "region"); ("емкость", "capacity");
    ("текущее заполнение", "current_fill") ].

(** [df["current_fill"].fillna(..., inplace=True)] fills the Series
    [df["current_fill"]] in place; before pandas' copy-on-write that
    Series shares its data with [df], so the column of [df] is filled. *)
Definition clean_warehouses (df0 : loc) : st loc :=
  df ← df_copy df0;
  df_rename_inplace df warehouses_rename_map;;
  s ← df_getitem df "region";
  df_setitem df "region" (_standardize_strings s);;
  for_each ["capacity"; "current_fill"] (λ col,
    s ← df_getitem df col;
    df_setitem df col (to_numeric_coerce s));;
  target ← df_getitem df "current_fill";
  s ← df_getitem df "current_fill";
  df_setitem df "current_fill" (fillna (series_median s) <$> target);;
  df_drop_duplicates df.

Definition carriers_rename_map : list (string * string) :=
  [ ("название", "name"); ("средняя оценка", "rating");
    ("кол-во машин", "fleet_size"); ("надежность", "reliability") ].

Definition clean_carriers (df0 : loc) : st loc :=
  df ← df_copy df0;
  df_rename_inplace df carriers_rename_map;;
  s ← df_getitem df "name";
  df_setitem df "name" (_standardize_strings s);;
  for_each ["rating"; "fleet_size"; "reliability"] (λ col,
    s ← df_getitem df col;
    df_setitem df col (to_numeric_coerce s));;
  df_drop_duplicates df.

Definition delays_rename_map : list (string * string) :=
  [ ("маршрут_id", "route_id"); ("дата", "date"); ("причина", "reason");
    ("задержка_в_часах", "delay_hours") ].

Definition clean_delays (df0 : loc) : st loc :=
  df ← df_copy df0;
  df_rename_inplace df delays_rename_map;;
  s ← df_getitem df "date";
  df_setitem df "date" (to_datetime_coerce s);;
  s ← df_getitem df "delay_hours";
  df_setitem df "delay_hours" (fillna (Num 0%Qc) <$> to_numeric_coerce s);;
  s ← df_getitem df "reason";
  df_setitem df "reason" (_standardize_strings s);;
  df_drop_duplicates df.

Definition main : st unit :=
  print "Loading raw datasets...";;
  raw ← _load_csv "shipments.csv";
  shipments_df ← clean_shipments raw;
  raw ← _load_csv "routes.csv";
  routes_df ← clean_routes raw;
  raw ← _load_csv "warehouses.csv";
  warehouses_df ← clean_warehouses raw;
  raw ← _load_csv "carriers.csv";
  carriers_df ← clean_carriers raw;
  raw ← _load_csv "delays.csv";
  delays_df ← clean_delays raw;
  print "Data loaded & cleaned. Saving results...";;
  to_csv shipments_df (path_join CLEAN_DATA_DIR "shipments_clean.csv");;
  to_csv routes_df (path_join CLEAN_DATA_DIR "routes_clean.csv");;
  to_csv warehouses_df (path_join CLEAN_DATA_DIR "warehouses_clean.csv");;
  to_csv carriers_df (path_join CLEAN_DATA_DIR "carriers_clean.csv");;
  to_csv delays_df (path_join CLEAN_DATA_DIR "delays_clean.csv");;
  print "All cleaned files saved".
End cleaning.
End data_cleaning.

(** ** Shared pieces of the analysis scripts *)

(** [open(path, "w").write(text)], the text by lines. *)
Definition write_text (path : string) (lines : list string) : st unit := λ w,
  (Ok tt, World (heap w) (files w) (<[path := lines]> (reports w)) (stdout w)).

(** Nanoseconds in an hour and in a day. *)
Definition ns_per_hour : Z := 3600000000000.
Definition ns_per_day : Z := 86400000000000.

(** [(a - b).dt.total_seconds() / 3600] on one pair of cells; the columns
    are datetime columns, so a cell is a timestamp or NaT. *)
Definition hours_between_cell (a b : cell) : cell :=
  match a, b with
  | Time x, Time y => Num (of_Z (x - y) / of_Z ns_per_hour)%Qc
  | _, _ => NA
  end.

Definition hours_between (a b : series) : series := zip_with hours_between_cell a b.

(** [(a - b).dt.days] on one pair of cells. *)
Definition days_between_cell (a b : cell) : cell :=
  match a, b with
  | Time x, Time y => Num (of_Z ((x - y) / ns_per_day))
  | _, _ => NA
  end.

Definition days_between (a b : series) : series := zip_with days_between_cell a b.

(** [series.clip(lower=lo)] on one cell of a float column. *)
Definition clip_lower_cell (lo : Qc) (c : cell) : cell :=
  match c with
  | Num q => Num (qmax lo q)
  | _ => c
  end.

(** [df[name] = pd.to_datetime(df[name])] *)
Definition convert_datetime `{Pandas} (df : loc) (name : string) : st unit :=
  s ← df_getitem df name;
  ts ← lift (to_datetime_strict s);
  df_setitem df name ts.

(** The delay columns both report scripts derive:
    [delay_hours = (actual_delivery - planned_delivery) in hours], then
    [delay_hours = delay_hours.clip(lower=0)]. *)
Definition derive_delay_hours (df : loc) : st unit :=
  actual ← df_getitem df "actual_delivery";
  planned ← df_getitem df "planned_delivery";
  df_setitem df "delay_hours" (hours_between actual planned);;
  d ← df_getitem df "delay_hours";
  df_setitem df "delay_hours" (clip_lower_cell 0%Qc <$> d).

(** ** final_analysis_report.py: loading *)

Module final_analysis_report.
Section loading.
Context `{Pandas}.

Definition load_and_prepare_data : st (loc * loc * loc * loc * loc) :=
  shipments ← read_csv "./data/shipments.csv";
  routes ← read_csv "./data/routes.csv";
  carriers ← read_csv "./data/carriers.csv";
  warehouses ← read_csv "./data/warehouses.csv";
  delays ← read_csv "./data/delays.csv";
  convert_datetime shipments "ship_date";;
  convert_datetime shipments "planned_delivery";;
  convert_datetime shipments "actual_delivery";;
  derive_delay_hours shipments;;
  actual ← df_getitem shipments "actual_delivery";
  ship ← df_getitem shipments "ship_date";
  df_setitem shipments "delivery_days" (days_between actual ship);;
  mret (shipments, routes, carriers, warehouses, delays).

(** [main]: the data is loaded first; [report] stands for everything
    [main] does with the five frames afterwards. *)
Definition main (report : loc * loc * loc * loc * loc → st unit) : st unit :=
  print "LANCASTER GROUP LOGISTICS EFFICIENCY ANALYSIS";;
  print "Loading and preparing data...";;
  data ← load_and_prepare_data;
  report data.
End loading.
End final_analysis_report.

(** ** src/analysis_utils.py: LogisticsAnalyzer *)

Module analysis_utils.
Section analyzer.
Context `{Pandas}.

(** The fields of a [LogisticsAnalyzer]; a frame field is [None] until
    the file is loaded. *)
Record analyzer := Analyzer {
  data_path : string;
  shipments : option loc;
  routes : option loc;
  carriers : option loc;
  warehouses : option loc;
  delays : option loc
}.

(** [LogisticsAnalyzer(data_path)] *)
Definition init (data_path : string) : analyzer :=
  Analyzer data_path None None None None None.

(** One statement [m] of the [try] block of [load_data], followed by the
    rest [k]: an exception leaves the block, is printed and makes
    [load_data] return [False]; the fields assigned so far stay. *)
Definition attempt {A} (self : analyzer) (m : st A)
    (k : A → st (bool * analyzer)) : st (bool * analyzer) := λ w,
  match m w with
  | (Ok a, w') => k a w'
  | (Raise e, w') =>
      (print ("Ошибка при загрузке данных: " +:+ exn_text e);; mret (false, self)) w'
  end.

Definition load_data (self : analyzer) : st (bool * analyzer) :=
  attempt self (read_csv (data_path self +:+ "shipments.csv")) (λ l,
  let self := Analyzer (data_path self) (Some l) (routes self) (carriers self)
                (warehouses self) (delays self) in
  attempt self (read_csv (data_path self +:+ "routes.csv")) (λ l,
  let self := Analyzer (data_path self) (shipments self) (Some l) (carriers self)
                (warehouses self) (delays self) in
  attempt self (read_csv (data_path self +:+ "carriers.csv")) (λ l,
  let self := Analyzer (data_path self) (shipments self) (routes self) (Some l)
                (warehouses self) (delays self) in
  attempt self (read_csv (data_path self +:+ "warehouses.csv")) (λ l,
  let self := Analyzer (data_path self) (shipments self) (routes self) (carriers self)
                (Some l) (delays self) in
  attempt self (read_csv (data_path self +:+ "delays.csv")) (λ l,
  let self := Analyzer (data_path self) (shipments self) (routes self) (carriers self)
                (warehouses self) (Some l) in
  attempt self (from_option (λ df, convert_datetime df "ship_date") (raise Dangling)
                  (shipments self)) (λ _,
  attempt self (from_option (λ df, convert_datetime df "planned_delivery") (raise Dangling)
                  (shipments self)) (λ _,
  attempt self (from_option (λ df, convert_datetime df "actual_delivery") (raise Dangling)
                  (shipments self)) (λ _,
  attempt self (from_option (λ df, convert_datetime df "date") (raise Dangling)
                  (delays self)) (λ _,
  print "Данные успешно загружены!";;
  mret (true, self)))))))))).

(** [calculate_delivery_metrics]; returns [self.shipments]. *)
Definition calculate_delivery_metrics (self : analyzer) : st loc :=
  df ← from_option mret (raise Dangling) (shipments self);
  actual ← df_getitem df "actual_delivery";
  ship ← df_getitem df "ship_date";
  ship ← lift (to_datetime_strict ship);
  df_setitem df "actual_duration_hours" (hours_between actual ship);;
  derive_delay_hours df;;
  mret df.
End analyzer.
End analysis_utils.

(** ** analysis_visuals.py: loading *)

Module analysis_visuals.
Section loading.
Context `{Pandas}.

Definition CLEAN_DATA_DIR : string := "cleaned_data".

(** [parse_dates=[...]] of [pd.read_csv]: a listed column that reads as
    dates becomes a datetime column, otherwise it stays as it is. *)
Definition parse_date_column (name : string) (f : frame) : result frame :=
  s ← get_column name f;
  match to_datetime_strict s with
  | Ok ts => Ok (set_column name ts f)
  | Raise _ => Ok f
  end.

Fixpoint parse_date_columns (names : list string) (f : frame) : result frame :=
  match names with
  | [] => Ok f
  | c :: names' => f' ← parse_date_column c f; parse_date_columns names' f'
  end.

(** [pd.read_csv(path, parse_dates=names)] *)
Definition read_csv_dates (path : string) (names : list string) : st loc :=
  df ← read_csv path;
  f ← read_frame df;
  f' ← lift (parse_date_columns names f);
  write_frame df f';;
  mret df.

Definition _load_clean (filename : string) : st loc :=
  let path := data_cleaning.path_join CLEAN_DATA_DIR filename in
  present ← path_exists path;
  if negb present then raise (FileNotFoundError path)
  else
    header ← read_csv path;
    f ← read_frame header;
    read_csv_dates path
      (filter (λ col, col ∈ columns f) ["ship_date"; "delivery_date"; "date"]).

(** [main]; [plots] stands for the two plotting functions. *)
Definition main (plots : loc → loc → st unit) : st unit :=
  print "Loading cleaned datasets...";;
  shipments_df ← _load_clean "shipments_clean.csv";
  delays_df ← _load_clean "delays_clean.csv";
  print "Generating visualizations...";;
  plots shipments_df delays_df;;
  print "All plots saved".
End loading.
End analysis_visuals.

(** ** advanced_analysis.py: loading and the hypothesis test *)

(** [scipy.stats.kruskal], which returns the statistic and the p-value,
    and the [f"{x:.nf}"] formatting of a float. *)
Class Stats := {
  kruskal : list (list num) → num * num;
  format_float : nat → num → string
}.

(** [df.dropna(subset=names)] on a frame. *)
Fixpoint col_indexes (names : list string) (f : frame) : result (list nat) :=
  match names with
  | [] => Ok []
  | c :: names' => i ← col_index c f; idxs ← col_indexes names' f; Ok (i :: idxs)
  end.

Definition dropna_subset (names : list string) (f : frame) : result frame :=
  idxs ← col_indexes names f;
  Ok (Frame (columns f)
        (filter (λ r, Forall (λ i, cell_at i r ≠ NA) idxs) (rows f))).

(** [df.dropna(subset=names).copy()]: a new frame. *)
Definition df_dropna_copy (df : loc) (names : list string) : st loc :=
  f ← read_frame df;
  f' ← lift (dropna_subset names f);
  new_frame f'.

Definition count_cell (c : cell) (s : series) : nat := length (filter (λ x, x = c) s).

(** [series.value_counts()]: the distinct values that are not missing,
    with their counts, the largest count first. *)
Definition count_ge (a b : cell * nat) : Prop := (b.2 ≤ a.2)%nat.

Global Instance count_ge_dec : RelDecision count_ge.
Proof. intros a b. unfold count_ge. apply _. Defined.

Definition value_counts (s : series) : list (cell * nat) :=
  merge_sort count_ge
    ((λ c, (c, count_cell c s)) <$> dedup_from [] (filter (λ c, c ≠ NA) s)).

Module advanced_analysis.
Section analysis.
Context `{Pandas} `{Stats}.

Definition CLEAN_DATA_DIR : string := "cleaned_data".
Definition OUTPUT_DIR : string := "outputs".

Definition _load_clean (name : string) (parse_dates : list string) : st loc :=
  let path := data_cleaning.path_join CLEAN_DATA_DIR name in
  present ← path_exists path;
  if negb present then raise (FileNotFoundError path)
  else analysis_visuals.read_csv_dates path parse_dates.

(** [carrier_counts[carrier_counts >= 30].index.tolist()] *)
Definition valid_carriers_of (carriers : series) : list cell :=
  (filter (λ kc, (30 ≤ kc.2)%nat) (value_counts carriers)).*1.

(** The samples passed to the test, one per valid carrier. *)
Definition samples_of (carriers transit : series) : list (list num) :=
  (λ cid, cell_num <$> group_values carriers transit cid) <$> valid_carriers_of carriers.

Definition interpretation (pval : num) : string :=
  if ltb pval (Some (qc 5 100)) then "Reject H0" else "Fail to reject H0".

Definition summary_path : string :=
  data_cleaning.path_join OUTPUT_DIR "delivery_time_hypothesis_test.txt".

Definition summary_text (stat pval : num) : list string :=
  [ "Kruskal-Wallis test across carriers (n≥30 shipments)";
    "Statistic: " +:+ format_float 3 stat;
    "p-value : " +:+ format_float 4 pval;
    "Decision: " +:+ interpretation pval ].

Definition not_enough : string :=
  "Not enough carriers with sample size >=30 for hypothesis test.".

Definition hypothesis_testing (shipments_df : loc) : st unit :=
  f ← read_frame shipments_df;
  if negb (bool_decide ("carrier_id" ∈ columns f))
  then print "carrier_id column missing: cannot run hypothesis testing."
  else
    df ← df_dropna_copy shipments_df ["carrier_id"; "ship_date"; "delivery_date"];
    delivery ← df_getitem df "delivery_date";
    delivery ← lift (to_datetime_strict delivery);
    ship ← df_getitem df "ship_date";
    ship ← lift (to_datetime_strict ship);
    df_setitem df "transit_hours" (hours_between delivery ship);;
    carriers ← df_getitem df "carrier_id";
    transit ← df_getitem df "transit_hours";
    let data := samples_of carriers transit in
    if bool_decide (length data < 2)%nat
    then print not_enough
    else
      let stat := (kruskal data).1 in
      let pval := (kruskal data).2 in
      print "Hypothesis Test (Kruskal-Wallis)";;
      print "H0: No difference in delivery times across carriers";;
      print ("Statistic = " +:+ format_float 3 stat +:+ ", p-value = " +:+ format_float 4 pval);;
      print ("Result: " +:+ interpretation pval +:+ " at α=0.05");;
      write_text summary_path (summary_text stat pval);;
      print ("Hypothesis test summary saved → " +:+ summary_path).

(** [main]; [reports_1_to_3] stands for the inefficient-routes table, the
    correlation heatmap and the Sankey diagram. *)
Definition main (reports_1_to_3 : loc → loc → loc → st unit) : st unit :=
  print "Loading cleaned datasets...";;
  shipments_df ← _load_clean "shipments_clean.csv" ["ship_date"; "delivery_date"];
  delays_df ← _load_clean "delays_clean.csv" ["date"];
  routes_df ← _load_clean "routes_clean.csv" [];
  reports_1_to_3 shipments_df delays_df routes_df;;
  hypothesis_testing shipments_df;;
  print "Advanced analysis complete.".
End analysis.
End advanced_analysis.

(** ** Tables with typed columns *)

(** The aggregation functions read numeric columns of tables whose
    columns have their expected dtypes: an id column holds integers or is
    missing, a float column holds [num]s.  A table is the list of its
    rows. *)

(** The sorted distinct keys of [df.groupby(key)]; missing keys form no
    group. *)
Definition group_keys {A} (key : A → option Z) (l : list A) : list Z :=
  merge_sort Z.le (dedup_from [] (omap key l)).

(** The rows of the group of key [k], in their order in the table. *)
Definition group_rows {A} (key : A → option Z) (l : list A) (k : Z) : list A :=
  filter (λ x, key x = Some k) l.

(** [first]: the first value of the group that is not missing. *)
Definition first_num (l : list num) : num :=
  match dropna l with
  | [] => None
  | x :: _ => Some x
  end.

Definition first_some {A} (l : list (option A)) : option A :=
  match omap id l with
  | [] => None
  | x :: _ => Some x
  end.

(** [count]: how many values of the group are not missing. *)
Definition count_num (l : list num) : nat := length (dropna l).

(** Descending order of a float column with NaN last, as
    [sort_values(ascending=False)] leaves it. *)
Definition num_desc (x y : num) : Prop :=
  match x, y with
  | Some a, Some b => (b ≤ a)%Qc
  | Some _, None => True
  | None, Some _ => False
  | None, None => True
  end.

Global Instance num_desc_dec : RelDecision num_desc.
Proof. intros [a|] [b|]; simpl; apply _. Defined.

(** ** advanced_analysis.py: inefficient routes *)

Module inefficient.

(** The two columns read from each input table. *)
Record shipment := Shipment { s_route_id : option Z; cost : num }.
Record delay := Delay { d_route_id : option Z; delay_hours : num }.

(** A row of [combined]. *)
Record route_stat := RouteStat { route_id : Z; avg_cost : num; avg_delay : num }.

Global Instance route_stat_eq_dec : EqDecision route_stat.
Proof. solve_decision. Defined.

(** [shipments_df.groupby("route_id")["cost"].mean()] *)
Definition cost_agg (shipments : list shipment) : list (Z * num) :=
  (λ k, (k, mean (cost <$> group_rows s_route_id shipments k)))
    <$> group_keys s_route_id shipments.

(** [delays_df.groupby("route_id")["delay_hours"].mean()] *)
Definition delay_agg (delays : list delay) : list (Z * num) :=
  (λ k, (k, mean (delay_hours <$> group_rows d_route_id delays k)))
    <$> group_keys d_route_id delays.

(** The value of a Series at an index label; NaN where the label is
    absent. *)
Definition at_label (agg : list (Z * num)) (k : Z) : num :=
  match list_find (λ kv, kv.1 = k) agg with
  | Some (_, (_, v)) => v
  | None => None
  end.

(** [pd.concat([cost_agg, delay_agg], axis=1)]: one row per label of
    either Series. *)
Definition concat_columns (a b : list (Z * num)) : list route_stat :=
  (λ k, RouteStat k (at_label a k) (at_label b k))
    <$> (a.*1 ++ filter (λ k, k ∉ a.*1) (b.*1)).

(** [.dropna()] *)
Definition complete (r : route_stat) : Prop :=
  is_Some (avg_cost r) ∧ is_Some (avg_delay r).

Global Instance complete_dec r : Decision (complete r).
Proof. unfold complete. apply _. Defined.

Definition combined (shipments : list shipment) (delays : list delay) : list route_stat :=
  filter complete (concat_columns (cost_agg shipments) (delay_agg delays)).

Definition cost_thresh (c : list route_stat) : num := quantile (qc 75 100) (avg_cost <$> c).
Definition delay_thresh (c : list route_stat) : num := quantile (qc 75 100) (avg_delay <$> c).

(** [sort_values(["avg_cost", "avg_delay"], ascending=False)] *)
Definition by_cost_then_delay (x y : route_stat) : Prop :=
  if decide (avg_cost x = avg_cost y) then num_desc (avg_delay x) (avg_delay y)
  else num_desc (avg_cost x) (avg_cost y).

Global Instance by_cost_then_delay_dec : RelDecision by_cost_then_delay.
Proof. intros x y. unfold by_cost_then_delay. case_decide; apply _. Defined.

(** The table [inefficient_routes] returns (it also saves it as
    [outputs/inefficient_routes.csv] and prints its size). *)
Definition inefficient_routes (shipments : list shipment) (delays : list delay)
    : list route_stat :=
  let c := combined shipments delays in
  merge_sort by_cost_then_delay
    (filter (λ r, gtb (avg_cost r) (cost_thresh c) && gtb (avg_delay r) (delay_thresh c) = true) c).

End inefficient.

(** ** final_analysis_report.py: the aggregations *)

(** [left.merge(right, on=key)]: an inner join; the rows keep the order
    of the left table, and a missing key matches a missing key. *)
Definition merge_on {A B} (ka : A → option Z) (kb : B → option Z)
    (left : list A) (right : list B) : list (A * B) :=
  x ← left; y ← filter (λ y, kb y = ka x) right; [(x, y)].

Module final_analysis_tables.

Record shipment := Shipment {
  shipment_id : option Z;
  route_id : option Z;
  carrier_id : option Z;
  status : string;
  delay_hours : num;
  delivery_cost : num
}.

Record route := Route {
  r_route_id : option Z;
  distance_km : num;
  start_point : option string;
  end_point : option string;
  avg_time_hours : num
}.

Record carrier := Carrier {
  c_carrier_id : option Z;
  name : option string;
  avg_rating : num;
  reliability_score : num
}.

(** A row of [route_metrics]; [rm_route_id] is its index label. *)
Record route_metric := RouteMetric {
  rm_route_id : Z;
  avg_delay : num;
  shipment_count : nat;
  max_delay : num;
  avg_cost : num;
  distance : num;
  start : option string;
  end_ : option string;
  planned_time : num;
  cost_per_km : num;
  efficiency_score : num
}.

Definition round2_num (x : num) : num := round2 <$> x.

Definition route_metrics (shipments : list shipment) (routes : list route)
    : list route_metric :=
  let shipments_routes := merge_on route_id r_route_id shipments routes in
  (λ k,
     let g := group_rows (λ sr, route_id sr.1) shipments_routes k in
     let avg_delay := round2_num (mean ((λ sr, delay_hours sr.1) <$> g)) in
     let shipment_count := count_num ((λ sr, delay_hours sr.1) <$> g) in
     let max_delay := round2_num (maximum ((λ sr, delay_hours sr.1) <$> g)) in
     let avg_cost := round2_num (mean ((λ sr, delivery_cost sr.1) <$> g)) in
     let distance := round2_num (first_num ((λ sr, distance_km sr.2) <$> g)) in
     let start := first_some ((λ sr, start_point sr.2) <$> g) in
     let end_ := first_some ((λ sr, end_point sr.2) <$> g) in
     let planned_time := round2_num (first_num ((λ sr, avg_time_hours sr.2) <$> g)) in
     RouteMetric k avg_delay shipment_count max_delay avg_cost distance start end_
       planned_time
       (div avg_cost distance)
       (div (Some (of_nat shipment_count)) (add avg_delay (Some 1%Qc))))
  <$> group_keys (λ sr, route_id sr.1) shipments_routes.

Definition delay_q80 (rm : list route_metric) : num := quantile (qc 8 10) (avg_delay <$> rm).
Definition cost_per_km_q80 (rm : list route_metric) : num :=
  quantile (qc 8 10) (cost_per_km <$> rm).

Definition problematic_routes (rm : list route_metric) : list route_metric :=
  filter (λ r, gtb (avg_delay r) (delay_q80 rm) || gtb (cost_per_km r) (cost_per_km_q80 rm) = true) rm.

Definition analyze_route_efficiency (shipments : list shipment) (routes : list route)
    : list route_metric * list route_metric :=
  let rm := route_metrics shipments routes in
  (rm, problematic_routes rm).

(** A row of [carrier_metrics]; [cm_carrier_id] is its index label. *)
Record carrier_metric := CarrierMetric {
  cm_carrier_id : Z;
  cm_delay_hours : num;
  cm_delivery_cost : num;
  cm_shipment_id : nat;
  cm_name : option string;
  cm_avg_rating : num;
  cm_reliability_score : num;
  delay_rate : num;
  performance_score : num
}.

Definition delayed_status : string := "Задержка".

(** [groupby("carrier_id").size()] as a Series: label and group size. *)
Definition sizes {A} (key : A → option Z) (l : list A) : list (Z * num) :=
  (λ k, (k, Some (of_nat (length (group_rows key l k))))) <$> group_keys key l.

(** The fixed weighted sum of [analyze_carrier_performance]. *)
Definition score (reliability rate delay : num) : num :=
  add (add (mul reliability (Some (qc 3 10)))
           (mul (sub (Some (qc 100 1)) rate) (Some (qc 4 10))))
      (mul (sub (Some (qc 10 1)) (clip 0%Qc (qc 10 1) delay)) (Some (qc 3 10))).

Definition by_score (x y : carrier_metric) : Prop :=
  num_desc (performance_score x) (performance_score y).

Global Instance by_score_dec : RelDecision by_score.
Proof. intros x y. unfold by_score. apply _. Defined.

(** [carrier_metrics] before it is sorted. *)
Definition carrier_table (shipments : list shipment) (carriers : list carrier)
    : list carrier_metric :=
  let shipments_carriers := merge_on carrier_id c_carrier_id shipments carriers in
  let key := λ sc : shipment * carrier, carrier_id sc.1 in
  let delayed_by_carrier :=
    sizes key (filter (λ sc, status sc.1 = delayed_status) shipments_carriers) in
  let total_by_carrier := sizes key shipments_carriers in
  (λ k,
     let g := group_rows key shipments_carriers k in
     let delay := round2_num (mean ((λ sc, delay_hours sc.1) <$> g)) in
     let cost := round2_num (mean ((λ sc, delivery_cost sc.1) <$> g)) in
     let n := length (omap (λ sc, shipment_id sc.1) g) in
     let name := first_some ((λ sc, name sc.2) <$> g) in
     let rating := round2_num (first_num ((λ sc, avg_rating sc.2) <$> g)) in
     let reliability := round2_num (first_num ((λ sc, reliability_score sc.2) <$> g)) in
     let rate :=
       match mul (div (inefficient.at_label delayed_by_carrier k)
                      (inefficient.at_label total_by_carrier k)) (Some (qc 100 1)) with
       | Some r => Some r
       | None => Some 0%Qc
       end in
     CarrierMetric k delay cost n name rating reliability rate
       (score reliability rate delay))
  <$> group_keys key shipments_carriers.

Definition analyze_carrier_performance (shipments : list shipment)
    (carriers : list carrier) : list carrier_metric :=
  merge_sort by_score (carrier_table shipments carriers).





End final_analysis_tables.

(** ** route_clustering.py *)

(** scikit-learn: [StandardScaler().fit_transform] and the centres
    [KMeans(n_clusters=k, ...)] fits to the scaled rows. *)
Class SkLearn := {
  standard_scale : list (list Qc) → list (list Qc);
  kmeans_centers : nat → list (list Qc) → list (list Qc)
}.

(** Squared Euclidean distance. *)
Definition sq_dist (x c : list Qc) : Qc :=
  Num.sum (zip_with (λ a b, (a - b) * (a - b))%Qc x c).

(** The position of the least element from position [i] on, given the
    least one so far; the first of equal elements wins. *)
Fixpoint argmin_from (best_i : nat) (best : Qc) (i : nat) (ds : list Qc) : nat :=
  match ds with
  | [] => best_i
  | d :: ds' =>
      if decide (d < best)%Qc then argmin_from i d (S i) ds'
      else argmin_from best_i best (S i) ds'
  end.

(** The label of a row: the position of its nearest centre. *)
Definition nearest (centers : list (list Qc)) (x : list Qc) : nat :=
  match sq_dist x <$> centers with
  | [] => O
  | d :: ds => argmin_from O d 1 ds
  end.

Module route_clustering.
Section script.
Context `{Pandas} `{SkLearn}.

Definition routes_path : string :=
  data_cleaning.path_join "cleaned_data" "routes_clean.csv".

Definition feature_cols : list string := ["distance"; "avg_time"; "avg_cost"].

Definition N_CLUSTERS : nat := 3.

(** The floats of the feature columns of one row; text does not convert. *)
Fixpoint feature_row (idxs : list nat) (r : row) : result (list Qc) :=
  match idxs with
  | [] => Ok []
  | i :: idxs' =>
      match cell_at i r with
      | Num q => qs ← feature_row idxs' r; Ok (q :: qs)
      | _ => Raise (ValueError "could not convert to float")
      end
  end.

Fixpoint feature_rows (idxs : list nat) (R : list row) : result (list (list Qc)) :=
  match R with
  | [] => Ok []
  | r :: R' => x ← feature_row idxs r; X ← feature_rows idxs R'; Ok (x :: X)
  end.

(** [routes_df[feature_cols]] as a matrix of floats. *)
Definition feature_matrix (f : frame) : result (list (list Qc)) :=
  idxs ← col_indexes feature_cols f; feature_rows idxs (rows f).

(** [KMeans(n_clusters=k).fit_predict(X)]; fewer rows than clusters is a
    [ValueError]. *)
Definition fit_predict (k : nat) (X : list (list Qc)) : result (list nat) :=
  if bool_decide (length X < k)%nat then Raise (ValueError "n_samples < n_clusters")
  else Ok (nearest (kmeans_centers k X) <$> X).

(** The script up to the assignment of the [cluster] column; it returns
    [routes_df]. *)
Definition cluster_routes : st loc :=
  present ← path_exists routes_path;
  if negb present then raise (FileNotFoundError routes_path)
  else
    routes_df ← read_csv routes_path;
    f ← read_frame routes_df;
    if negb (bool_decide (filter (λ c, c ∉ columns f) feature_cols = []))
    then raise (KeyError "Missing expected feature columns in routes data")
    else
      routes_df ← df_dropna_copy routes_df feature_cols;
      f ← read_frame routes_df;
      X ← lift (feature_matrix f);
      labels ← lift (fit_predict N_CLUSTERS (standard_scale X));
      df_setitem routes_df "cluster" ((λ l : nat, Num (of_nat l)) <$> labels);;
      mret routes_df.

(** The whole script; [plot_and_profile] stands for the scatter plot and
    the cluster profile that follow. *)
Definition script (plot_and_profile : loc → st unit) : st unit :=
  routes_df ← cluster_routes;
  plot_and_profile routes_df.
End script.
End route_clustering.

(** ** src/data_generator.py: warehouses *)

(** [numpy.random]: [randint(lo, hi)] and [uniform(lo, hi)] on the state
    of the generator. *)
Class Random := {
  rng : Type;
  randint : Z → Z → rng → Z * rng;
  uniform : Qc → Qc → rng → Qc * rng
}.

Module data_generator.
Section generator.
Context `{Random}.

Record warehouse := Warehouse {
  warehouse_id : Z;
  region : string;
  capacity : Z;
  current_load : Z;
  utilization_rate : Qc
}.

Definition regions : list string :=
  ["Москва"; "СПБ"; "Екатеринбург"; "Новосибирск"; "Казань"; "Нижний Новгород";
   "Челябинск"; "Ростов-на-Дону"; "Уфа"; "Волгоград"; "Пермь"; "Воронеж"].

(** [int(x)]: the integer part, towards zero. *)
Definition int_part (x : Qc) : Z := Z.quot (Qnum (this x)) (Z.pos (Qden (this x))).

(** [i in [3, 7, 9]] *)
Definition high_load (i : Z) : bool := bool_decide (i ∈ [3; 7; 9]).

(** The load factor drawn for warehouse [i]. *)
Definition draw_factor (i : Z) (g : rng) : Qc * rng :=
  if high_load i then uniform (qc 85 100) (qc 95 100) g
  else uniform (qc 4 10) (qc 8 10) g.

(** The loop [for i, region in enumerate(regions, 1)], from [i] on. *)
Fixpoint generate_from (i : Z) (regions : list string) (g : rng) : list warehouse * rng :=
  match regions with
  | [] => ([], g)
  | region :: regions' =>
      let capacity := (randint 1000 5000 g).1 in
      let g1 := (randint 1000 5000 g).2 in
      let factor := (draw_factor i g1).1 in
      let g2 := (draw_factor i g1).2 in
      let current_load := int_part (of_Z capacity * factor)%Qc in
      let w := Warehouse i region capacity current_load
                 (round2 (of_Z current_load / of_Z capacity)%Qc) in
      (w :: (generate_from (i + 1) regions' g2).1, (generate_from (i + 1) regions' g2).2)
  end.

Definition generate_warehouses (g : rng) : list warehouse * rng :=
  generate_from 1 regions g.
End generator.
End data_generator.

(** * Properties of the scripts *)

(** A concrete reading of the library routines, used for examples. *)
Definition digit_value (c : ascii) : option Z :=
  let n := nat_of_ascii c in
  if bool_decide (48 ≤ n ≤ 57)%nat then Some (Z.of_nat (n - 48)) else None.

Fixpoint parse_digits (acc : Z) (s : string) : option Z :=
  match s with
  | EmptyString => Some acc
  | String c s' => d ← digit_value c; parse_digits (10 * acc + d) s'
  end.

Definition parse_nat (s : string) : option Z :=
  match s with
  | EmptyString => None
  | _ => parse_digits 0 s
  end.

Definition simple_pandas : Pandas := {|
  parse_number s := of_Z <$> parse_nat s;
  parse_datetime s := parse_nat s;
  datetime_of_number q := Some (floor q);
  str_of_number q := "0";
  str_of_datetime t := "1970-01-01"
|}.

Definition empty_world : world := World ∅ ∅ ∅ [].


(** ** Running a cleaner: from the store to frames *)

Definition upd (w : world) (df : loc) (f : frame) : world :=
  World (<[df := f]> (heap w)) (files w) (reports w) (stdout w).

(** [df[c] = h(df[c])] on a frame. *)
Definition assign (c : string) (h : series → series) (f : frame) : result frame :=
  s ← get_column c f; Ok (set_column c (h s) f).

(** [df[c] = h(df[k], df[c])] on a frame. *)
Definition assign2 (k c : string) (h : series → series → series) (f : frame) : result frame :=
  keys ← get_column k f; s ← get_column c f; Ok (set_column c (h keys s) f).

(** A sequence of frame updates applied to the object at [df], then [k]. *)
Fixpoint exec {A} (df : loc) (steps : list (frame → result frame)) (k : st A)
    (f : frame) (w : world) : result A * world :=
  match steps with
  | [] => k w
  | g :: steps' =>
      match g f with
      | Ok f' => exec df steps' k f' (upd w df f')
      | Raise e => (Raise e, w)
      end
  end.

Fixpoint pipeline (steps : list (frame → result frame)) (f : frame) : result frame :=
  match steps with
  | [] => Ok f
  | g :: steps' => f' ← g f; pipeline steps' f'
  end.

Lemma upd_upd w df f1 f2 : upd (upd w df f1) df f2 = upd w df f2.
Proof. unfold upd; simpl. by rewrite insert_insert_eq. Qed.

Lemma upd_lookup w df f : heap (upd w df f) !! df = Some f.
Proof. simpl. apply lookup_insert_eq. Qed.

Lemma upd_id w df f : heap w !! df = Some f → upd w df f = w.
Proof. intros Hf. destruct w as [h fs out]; unfold upd; simpl in *. by rewrite insert_id. Qed.

(** What [exec] comes to: the pipeline on frames, the object at [df]
    holding the last frame reached. *)
Lemma exec_pipeline {A} df steps (k : st A) f w :
  heap w !! df = Some f →
  match pipeline steps f with
  | Ok f' => exec df steps k f w = k (upd w df f')
  | Raise e => ∃ f', exec df steps k f w = (Raise e, upd w df f')
  end.
Proof.
  revert f w. induction steps as [|g steps IH]; intros f w Hf; simpl.
  - by rewrite upd_id.
  - destruct (g f) as [f1|e] eqn:Hg; simpl.
    + specialize (IH f1 (upd w df f1) (upd_lookup _ _ _)).
      destruct (pipeline steps f1) as [f2|e].
      * by rewrite IH, upd_upd.
      * destruct IH as [f' ->]. exists f'. by rewrite upd_upd.
    + exists f. by rewrite upd_id.
Qed.

Lemma st_bind_assoc {A B C} (m : st A) (k1 : A → st B) (k2 : B → st C) w :
  ((m ≫= k1) ≫= k2) w = (m ≫= (λ a, k1 a ≫= k2)) w.
Proof.
  unfold mbind, st_bind. destruct (m w) as [[a|e] w']; reflexivity.
Qed.

Section step_lemmas.
Context {A : Type} (df : loc) (k : st A) (f : frame) (w : world).
Hypothesis Hf : heap w !! df = Some f.

Lemma read_frame_run {B} (k' : frame → st B) :
  (read_frame df ≫= k') w = k' f w.
Proof. unfold mbind, st_bind, read_frame. by rewrite Hf. Qed.

Lemma rename_then m :
  (df_rename_inplace df m;; k) w = k (upd w df (rename m f)).
Proof.
  unfold df_rename_inplace. rewrite st_bind_assoc, read_frame_run.
  reflexivity.
Qed.

Lemma getitem_then {B} c (k' : series → st B) :
  (df_getitem df c ≫= k') w =
  match get_column c f with
  | Ok s => k' s w
  | Raise e => (Raise e, w)
  end.
Proof.
  unfold df_getitem. rewrite st_bind_assoc, read_frame_run.
  unfold mbind at 1, st_bind, lift. by destruct (get_column c f).
Qed.

Lemma setitem_then c vs :
  (df_setitem df c vs;; k) w = k (upd w df (set_column c vs f)).
Proof.
  unfold df_setitem. rewrite st_bind_assoc, read_frame_run.
  reflexivity.
Qed.

End step_lemmas.

Lemma st_ret_bind {A B} (a : A) (k : A → st B) w : (mret a ≫= k) w = k a w.
Proof. reflexivity. Qed.

Lemma copy_then {A} df0 (k : loc → st A) f w :
  heap w !! df0 = Some f →
  (df_copy df0 ≫= k) w =
  k (fresh (dom (heap w))) (upd w (fresh (dom (heap w))) f).
Proof.
  intros Hf. unfold df_copy. rewrite st_bind_assoc, (read_frame_run _ f) by done.
  reflexivity.
Qed.

Ltac run_step :=
  repeat (rewrite st_bind_assoc || rewrite st_ret_bind);
  first
  [ erewrite rename_then by apply upd_lookup
  | erewrite setitem_then by apply upd_lookup;
    match goal with
    | |- context [upd _ _ (set_column ?c ?v ?f)] =>
        generalize (set_column c v f); intros ?
    end
  | erewrite getitem_then by apply upd_lookup;
    match goal with
    | E : get_column ?c ?f = _ |- context [get_column ?c ?f] =>
        rewrite E; cbn [mbind result_bind]
    | |- context [get_column ?c ?f] =>
        destruct (get_column c f) eqn:?; cbn [mbind result_bind]; [|reflexivity]
    end ].

Ltac run_cleaner :=
  cbn [for_each exec]; unfold assign, assign2;
  repeat run_step;
  repeat (rewrite st_bind_assoc || rewrite st_ret_bind);
  reflexivity.

(** *** Strings *)

Lemma lower_ascii_idem c : lower_ascii (lower_ascii c) = lower_ascii c.
Proof. destruct c as [[] [] [] [] [] [] [] []]; reflexivity. Qed.

Lemma is_space_lower_ascii c : is_space (lower_ascii c) = is_space c.
Proof. destruct c as [[] [] [] [] [] [] [] []]; reflexivity. Qed.

Lemma lower_idem s : lower (lower s) = lower s.
Proof. induction s as [|c s IH]; simpl; [done|]. by rewrite lower_ascii_idem, IH. Qed.

Lemma lstrip_lower s : lstrip (lower s) = lower (lstrip s).
Proof.
  induction s as [|c s IH]; simpl; [done|].
  rewrite is_space_lower_ascii. by destruct (is_space c).
Qed.

Lemma rstrip_lower s : rstrip (lower s) = lower (rstrip s).
Proof.
  induction s as [|c s IH]; simpl; [done|].
  rewrite IH, is_space_lower_ascii.
  destruct (rstrip s); simpl; [by destruct (is_space c)|done].
Qed.

Lemma strip_lower s : strip (lower s) = lower (strip s).
Proof. unfold strip. by rewrite lstrip_lower, rstrip_lower. Qed.

(** A string is trimmed on the left when it does not start with a space. *)
Definition starts_clean (s : string) : Prop :=
  match s with
  | EmptyString => True
  | String c _ => is_space c = false
  end.

Lemma lstrip_starts_clean s : starts_clean (lstrip s).
Proof.
  induction s as [|c s IH]; simpl; [done|].
  destruct (is_space c) eqn:Hc; [done|]. simpl. done.
Qed.

Lemma lstrip_id s : starts_clean s → lstrip s = s.
Proof. destruct s as [|c s]; simpl; [done|]. by intros ->. Qed.

Lemma rstrip_starts_clean s : starts_clean s → starts_clean (rstrip s).
Proof.
  destruct s as [|c s]; simpl; [done|]. intros Hc.
  destruct (rstrip s); simpl; [by rewrite Hc|done].
Qed.

Lemma rstrip_idem s : rstrip (rstrip s) = rstrip s.
Proof.
  induction s as [|c s IH]; simpl; [done|].
  destruct (rstrip s) as [|d t] eqn:Ht.
  - destruct (is_space c) eqn:Hc; simpl; [done|]. by rewrite Hc.
  - cbn [rstrip] in *. fold rstrip in *. by rewrite IH.
Qed.

Lemma strip_idem s : strip (strip s) = strip s.
Proof.
  unfold strip.
  rewrite (lstrip_id (rstrip _)) by apply rstrip_starts_clean, lstrip_starts_clean.
  apply rstrip_idem.
Qed.

Lemma standardize_fixed s : strip (lower (strip (lower s))) = strip (lower s).
Proof. by rewrite <-strip_lower, strip_idem, lower_idem. Qed.

(** *** Frames as rows: what a column assignment does to the rows *)

(** Replace cell [i] of every row by [φ] of the row. *)
Definition upd_rows (i : nat) (φ : row → cell) (R : list row) : list row :=
  (λ r, <[i := φ r]> r) <$> R.

(** The cell the group-median fill writes into row [r]. *)
Definition group_fill_value (k i : nat) (R : list row) (r : row) : cell :=
  if isna (cell_at k r) then NA
  else fillna (series_median (cell_at i <$> filter (λ r', cell_at k r' = cell_at k r) R))
         (cell_at i r).

(** The cell the overall-median fill writes into row [r]. *)
Definition all_fill_value (i : nat) (R : list row) (r : row) : cell :=
  fillna (series_median (cell_at i <$> R)) (cell_at i r).

Lemma find_index_lookup name cols i :
  find_index name cols = Some i → cols !! i = Some name.
Proof.
  revert i. induction cols as [|c cs IH]; intros i; simpl; [done|].
  case_decide as Hc; [intros [= <-]; by subst|].
  destruct (find_index name cs) as [j|]; simpl; [|done].
  intros [= <-]. by apply IH.
Qed.

Lemma find_index_None name cols : find_index name cols = None ↔ name ∉ cols.
Proof.
  induction cols as [|c cs IH]; simpl.
  { split; [intros _; apply not_elem_of_nil|done]. }
  case_decide as Hc.
  - subst. split; [done|]. intros []. by left.
  - rewrite not_elem_of_cons. destruct (find_index name cs); simpl.
    + split; [done|]. intros [_ Hn]. by apply IH in Hn.
    + split; [|done]. intros _. split; [congruence|]. by apply IH.
Qed.

Lemma col_index_Ok name f i :
  col_index name f = Ok i →
  find_index name (columns f) = Some i ∧ name ∉ drop (S i) (columns f).
Proof.
  unfold col_index. destruct (find_index name (columns f)) as [j|]; [|done].
  case_decide; [done|]. by intros [= ->].
Qed.

Lemma col_index_lookup name f i :
  col_index name f = Ok i → columns f !! i = Some name.
Proof. intros [Hi _]%col_index_Ok. by apply find_index_lookup. Qed.

Lemma col_index_elem name f i : col_index name f = Ok i → name ∈ columns f.
Proof. intros Hi%col_index_lookup. by eapply list_elem_of_lookup_2. Qed.

Lemma col_index_ne a b f i j :
  col_index a f = Ok i → col_index b f = Ok j → a ≠ b → i ≠ j.
Proof.
  intros Hi%col_index_lookup Hj%col_index_lookup Hab ->. congruence.
Qed.

Lemma col_index_columns name f g :
  columns f = columns g → col_index name f = col_index name g.
Proof. unfold col_index. by intros ->. Qed.

Lemma set_cells_absent name v cols r : name ∉ cols → set_cells name v cols r = r.
Proof.
  revert r. induction cols as [|c cs IH]; intros [|x xs]; simpl; try done.
  intros [Hc Hn]%not_elem_of_cons. case_decide; [congruence|].
  by rewrite IH.
Qed.

Lemma set_cells_insert name v cols r i :
  find_index name cols = Some i → name ∉ drop (S i) cols →
  set_cells name v cols r = <[i := v]> r.
Proof.
  revert r i. induction cols as [|c cs IH]; intros r i; simpl; [done|].
  case_decide as Hc.
  - intros [= <-] Hn. simpl in Hn. destruct r as [|x xs]; simpl; [done|].
    by rewrite set_cells_absent.
  - destruct (find_index name cs) as [j|] eqn:Hj; simpl; [|done].
    intros [= <-] Hn. simpl in Hn. destruct r as [|x xs]; simpl; [done|].
    by rewrite (IH _ j).
Qed.

Lemma set_column_rows name vs f i :
  col_index name f = Ok i →
  set_column name vs f =
  Frame (columns f) (zip_with (λ r v, <[i := v]> r) (rows f) vs).
Proof.
  intros Hi. unfold set_column.
  rewrite decide_True by by eapply col_index_elem.
  f_equal. apply col_index_Ok in Hi as [Hi Hn].
  apply zip_with_ext; [|done..]. intros r v. by apply set_cells_insert.
Qed.

Lemma zip_with_fmap_same {A B C} (f : A → B → C) (g : A → B) (l : list A) :
  zip_with f l (g <$> l) = (λ x, f x (g x)) <$> l.
Proof. induction l as [|x l IH]; csimpl; [done|]. by rewrite IH. Qed.

Lemma group_values_rows k i (R : list row) (key : cell) :
  group_values (cell_at k <$> R) (cell_at i <$> R) key =
  cell_at i <$> filter (λ r, cell_at k r = key) R.
Proof.
  unfold group_values. induction R as [|r R IH]; csimpl; [done|].
  rewrite !filter_cons. csimpl. case_decide; csimpl; by rewrite IH.
Qed.

Lemma groupby_transform_rows k i (R : list row) :
  groupby_transform_fillna_median (cell_at k <$> R) (cell_at i <$> R) =
  group_fill_value k i R <$> R.
Proof.
  unfold groupby_transform_fillna_median.
  rewrite zip_with_fmap_l, zip_with_fmap_r, zip_with_diag.
  apply list_fmap_ext. intros _ r _. unfold group_fill_value.
  by rewrite group_values_rows.
Qed.

Lemma assign_cell c g f i :
  col_index c f = Ok i →
  assign c (fmap g) f = Ok (Frame (columns f) (upd_rows i (g ∘ cell_at i) (rows f))).
Proof.
  intros Hi. unfold assign, get_column. rewrite Hi. simpl.
  rewrite (set_column_rows _ _ _ i) by done. do 2 f_equal.
  rewrite <-list_fmap_compose. apply zip_with_fmap_same.
Qed.

Lemma assign_Raise c h f e :
  col_index c f = Raise e → assign c h f = Raise e.
Proof. intros Hi. unfold assign, get_column. by rewrite Hi. Qed.

Lemma assign2_group k c f ik i :
  col_index k f = Ok ik → col_index c f = Ok i →
  assign2 k c groupby_transform_fillna_median f =
  Ok (Frame (columns f) (upd_rows i (group_fill_value ik i (rows f)) (rows f))).
Proof.
  intros Hk Hi. unfold assign2, get_column. rewrite Hk, Hi. simpl.
  rewrite (set_column_rows _ _ _ i) by done. do 2 f_equal.
  rewrite groupby_transform_rows. apply zip_with_fmap_same.
Qed.

Lemma assign2_all c f i :
  col_index c f = Ok i →
  assign2 c c (λ target s, fillna (series_median s) <$> target) f =
  Ok (Frame (columns f) (upd_rows i (all_fill_value i (rows f)) (rows f))).
Proof.
  intros Hi. unfold assign2, get_column. rewrite Hi. simpl.
  rewrite (set_column_rows _ _ _ i) by done. do 2 f_equal.
  rewrite <-list_fmap_compose. apply zip_with_fmap_same.
Qed.

(** *** The median of a column *)

Lemma dropna_nil l : dropna l = [] ↔ ∀ x, x ∈ l → x = None.
Proof.
  unfold dropna. induction l as [|[q|] l IH]; csimpl.
  - split; [|done]. intros _ x Hx. by apply elem_of_nil in Hx.
  - split; [done|]. intros Hl. discriminate (Hl (Some q)). by left.
  - rewrite IH. split.
    + intros Hl x [->|Hx]%elem_of_cons; auto.
    + intros Hl x Hx. apply Hl. by right.
Qed.

Lemma median_nil l : dropna l = [] → median l = None.
Proof. unfold median. by intros ->. Qed.

Lemma median_is_Some l : dropna l ≠ [] → is_Some (median l).
Proof.
  intros Hl. unfold median.
  set (v := merge_sort Qcle (dropna l)).
  assert (length v ≠ 0)%nat as Hn.
  { unfold v. rewrite (Permutation_length (merge_sort_Permutation _ _)).
    by destruct (dropna l). }
  destruct (Nat.even (length v)) eqn:He.
  - destruct (length v) as [|[|n]] eqn:Hlen; [done|done|].
    destruct (lookup_lt_is_Some_2 v (S (S n) / 2 - 1)) as [a ->].
    { pose proof (Nat.div_lt (S (S n)) 2). lia. }
    destruct (lookup_lt_is_Some_2 v (S (S n) / 2)) as [b ->].
    { rewrite Hlen. apply Nat.div_lt; lia. }
    by eexists.
  - apply lookup_lt_is_Some_2, Nat.div_lt; lia.
Qed.

Lemma series_median_NA (s : series) :
  series_median s = NA ↔ ∀ c, c ∈ s → cell_num c = None.
Proof.
  unfold series_median. split.
  - intros Hm c Hc. destruct (cell_num c) as [q|] eqn:Hq; [|done].
    destruct (median_is_Some (cell_num <$> s)) as [m Hmed].
    + intros Hnil. rewrite dropna_nil in Hnil.
      discriminate (Hnil (Some q)). rewrite <-Hq. by apply list_elem_of_fmap_2.
    + by rewrite Hmed in Hm.
  - intros Hs. rewrite median_nil; [done|]. apply dropna_nil.
    intros x (c & -> & Hc)%list_elem_of_fmap. by apply Hs.
Qed.

Lemma series_median_numeric (s : series) :
  series_median s = NA ∨ ∃ q, series_median s = Num q.
Proof. unfold series_median. destruct (median _); eauto. Qed.

(** *** Steps on rows and their fixed points *)

Inductive rstep :=
  | CellStep (i : nat) (g : cell → cell)
  | GroupFill (k i : nat)
  | AllFill (i : nat).

Definition run_rstep (s : rstep) (R : list row) : list row :=
  match s with
  | CellStep i g => upd_rows i (g ∘ cell_at i) R
  | GroupFill k i => upd_rows i (group_fill_value k i R) R
  | AllFill i => upd_rows i (all_fill_value i R) R
  end.

Definition run_rsteps (ss : list rstep) (R : list row) : list row :=
  foldl (λ R s, run_rstep s R) R ss.

(** The column a step writes. *)
Definition target (s : rstep) : nat :=
  match s with
  | CellStep i _ | GroupFill _ i | AllFill i => i
  end.

(** The columns a step reads. *)
Definition sources (s : rstep) : list nat :=
  match s with
  | CellStep i _ | AllFill i => [i]
  | GroupFill k i => [k; i]
  end.

(** Rows on which a step changes nothing. *)
Definition fixed (s : rstep) (R : list row) : Prop :=
  match s with
  | CellStep i g => ∀ r c, r ∈ R → r !! i = Some c → g c = c
  | GroupFill k i =>
      ∀ r c, r ∈ R → r !! i = Some c →
        (cell_at k r = NA → c = NA) ∧
        (cell_at k r ≠ NA → c = NA →
         ∀ r', r' ∈ R → cell_at k r' = cell_at k r → cell_num (cell_at i r') = None)
  | AllFill i =>
      ∀ r c, r ∈ R → r !! i = Some c → c = NA →
        ∀ r', r' ∈ R → cell_num (cell_at i r') = None
  end.

(** Every row of [R'] agrees on the columns [I] with some row of [R]. *)
Definition covered (I : list nat) (R R' : list row) : Prop :=
  ∀ r', r' ∈ R' → ∃ r, r ∈ R ∧ ∀ i, i ∈ I → r' !! i = r !! i.



Lemma covered_subseteq I R R' : R' ⊆ R → covered I R R'.
Proof. intros Hsub r Hr. exists r. split; [by apply Hsub|done]. Qed.

Lemma covered_upd_rows I j φ R : j ∉ I → covered I R (upd_rows j φ R).
Proof.
  intros Hj r' (r & -> & Hr)%list_elem_of_fmap. exists r. split; [done|].
  intros i Hi. apply list_lookup_insert_ne. by intros ->.
Qed.

Lemma covered_run_rstep I s R : target s ∉ I → covered I R (run_rstep s R).
Proof. destruct s; simpl; apply covered_upd_rows. Qed.

Lemma cell_at_agree (r r' : row) i : r' !! i = r !! i → cell_at i r' = cell_at i r.
Proof. unfold cell_at. by intros ->. Qed.

Lemma fixed_covered s R R' : covered (sources s) R R' → fixed s R → fixed s R'.
Proof.
  intros Hcov. destruct s as [i g|k i|i]; simpl; intros Hfix.
  - intros r' c Hr' Hc. destruct (Hcov r' Hr') as (r & Hr & Hag).
    apply (Hfix r c Hr). rewrite <-Hag; [done|]. by left.
  - intros r' c Hr' Hc. destruct (Hcov r' Hr') as (r & Hr & Hag).
    assert (cell_at k r' = cell_at k r) as Hk.
    { apply cell_at_agree, Hag. by left. }
    assert (r !! i = Some c) as Hci.
    { rewrite <-Hag; [done|]. right; by left. }
    destruct (Hfix r c Hr Hci) as [H1 H2]. rewrite Hk. split; [done|].
    intros Hkey HNA r'' Hr'' Hsame.
    destruct (Hcov r'' Hr'') as (r0 & Hr0 & Hag0).
    rewrite (cell_at_agree r0 r'' i) by (apply Hag0; right; by left).
    apply (H2 Hkey HNA r0 Hr0).
    rewrite <-(cell_at_agree r0 r'' k) by (apply Hag0; by left). done.
  - intros r' c Hr' Hc HNA r'' Hr''.
    destruct (Hcov r' Hr') as (r & Hr & Hag).
    destruct (Hcov r'' Hr'') as (r0 & Hr0 & Hag0).
    rewrite (cell_at_agree r0 r'' i) by (apply Hag0; by left).
    apply (Hfix r c Hr); [|done..]. rewrite <-Hag; [done|]. by left.
Qed.

Lemma upd_rows_id i φ R :
  (∀ r c, r ∈ R → r !! i = Some c → φ r = c) → upd_rows i φ R = R.
Proof.
  intros Hφ. unfold upd_rows. rewrite <-(list_fmap_id R) at 2.
  apply list_fmap_ext. intros j r Hr. simpl.
  apply list_elem_of_lookup_2 in Hr.
  destruct (r !! i) as [c|] eqn:Hc.
  - rewrite (Hφ r c Hr Hc). by apply list_insert_id.
  - apply list_insert_ge. by apply lookup_ge_None.
Qed.

Lemma cell_at_Some (r : row) i c : r !! i = Some c → cell_at i r = c.
Proof. unfold cell_at. by intros ->. Qed.

Lemma fillna_NA c : fillna NA c = c.
Proof. by destruct c. Qed.

Lemma isna_false c : c ≠ NA → isna c = false.
Proof. by destruct c. Qed.

Lemma fillna_present v c : c ≠ NA → fillna v c = c.
Proof. by destruct c. Qed.

(** A step changes nothing on rows it has fixed. *)
Lemma fixed_run_rstep s R : fixed s R → run_rstep s R = R.
Proof.
  destruct s as [i g|k i|i]; simpl; intros Hfix; apply upd_rows_id.
  - intros r c Hr Hc. simpl. rewrite (cell_at_Some r i c Hc). eauto.
  - intros r c Hr Hc. destruct (Hfix r c Hr Hc) as [H1 H2].
    unfold group_fill_value. rewrite (cell_at_Some r i c Hc).
    destruct (decide (cell_at k r = NA)) as [Hk|Hk].
    { rewrite Hk. simpl. symmetry. by apply H1. }
    rewrite (isna_false _ Hk).
    destruct (decide (c = NA)) as [->|Hne]; [|by rewrite fillna_present].
    simpl. apply series_median_NA.
    intros c' (r' & -> & [Hsame Hr']%list_elem_of_filter)%list_elem_of_fmap.
    by apply H2.
  - intros r c Hr Hc. unfold all_fill_value. rewrite (cell_at_Some r i c Hc).
    destruct (decide (c = NA)) as [->|Hne]; [|by rewrite fillna_present].
    simpl. apply series_median_NA.
    intros c' (r' & -> & Hr')%list_elem_of_fmap. by apply (Hfix r NA).
Qed.

(** *** Dropping duplicates *)

Section dedup.
Context {A : Type} `{EqDecision A}.
Implicit Types seen l : list A.

Lemma dedup_from_elem seen l x :
  x ∈ dedup_from seen l ↔ x ∈ l ∧ x ∉ seen.
Proof.
  revert seen. induction l as [|y l IH]; intros seen; simpl.
  - rewrite !elem_of_nil. tauto.
  - case_decide as Hy.
    + rewrite IH, elem_of_cons. split; [tauto|].
      intros [[->|?] ?]; tauto.
    + rewrite !elem_of_cons, IH, not_elem_of_cons. split.
      * intros [->|[? [? ?]]]; tauto.
      * intros [[->|?] ?]; [tauto|].
        destruct (decide (x = y)); tauto.
Qed.

Lemma dedup_from_subseteq seen l : dedup_from seen l ⊆ l.
Proof. intros x Hx. by apply dedup_from_elem in Hx as [? _]. Qed.

Lemma dedup_from_NoDup seen l : NoDup (dedup_from seen l).
Proof.
  revert seen. induction l as [|y l IH]; intros seen; simpl.
  - constructor.
  - case_decide; [apply IH|]. constructor; [|apply IH].
    rewrite dedup_from_elem, not_elem_of_cons. tauto.
Qed.

Lemma dedup_from_id seen l :
  NoDup l → (∀ x, x ∈ l → x ∉ seen) → dedup_from seen l = l.
Proof.
  revert seen. induction l as [|y l IH]; intros seen Hnd Hseen; simpl; [done|].
  apply NoDup_cons in Hnd as [Hy Hnd].
  rewrite decide_False by (apply Hseen; by left).
  f_equal. apply IH; [done|]. intros x Hx.
  rewrite not_elem_of_cons. split; [by intros ->|].
  apply Hseen. by right.
Qed.

Lemma dedup_from_idem l : dedup_from [] (dedup_from [] l) = dedup_from [] l.
Proof.
  apply dedup_from_id; [apply dedup_from_NoDup|].
  intros x _. apply not_elem_of_nil.
Qed.
End dedup.

(** *** A sequence of steps is idempotent once duplicates are dropped *)

(** [g] leaves numeric cells alone. *)
Definition numeric_fix (g : cell → cell) : Prop :=
  g NA = NA ∧ ∀ q, g (Num q) = Num q.

Definition self_ok (s : rstep) : Prop :=
  match s with
  | CellStep _ g => ∀ c, g (g c) = g c
  | GroupFill k i => k ≠ i
  | AllFill _ => True
  end.

(** A later step [s'] does not undo what [s] fixed: it writes a column
    [s] does not read, or it fills the numeric column [s] produced. *)
Definition later_ok (s s' : rstep) : Prop :=
  target s' ∉ sources s ∨
  match s, s' with
  | CellStep i g, GroupFill _ i' | CellStep i g, AllFill i' => i = i' ∧ numeric_fix g
  | _, _ => False
  end.

Fixpoint ok_steps (ss : list rstep) : Prop :=
  match ss with
  | [] => True
  | s :: ss' => self_ok s ∧ Forall (later_ok s) ss' ∧ ok_steps ss'
  end.

Lemma upd_rows_elem i φ R r' :
  r' ∈ upd_rows i φ R ↔ ∃ r, r' = <[i := φ r]> r ∧ r ∈ R.
Proof. unfold upd_rows. apply list_elem_of_fmap. Qed.

Lemma lookup_insert_same_Some (r : row) i v c :
  <[i := v]> r !! i = Some c → c = v.
Proof.
  intros Hc. assert (i < length r)%nat as Hi.
  { apply lookup_lt_Some in Hc. by rewrite length_insert in Hc. }
  rewrite list_lookup_insert_eq in Hc by done. congruence.
Qed.

Lemma cell_at_insert_ne (r : row) i j v : i ≠ j → cell_at j (<[i := v]> r) = cell_at j r.
Proof. intros Hij. unfold cell_at. by rewrite list_lookup_insert_ne. Qed.

Lemma cell_at_insert_cases (r : row) i v :
  cell_at i (<[i := v]> r) = v ∨ cell_at i (<[i := v]> r) = NA.
Proof.
  unfold cell_at. destruct (decide (i < length r)%nat).
  - left. by rewrite list_lookup_insert_eq.
  - right. rewrite list_insert_ge by lia. rewrite lookup_ge_None_2; [done|lia].
Qed.

Lemma fillna_is_NA v c : fillna v c = NA → v = NA ∧ c = NA.
Proof. by destruct c. Qed.

Lemma fixed_established s R : self_ok s → fixed s (run_rstep s R).
Proof.
  destruct s as [i g|k i|i]; simpl.
  - intros Hg r' c (r & -> & Hr)%upd_rows_elem Hc.
    apply lookup_insert_same_Some in Hc as ->. apply Hg.
  - intros Hki r' c (r & -> & Hr)%upd_rows_elem Hc.
    apply lookup_insert_same_Some in Hc as ->.
    rewrite cell_at_insert_ne by done. split.
    + intros Hk. unfold group_fill_value. by rewrite Hk.
    + intros Hk HNA r'' (r0 & -> & Hr0)%upd_rows_elem.
      rewrite cell_at_insert_ne by done. intros Hsame.
      unfold group_fill_value in HNA. rewrite (isna_false _ Hk) in HNA.
      apply fillna_is_NA in HNA as [Hmed _].
      assert (cell_num (cell_at i r0) = None) as Hr0i.
      { apply (proj1 (series_median_NA _) Hmed), list_elem_of_fmap_2.
        by apply list_elem_of_filter. }
      destruct (cell_at_insert_cases r0 i (group_fill_value k i R r0)) as [->| ->];
        [|done].
      unfold group_fill_value. rewrite Hsame, (isna_false _ Hk), Hmed.
      by rewrite fillna_NA.
  - intros _ r' c (r & -> & Hr)%upd_rows_elem Hc.
    apply lookup_insert_same_Some in Hc as ->.
    intros HNA r'' (r0 & -> & Hr0)%upd_rows_elem.
    unfold all_fill_value in HNA. apply fillna_is_NA in HNA as [Hmed _].
    assert (cell_num (cell_at i r0) = None) as Hr0i.
    { apply (proj1 (series_median_NA _) Hmed). by apply list_elem_of_fmap_2. }
    destruct (cell_at_insert_cases r0 i (all_fill_value i R r0)) as [->| ->];
      [|done].
    unfold all_fill_value. by rewrite Hmed, fillna_NA.
Qed.

Lemma numeric_fix_fillna g (m c : cell) :
  numeric_fix g → (m = NA ∨ ∃ q, m = Num q) → g c = c → g (fillna m c) = fillna m c.
Proof.
  intros [HNA Hnum] Hm Hc. destruct c; simpl; try done.
  destruct Hm as [->|[q ->]]; [apply HNA|apply Hnum].
Qed.

Lemma fixed_preserved s s' R : later_ok s s' → fixed s R → fixed s (run_rstep s' R).
Proof.
  intros [Hdisj|Hfill] Hfix.
  { eapply fixed_covered; [|done]. by apply covered_run_rstep. }
  destruct s as [i g| |]; [|done..].
  destruct s' as [|k i'|i']; [done| |];
    destruct Hfill as [<- Hg]; simpl in *;
    intros r' c (r & -> & Hr)%upd_rows_elem Hc;
    pose proof (lookup_lt_Some _ _ _ Hc) as Hlt;
    rewrite length_insert in Hlt;
    apply lookup_insert_same_Some in Hc as ->;
    destruct (lookup_lt_is_Some_2 r i Hlt) as [c0 Hc0];
    pose proof (Hfix r c0 Hr Hc0) as Hgc.
  - unfold group_fill_value. rewrite (cell_at_Some _ _ _ Hc0).
    destruct (isna (cell_at k r)); [apply Hg|].
    apply numeric_fix_fillna; [done|apply series_median_numeric|done].
  - unfold all_fill_value. rewrite (cell_at_Some _ _ _ Hc0).
    apply numeric_fix_fillna; [done|apply series_median_numeric|done].
Qed.

Lemma fixed_run_rsteps s ss R :
  Forall (later_ok s) ss → fixed s R → fixed s (run_rsteps ss R).
Proof.
  intros Hss. revert R. induction Hss as [|s' ss Hs' _ IH]; intros R Hfix; [done|].
  simpl. apply IH. by apply fixed_preserved.
Qed.

Lemma run_rsteps_all_fixed ss R :
  ok_steps ss → Forall (λ s, fixed s (run_rsteps ss R)) ss.
Proof.
  revert R. induction ss as [|s ss IH]; intros R; [constructor|].
  intros (Hs & Hlater & Hss). constructor; simpl.
  - apply fixed_run_rsteps; [done|]. by apply fixed_established.
  - by apply IH.
Qed.

Lemma run_rsteps_fixed_id ss R :
  Forall (λ s, fixed s R) ss → run_rsteps ss R = R.
Proof.
  induction 1 as [|s ss Hs _ IH]; [done|]. simpl.
  by rewrite (fixed_run_rstep s R Hs).
Qed.

Lemma fixed_dedup s R : fixed s R → fixed s (dedup_from [] R).
Proof.
  apply fixed_covered, covered_subseteq, dedup_from_subseteq.
Qed.

Theorem rsteps_idempotent ss R :
  ok_steps ss →
  dedup_from [] (run_rsteps ss (dedup_from [] (run_rsteps ss R)))
  = dedup_from [] (run_rsteps ss R).
Proof.
  intros Hok. rewrite run_rsteps_fixed_id; [apply dedup_from_idem|].
  eapply Forall_impl; [by apply run_rsteps_all_fixed|].
  intros s. apply fixed_dedup.
Qed.

(** *** What a median fill leaves in the filled column *)




Lemma cell_at_insert_eq (r : row) i v : (i < length r)%nat → cell_at i (<[i := v]> r) = v.
Proof. intros Hi. unfold cell_at. by rewrite list_lookup_insert_eq. Qed.


Section cell_lemmas.
Context `{Pandas}.

Lemma to_datetime_cell_idem c : to_datetime_cell (to_datetime_cell c) = to_datetime_cell c.
Proof.
  destruct c as [|q|s|t]; simpl; try done.
  - by destruct (datetime_of_number q).
  - by destruct (parse_datetime s).
Qed.

Lemma to_numeric_cell_idem c : to_numeric_cell (to_numeric_cell c) = to_numeric_cell c.
Proof. destruct c as [|q|s|t]; simpl; try done. by destruct (parse_number s). Qed.

Lemma to_numeric_cell_numeric_fix : numeric_fix to_numeric_cell.
Proof. by split. Qed.

Lemma standardize_cell_idem c : standardize_cell (standardize_cell c) = standardize_cell c.
Proof. unfold standardize_cell. simpl. by rewrite standardize_fixed. Qed.

Lemma fill_zero_idem c :
  fillna (Num 0%Qc) (to_numeric_cell (fillna (Num 0%Qc) (to_numeric_cell c)))
  = fillna (Num 0%Qc) (to_numeric_cell c).
Proof. destruct c as [|q|s|t]; simpl; try done. by destruct (parse_number s). Qed.
End cell_lemmas.

Section fill_results.
Context `{Pandas}.






End fill_results.



(** *** Steps named by column labels *)

Inductive nstep :=
  | NCell (c : string) (g : cell → cell)
  | NGroupFill (k c : string)
  | NAllFill (c : string).

Definition nstep_frame (s : nstep) : frame → result frame :=
  match s with
  | NCell c g => assign c (fmap g)
  | NGroupFill k c => assign2 k c groupby_transform_fillna_median
  | NAllFill c => assign2 c c (λ target s, fillna (series_median s) <$> target)
  end.

Definition resolve (f : frame) (s : nstep) : result rstep :=
  match s with
  | NCell c g => i ← col_index c f; Ok (CellStep i g)
  | NGroupFill k c => ik ← col_index k f; i ← col_index c f; Ok (GroupFill ik i)
  | NAllFill c => i ← col_index c f; Ok (AllFill i)
  end.

Fixpoint resolve_all (f : frame) (ns : list nstep) : result (list rstep) :=
  match ns with
  | [] => Ok []
  | s :: ns' => rs ← resolve f s; rss ← resolve_all f ns'; Ok (rs :: rss)
  end.

Definition ntarget (s : nstep) : string :=
  match s with
  | NCell c _ | NGroupFill _ c | NAllFill c => c
  end.

Definition nsources (s : nstep) : list string :=
  match s with
  | NCell c _ | NAllFill c => [c]
  | NGroupFill k c => [k; c]
  end.

Definition nself_ok (s : nstep) : Prop :=
  match s with
  | NCell _ g => ∀ c, g (g c) = g c
  | NGroupFill k c => k ≠ c
  | NAllFill _ => True
  end.

Definition nlater_ok (s s' : nstep) : Prop :=
  ntarget s' ∉ nsources s ∨
  match s, s' with
  | NCell c g, NGroupFill _ c' | NCell c g, NAllFill c' => c = c' ∧ numeric_fix g
  | _, _ => False
  end.

Fixpoint nok_steps (ns : list nstep) : Prop :=
  match ns with
  | [] => True
  | s :: ns' => nself_ok s ∧ Forall (nlater_ok s) ns' ∧ nok_steps ns'
  end.

(** The frame-level reading of a cleaner: rename, the named steps, drop
    duplicates. *)
Definition cleaner_steps (m : list (string * string)) (ns : list nstep)
    : list (frame → result frame) :=
  (λ f, Ok (rename m f)) :: (nstep_frame <$> ns).

Definition clean_frame (m : list (string * string)) (ns : list nstep)
    (f : frame) : result frame :=
  f1 ← pipeline (cleaner_steps m ns) f; Ok (drop_duplicates f1).

Lemma nstep_frame_resolve s f :
  nstep_frame s f =
  (rs ← resolve f s; Ok (Frame (columns f) (run_rstep rs (rows f)))).
Proof.
  destruct s as [c g|k c|c]; simpl.
  - destruct (col_index c f) as [i|e] eqn:Hi; simpl.
    + by apply assign_cell.
    + by apply assign_Raise.
  - destruct (col_index k f) as [ik|e] eqn:Hk; simpl.
    + destruct (col_index c f) as [i|e] eqn:Hi; simpl.
      * by apply assign2_group.
      * unfold assign2, get_column. by rewrite Hk, Hi.
    + unfold assign2, get_column. by rewrite Hk.
  - destruct (col_index c f) as [i|e] eqn:Hi; simpl.
    + by apply assign2_all.
    + unfold assign2, get_column. by rewrite Hi.
Qed.

Lemma resolve_columns f f' s : columns f = columns f' → resolve f s = resolve f' s.
Proof.
  intros Hc. destruct s; simpl;
    repeat rewrite (col_index_columns _ f f' Hc); done.
Qed.

Lemma resolve_all_columns f f' ns :
  columns f = columns f' → resolve_all f ns = resolve_all f' ns.
Proof.
  intros Hc. induction ns as [|s ns IH]; simpl; [done|].
  by rewrite (resolve_columns f f' s Hc), IH.
Qed.

Lemma pipeline_nsteps ns f :
  pipeline (nstep_frame <$> ns) f =
  (rss ← resolve_all f ns; Ok (Frame (columns f) (run_rsteps rss (rows f)))).
Proof.
  revert f. induction ns as [|s ns IH]; intros f; csimpl.
  - by destruct f.
  - rewrite nstep_frame_resolve.
    destruct (resolve f s) as [rs|e]; simpl; [|done].
    rewrite IH. simpl.
    rewrite <-(resolve_all_columns f) by done.
    by destruct (resolve_all f ns).
Qed.

Lemma resolve_target f s rs :
  resolve f s = Ok rs → columns f !! target rs = Some (ntarget s).
Proof.
  destruct s as [c g|k c|c]; simpl.
  - destruct (col_index c f) as [i|] eqn:Hi; simpl; [|done].
    intros [= <-]. by apply col_index_lookup.
  - destruct (col_index k f) as [ik|] eqn:Hk; simpl; [|done].
    destruct (col_index c f) as [i|] eqn:Hi; simpl; [|done].
    intros [= <-]. by apply col_index_lookup.
  - destruct (col_index c f) as [i|] eqn:Hi; simpl; [|done].
    intros [= <-]. by apply col_index_lookup.
Qed.

Lemma resolve_sources f s rs i :
  resolve f s = Ok rs → i ∈ sources rs →
  ∃ c, c ∈ nsources s ∧ columns f !! i = Some c.
Proof.
  destruct s as [c g|k c|c]; simpl.
  - destruct (col_index c f) as [j|] eqn:Hj; simpl; [|done].
    intros [= <-]. simpl. intros ->%list_elem_of_singleton.
    exists c. split; [by left|by apply col_index_lookup].
  - destruct (col_index k f) as [ik|] eqn:Hk; simpl; [|done].
    destruct (col_index c f) as [j|] eqn:Hj; simpl; [|done].
    intros [= <-]. simpl. intros [->|Hi%list_elem_of_singleton]%elem_of_cons;
      [|subst i].
    + exists k. split; [by left|by apply col_index_lookup].
    + exists c. split; [right; by left|by apply col_index_lookup].
  - destruct (col_index c f) as [j|] eqn:Hj; simpl; [|done].
    intros [= <-]. simpl. intros ->%list_elem_of_singleton.
    exists c. split; [by left|by apply col_index_lookup].
Qed.

Lemma resolve_self_ok f s rs : resolve f s = Ok rs → nself_ok s → self_ok rs.
Proof.
  destruct s as [c g|k c|c]; simpl.
  - destruct (col_index c f); simpl; [|done]. by intros [= <-].
  - destruct (col_index k f) as [ik|] eqn:Hk; simpl; [|done].
    destruct (col_index c f) as [i|] eqn:Hi; simpl; [|done].
    intros [= <-] Hkc. simpl. by eapply col_index_ne.
  - destruct (col_index c f); simpl; [|done]. by intros [= <-].
Qed.

Lemma resolve_later_ok f s s' rs rs' :
  resolve f s = Ok rs → resolve f s' = Ok rs' → nlater_ok s s' → later_ok rs rs'.
Proof.
  intros Hs Hs' [Hdisj|Hfill].
  - left. intros Hin.
    destruct (resolve_sources f s rs _ Hs Hin) as (c & Hc & Hlook).
    rewrite (resolve_target f s' rs' Hs') in Hlook.
    injection Hlook as <-. by apply Hdisj.
  - right. destruct s as [c g| |]; [|done..].
    simpl in Hs. destruct (col_index c f) as [i|] eqn:Hi; [|done].
    injection Hs as <-.
    destruct s' as [|k c'|c']; [done| |]; destruct Hfill as [<- Hg]; simpl in Hs'.
    + destruct (col_index k f); simpl in Hs'; [|done].
      rewrite Hi in Hs'. by injection Hs' as <-.
    + rewrite Hi in Hs'. by injection Hs' as <-.
Qed.

Lemma resolve_all_ok f ns rss :
  resolve_all f ns = Ok rss → nok_steps ns → ok_steps rss.
Proof.
  revert rss. induction ns as [|s ns IH]; intros rss; simpl.
  - by intros [= <-].
  - destruct (resolve f s) as [rs|] eqn:Hs; simpl; [|done].
    destruct (resolve_all f ns) as [rss'|] eqn:Hns; simpl; [|done].
    intros [= <-] (Hself & Hlater & Hok). simpl. split_and!.
    + by eapply resolve_self_ok.
    + clear IH Hok. revert rss' Hns.
      induction Hlater as [|s' ns Hs' _ IH]; intros rss'; simpl.
      * intros [= <-]. constructor.
      * destruct (resolve f s') as [rs'|] eqn:Hrs'; simpl; [|done].
        destruct (resolve_all f ns) as [rss''|]; simpl; [|done].
        intros [= <-]. constructor; [by eapply resolve_later_ok|by apply IH].
    + by apply IH.
Qed.

(** When no value of the rename map is one of its keys, renaming twice
    is renaming once. *)
Definition rename_map_ok (m : list (string * string)) : Prop :=
  Forall (λ kv, (kv.2) ∉ (m.*1)) m.

Lemma rename_label_absent m c : c ∉ m.*1 → rename_label m c = c.
Proof.
  induction m as [|[k v] m IH]; csimpl; [done|].
  intros [Hk Hc]%not_elem_of_cons. rewrite decide_False by done. by apply IH.
Qed.

Lemma rename_label_cases m c :
  ((c ∉ m.*1) ∧ rename_label m c = c) ∨ ∃ k, (k, rename_label m c) ∈ m.
Proof.
  induction m as [|[k v] m IH]; csimpl.
  - left. split; [apply not_elem_of_nil|done].
  - case_decide as Hk.
    + right. exists k. by left.
    + destruct IH as [[Hc Hr]|[k' Hk']].
      * left. rewrite not_elem_of_cons. by split_and!.
      * right. exists k'. by right.
Qed.

Lemma rename_label_idem m c :
  rename_map_ok m → rename_label m (rename_label m c) = rename_label m c.
Proof.
  intros Hok. destruct (rename_label_cases m c) as [[Hc ->]|[k Hk]].
  - by apply rename_label_absent.
  - apply rename_label_absent.
    unfold rename_map_ok in Hok. rewrite Forall_forall in Hok.
    apply (Hok _ Hk).
Qed.

Lemma rename_idem m f : rename_map_ok m → rename m (rename m f) = rename m f.
Proof.
  intros Hok. unfold rename. simpl. f_equal.
  rewrite <-list_fmap_compose. apply list_fmap_ext.
  intros _ c _. simpl. by apply rename_label_idem.
Qed.

Lemma clean_frame_rows m ns f f' :
  clean_frame m ns f = Ok f' →
  ∃ rss, resolve_all (rename m f) ns = Ok rss ∧
    f' = Frame (rename_label m <$> columns f)
           (dedup_from [] (run_rsteps rss (rows f))).
Proof.
  unfold clean_frame. simpl. rewrite pipeline_nsteps.
  destruct (resolve_all (rename m f) ns) as [rss|]; simpl; [|done].
  intros [= <-]. by exists rss.
Qed.

(** A cleaner built from good steps leaves its own output unchanged. *)
Theorem clean_frame_idempotent m ns f f' :
  rename_map_ok m → nok_steps ns →
  clean_frame m ns f = Ok f' → clean_frame m ns f' = Ok f'.
Proof.
  intros Hm Hns Hclean.
  destruct (clean_frame_rows m ns f f' Hclean) as (rss & Hrss & ->).
  unfold clean_frame. simpl. rewrite pipeline_nsteps.
  assert (rename m (Frame (rename_label m <$> columns f)
            (dedup_from [] (run_rsteps rss (rows f))))
          = Frame (rename_label m <$> columns f)
              (dedup_from [] (run_rsteps rss (rows f)))) as ->.
  { change (Frame (rename_label m <$> columns f) ?R)
      with (rename m (Frame (columns f) R)). by apply rename_idem. }
  erewrite (resolve_all_columns _ (rename m f)) by done.
  rewrite Hrss. simpl. unfold drop_duplicates. simpl. do 2 f_equal.
  apply rsteps_idempotent. by eapply resolve_all_ok.
Qed.

(** A frame is rectangular: every row has one cell per column. *)
Definition rectangular (f : frame) : Prop :=
  Forall (λ r : row, length r = length (columns f)) (rows f).

Global Instance rectangular_dec f : Decision (rectangular f).
Proof. unfold rectangular. apply _. Defined.

(** *** The five cleaners as named steps *)

(** What a cleaner returns, and what it leaves in the store: on success
    two new objects (the copy it worked on and the frame it returns),
    on an exception the copy alone. *)
Definition cleaned (w : world) (pure : result frame) (res : result loc * world) : Prop :=
  match pure with
  | Ok f' =>
      ∃ l1 l2 f1, (l1 ∉ dom (heap w)) ∧ (l2 ∉ dom (heap w)) ∧ l1 ≠ l2 ∧
        res = (Ok l2, upd (upd w l1 f1) l2 f')
  | Raise e =>
      ∃ l1 f1, (l1 ∉ dom (heap w)) ∧ res = (Raise e, upd w l1 f1)
  end.

Lemma exec_cleaned steps w f :
  let l := fresh (dom (heap w)) in
  cleaned w (f1 ← pipeline steps f; Ok (drop_duplicates f1))
    (exec l steps (df_drop_duplicates l) f (upd w l f)).
Proof.
  intros l.
  pose proof (exec_pipeline l steps (df_drop_duplicates l) f (upd w l f)
                (upd_lookup _ _ _)) as Hexec.
  assert (l ∉ dom (heap w)) as Hl by apply is_fresh.
  destruct (pipeline steps f) as [f1|e]; simpl.
  - rewrite Hexec, upd_upd.
    set (l2 := fresh (dom (heap (upd w l f1)))).
    assert ((l2 ∉ dom (heap w)) ∧ l2 ≠ l) as [Hl2 Hne].
    { pose proof (is_fresh (dom (heap (upd w l f1)))) as Hfr. fold l2 in Hfr.
      unfold upd in Hfr. cbn [heap] in Hfr.
      rewrite dom_insert_L, not_elem_of_union, not_elem_of_singleton in Hfr.
      tauto. }
    exists l, l2, f1.
    split; [done|]. split; [done|]. split; [done|].
    unfold df_drop_duplicates. by rewrite (read_frame_run _ f1) by apply upd_lookup.
  - destruct Hexec as [f' ->]. exists l, f'. by rewrite upd_upd.
Qed.

Lemma cleaned_heap w pure res :
  cleaned w pure res →
  heap w ⊆ heap res.2 ∧ files res.2 = files w ∧ reports res.2 = reports w ∧
  stdout res.2 = stdout w.
Proof.
  unfold cleaned. destruct pure as [f'|e].
  - intros (l1 & l2 & f1 & Hl1 & Hl2 & Hne & ->). simpl. split; [|done].
    etrans; [|apply insert_subseteq; rewrite lookup_insert_ne by done;
              by apply not_elem_of_dom].
    apply insert_subseteq. by apply not_elem_of_dom.
  - intros (l1 & f1 & Hl1 & ->). simpl. split; [|done].
    apply insert_subseteq. by apply not_elem_of_dom.
Qed.

Lemma cleaned_Ok w pure out w' :
  cleaned w pure (Ok out, w') →
  ∃ f', pure = Ok f' ∧ heap w' !! out = Some f' ∧ heap w !! out = None.
Proof.
  unfold cleaned. destruct pure as [f'|e].
  - intros (l1 & l2 & f1 & Hl1 & Hl2 & Hne & [= -> ->]). exists f'.
    split_and!; [done|apply upd_lookup|by apply not_elem_of_dom].
  - by intros (l1 & f1 & Hl1 & [=]).
Qed.

Lemma cleaned_run w pure res f' :
  cleaned w pure res → pure = Ok f' →
  ∃ out w', res = (Ok out, w') ∧ heap w' !! out = Some f'.
Proof.
  intros Hc ->. destruct Hc as (l1 & l2 & f1 & _ & _ & _ & ->).
  eexists _, _. split; [done|]. apply upd_lookup.
Qed.

Section cleaning_steps.
Context `{Pandas}.
Import data_cleaning.

Definition shipments_nsteps : list nstep :=
  [ NCell "ship_date" to_datetime_cell;
    NCell "delivery_date" to_datetime_cell;
    NCell "weight" to_numeric_cell;
    NCell "cost" to_numeric_cell;
    NGroupFill "route_id" "weight";
    NGroupFill "route_id" "cost";
    NCell "sender" standardize_cell;
    NCell "recipient" standardize_cell;
    NCell "status" standardize_cell ].

Definition routes_nsteps : list nstep :=
  [ NCell "distance" to_numeric_cell;
    NCell "avg_time" to_numeric_cell;
    NCell "avg_cost" to_numeric_cell;
    NCell "origin" standardize_cell;
    NCell "destination" standardize_cell ].

Definition warehouses_nsteps : list nstep :=
  [ NCell "region" standardize_cell;
    NCell "capacity" to_numeric_cell;
    NCell "current_fill" to_numeric_cell;
    NAllFill "current_fill" ].

Definition carriers_nsteps : list nstep :=
  [ NCell "name" standardize_cell;
    NCell "rating" to_numeric_cell;
    NCell "fleet_size" to_numeric_cell;
    NCell "reliability" to_numeric_cell ].

Definition delays_nsteps : list nstep :=
  [ NCell "date" to_datetime_cell;
    NCell "delay_hours" (λ c, fillna (Num 0%Qc) (to_numeric_cell c));
    NCell "reason" standardize_cell ].

Definition clean_shipments_frame : frame → result frame :=
  clean_frame shipments_rename_map shipments_nsteps.
Definition clean_routes_frame : frame → result frame :=
  clean_frame routes_rename_map routes_nsteps.
Definition clean_warehouses_frame : frame → result frame :=
  clean_frame warehouses_rename_map warehouses_nsteps.
Definition clean_carriers_frame : frame → result frame :=
  clean_frame carriers_rename_map carriers_nsteps.
Definition clean_delays_frame : frame → result frame :=
  clean_frame delays_rename_map delays_nsteps.

Ltac cleaner_exec f Hf :=
  rewrite (copy_then _ _ f) by exact Hf;
  unfold _fill_numeric_by_group_median;
  run_cleaner.

Lemma clean_shipments_exec w df0 f :
  heap w !! df0 = Some f →
  clean_shipments df0 w =
  exec (fresh (dom (heap w)))
    [ λ f, Ok (rename shipments_rename_map f);
      assign "ship_date" to_datetime_coerce;
      assign "delivery_date" to_datetime_coerce;
      assign "weight" to_numeric_coerce;
      assign "cost" to_numeric_coerce;
      assign2 "route_id" "weight" groupby_transform_fillna_median;
      assign2 "route_id" "cost" groupby_transform_fillna_median;
      assign "sender" _standardize_strings;
      assign "recipient" _standardize_strings;
      assign "status" _standardize_strings ]
    (df_drop_duplicates (fresh (dom (heap w)))) f (upd w (fresh (dom (heap w))) f).
Proof. intros Hf. unfold clean_shipments. cleaner_exec f Hf. Qed.

Lemma clean_routes_exec w df0 f :
  heap w !! df0 = Some f →
  clean_routes df0 w =
  exec (fresh (dom (heap w)))
    [ λ f, Ok (rename routes_rename_map f);
      assign "distance" to_numeric_coerce;
      assign "avg_time" to_numeric_coerce;
      assign "avg_cost" to_numeric_coerce;
      assign "origin" _standardize_strings;
      assign "destination" _standardize_strings ]
    (df_drop_duplicates (fresh (dom (heap w)))) f (upd w (fresh (dom (heap w))) f).
Proof. intros Hf. unfold clean_routes. cleaner_exec f Hf. Qed.

Lemma clean_warehouses_exec w df0 f :
  heap w !! df0 = Some f →
  clean_warehouses df0 w =
  exec (fresh (dom (heap w)))
    [ λ f, Ok (rename warehouses_rename_map f);
      assign "region" _standardize_strings;
      assign "capacity" to_numeric_coerce;
      assign "current_fill" to_numeric_coerce;
      assign2 "current_fill" "current_fill"
        (λ target s, fillna (series_median s) <$> target) ]
    (df_drop_duplicates (fresh (dom (heap w)))) f (upd w (fresh (dom (heap w))) f).
Proof. intros Hf. unfold clean_warehouses. cleaner_exec f Hf. Qed.

Lemma clean_carriers_exec w df0 f :
  heap w !! df0 = Some f →
  clean_carriers df0 w =
  exec (fresh (dom (heap w)))
    [ λ f, Ok (rename carriers_rename_map f);
      assign "name" _standardize_strings;
      assign "rating" to_numeric_coerce;
      assign "fleet_size" to_numeric_coerce;
      assign "reliability" to_numeric_coerce ]
    (df_drop_duplicates (fresh (dom (heap w)))) f (upd w (fresh (dom (heap w))) f).
Proof. intros Hf. unfold clean_carriers. cleaner_exec f Hf. Qed.

Lemma clean_delays_exec w df0 f :
  heap w !! df0 = Some f →
  clean_delays df0 w =
  exec (fresh (dom (heap w)))
    [ λ f, Ok (rename delays_rename_map f);
      assign "date" to_datetime_coerce;
      assign "delay_hours" (λ s, fillna (Num 0%Qc) <$> to_numeric_coerce s);
      assign "reason" _standardize_strings ]
    (df_drop_duplicates (fresh (dom (heap w)))) f (upd w (fresh (dom (heap w))) f).
Proof. intros Hf. unfold clean_delays. cleaner_exec f Hf. Qed.

Lemma assign_ext c h h' f : (∀ s, h s = h' s) → assign c h f = assign c h' f.
Proof.
  intros Hh. unfold assign. destruct (get_column c f); simpl; [|done].
  by rewrite Hh.
Qed.

Lemma exec_ext {A} df steps steps' (k : st A) f w :
  Forall2 (λ g g', ∀ f, g f = g' f) steps steps' →
  exec df steps k f w = exec df steps' k f w.
Proof.
  intros Hs. revert f w. induction Hs as [|g g' steps steps' Hg _ IH]; intros f w; simpl.
  - done.
  - rewrite Hg. destruct (g' f); [apply IH|done].
Qed.

(** Each cleaner, run on the object at [df0], is its frame-level
    reading. *)
Lemma clean_shipments_cleaned w df0 f :
  heap w !! df0 = Some f →
  cleaned w (clean_shipments_frame f) (clean_shipments df0 w).
Proof. intros Hf. rewrite (clean_shipments_exec w df0 f Hf). apply exec_cleaned. Qed.

Lemma clean_routes_cleaned w df0 f :
  heap w !! df0 = Some f →
  cleaned w (clean_routes_frame f) (clean_routes df0 w).
Proof. intros Hf. rewrite (clean_routes_exec w df0 f Hf). apply exec_cleaned. Qed.

Lemma clean_warehouses_cleaned w df0 f :
  heap w !! df0 = Some f →
  cleaned w (clean_warehouses_frame f) (clean_warehouses df0 w).
Proof. intros Hf. rewrite (clean_warehouses_exec w df0 f Hf). apply exec_cleaned. Qed.

Lemma clean_carriers_cleaned w df0 f :
  heap w !! df0 = Some f →
  cleaned w (clean_carriers_frame f) (clean_carriers df0 w).
Proof. intros Hf. rewrite (clean_carriers_exec w df0 f Hf). apply exec_cleaned. Qed.

Lemma clean_delays_cleaned w df0 f :
  heap w !! df0 = Some f →
  cleaned w (clean_delays_frame f) (clean_delays df0 w).
Proof.
  intros Hf. rewrite (clean_delays_exec w df0 f Hf).
  erewrite exec_ext; [apply exec_cleaned|].
  repeat constructor; try done.
  intros f'. apply assign_ext. intros s. unfold to_numeric_coerce.
  by rewrite <-list_fmap_compose.
Qed.

Ltac solve_nok :=
  repeat match goal with
  | |- nok_steps _ => simpl
  | |- _ ∧ _ => split
  | |- True => exact I
  | |- Forall _ _ => constructor
  | |- nlater_ok _ _ => first
      [ left; simpl; by apply (bool_decide_unpack _)
      | right; split; [reflexivity|apply to_numeric_cell_numeric_fix] ]
  | |- nself_ok _ => simpl
  | |- ∀ c, to_datetime_cell _ = _ => apply to_datetime_cell_idem
  | |- ∀ c, to_numeric_cell _ = _ => apply to_numeric_cell_idem
  | |- ∀ c, standardize_cell _ = _ => apply standardize_cell_idem
  | |- ∀ c, fillna _ _ = _ => apply fill_zero_idem
  | |- _ ≠ _ => by apply (bool_decide_unpack _)
  end.

Lemma shipments_nsteps_ok : nok_steps shipments_nsteps.
Proof. unfold shipments_nsteps. solve_nok. Qed.

Lemma routes_nsteps_ok : nok_steps routes_nsteps.
Proof. unfold routes_nsteps. solve_nok. Qed.

Lemma warehouses_nsteps_ok : nok_steps warehouses_nsteps.
Proof. unfold warehouses_nsteps. solve_nok. Qed.

Lemma carriers_nsteps_ok : nok_steps carriers_nsteps.
Proof. unfold carriers_nsteps. solve_nok. Qed.

Lemma delays_nsteps_ok : nok_steps delays_nsteps.
Proof. unfold delays_nsteps. solve_nok. Qed.

Lemma rename_maps_ok :
  rename_map_ok shipments_rename_map ∧ rename_map_ok routes_rename_map ∧
  rename_map_ok warehouses_rename_map ∧ rename_map_ok carriers_rename_map ∧
  rename_map_ok delays_rename_map.
Proof. repeat split; by apply (bool_decide_unpack _). Qed.

(** The five cleaners with their frame-level readings. *)
Definition cleaners : list ((loc → st loc) * (frame → result frame)) :=
  [ (clean_shipments, clean_shipments_frame);
    (clean_routes, clean_routes_frame);
    (clean_warehouses, clean_warehouses_frame);
    (clean_carriers, clean_carriers_frame);
    (clean_delays, clean_delays_frame) ].

Lemma cleaners_cleaned clean pure w df0 f :
  (clean, pure) ∈ cleaners → heap w !! df0 = Some f →
  cleaned w (pure f) (clean df0 w).
Proof.
  unfold cleaners. rewrite !elem_of_cons, elem_of_nil.
  intros [[= -> ->]|[[= -> ->]|[[= -> ->]|[[= -> ->]|[[= -> ->]|[]]]]]] Hf.
  - by apply clean_shipments_cleaned.
  - by apply clean_routes_cleaned.
  - by apply clean_warehouses_cleaned.
  - by apply clean_carriers_cleaned.
  - by apply clean_delays_cleaned.
Qed.

Lemma cleaners_pure_idempotent clean pure f f' :
  (clean, pure) ∈ cleaners → pure f = Ok f' → pure f' = Ok f'.
Proof.
  destruct rename_maps_ok as (Hs & Hr & Hw & Hc & Hd).
  unfold cleaners. rewrite !elem_of_cons, elem_of_nil.
  intros [[= -> ->]|[[= -> ->]|[[= -> ->]|[[= -> ->]|[[= -> ->]|[]]]]]].
  - apply clean_frame_idempotent; [done|apply shipments_nsteps_ok].
  - apply clean_frame_idempotent; [done|apply routes_nsteps_ok].
  - apply clean_frame_idempotent; [done|apply warehouses_nsteps_ok].
  - apply clean_frame_idempotent; [done|apply carriers_nsteps_ok].
  - apply clean_frame_idempotent; [done|apply delays_nsteps_ok].
Qed.

Lemma cleaner_is_listed clean :
  clean ∈ [clean_shipments; clean_routes; clean_warehouses; clean_carriers; clean_delays]
  → ∃ pure, (clean, pure) ∈ cleaners.
Proof.
  rewrite !elem_of_cons, elem_of_nil. unfold cleaners.
  intros [->|[->|[->|[->|[->|[]]]]]]; eexists.
  - by left.
  - right; by left.
  - do 2 right; by left.
  - do 3 right; by left.
  - do 4 right; by left.
Qed.




Lemma col_index_lt c f i : col_index c f = Ok i → (i < length (columns f))%nat.
Proof. intros Hi%col_index_lookup. by eapply lookup_lt_Some. Qed.







End cleaning_steps.

(** ** Claims about data_cleaning.py *)

Section cleaning_claims.
Context `{Pandas}.
Import data_cleaning.

(** C10.  A cleaner leaves its input DataFrame, and every other object
    that existed before the call, as it was: whether it returns or
    raises, the store afterwards contains the store before, and the
    frame it returns is a new object.  Files and output are untouched. *)
Theorem cleaners_leave_input_unchanged clean w df0 f :
  clean ∈ [clean_shipments; clean_routes; clean_warehouses; clean_carriers; clean_delays] →
  heap w !! df0 = Some f →
  heap (clean df0 w).2 !! df0 = Some f ∧
  heap w ⊆ heap (clean df0 w).2 ∧
  files (clean df0 w).2 = files w ∧
  reports (clean df0 w).2 = reports w ∧
  stdout (clean df0 w).2 = stdout w ∧
  ∀ out, (clean df0 w).1 = Ok out → heap w !! out = None.
Proof.
  intros [pure Hin]%cleaner_is_listed Hf.
  pose proof (cleaners_cleaned clean pure w df0 f Hin Hf) as Hcl.
  destruct (cleaned_heap _ _ _ Hcl) as (Hsub & Hfiles & Hrep & Hout).
  split; [by eapply lookup_weaken|]. do 4 (split; [done|]).
  intros out Hres. destruct (clean df0 w) as [r w'] eqn:Hrun.
  simpl in Hres. subst r.
  by destruct (cleaned_Ok _ _ _ _ Hcl) as (f' & _ & _ & Hnew).
Qed.

(** C3.  Applying a cleaner to a frame equal to one it returned gives
    that frame again. *)
Theorem cleaners_idempotent clean w df0 out w1 f1 w2 df :
  clean ∈ [clean_shipments; clean_routes; clean_warehouses; clean_carriers; clean_delays] →
  is_Some (heap w !! df0) →
  clean df0 w = (Ok out, w1) →
  heap w1 !! out = Some f1 →
  heap w2 !! df = Some f1 →
  ∃ out2 w3, clean df w2 = (Ok out2, w3) ∧ heap w3 !! out2 = Some f1.
Proof.
  intros [pure Hin]%cleaner_is_listed [f Hf] Hrun Hout Hdf.
  pose proof (cleaners_cleaned clean pure w df0 f Hin Hf) as Hcl.
  rewrite Hrun in Hcl.
  destruct (cleaned_Ok _ _ _ _ Hcl) as (f' & Hpure & Hf' & _).
  assert (f' = f1) as -> by congruence.
  pose proof (cleaners_pure_idempotent clean pure f f1 Hin Hpure) as Hidem.
  pose proof (cleaners_cleaned clean pure w2 df f1 Hin Hdf) as Hcl2.
  by apply (cleaned_run _ _ _ f1 Hcl2).
Qed.

End cleaning_claims.

(** *** Concrete runs *)


Definition lonely_warehouse : frame :=
  Frame ["region"; "capacity"; "current_fill"]
    [ [Str "North"; Num (qc 100 1); NA] ].

Definition two_shipments : frame :=
  Frame ["ship_date"; "delivery_date"; "weight"; "cost"; "sender"; "recipient";
         "route_id"; "status"]
    [ [Str "1"; Str "2"; Str "10"; NA; Str " Ann"; Str "BOB "; Num (qc 7 1); Str "Sent"];
      [Str "1"; Str "3"; NA; Str "4"; Str "Cy"; Str "Di"; Num (qc 7 1); Str "Late"] ].

Definition world_with (f : frame) : world := World {[1%positive := f]} ∅ ∅ [].


Definition two_shipments_clean : frame :=
  Frame ["ship_date"; "delivery_date"; "weight"; "cost"; "sender"; "recipient";
         "route_id"; "status"]
    [ [Time 1; Time 2; Num (qc 10 1); Num (qc 4 1); Str "ann"; Str "bob";
       Num (qc 7 1); Str "sent"];
      [Time 1; Time 3; Num (qc 10 1); Num (qc 4 1); Str "cy"; Str "di";
       Num (qc 7 1); Str "late"] ].

Definition first_run : result loc * world :=
  data_cleaning.clean_shipments (H := simple_pandas) 1%positive (world_with two_shipments).

Example first_run_result :
  ∃ out, first_run.1 = Ok out ∧ heap first_run.2 !! out = Some two_shipments_clean.
Proof.
  eexists. split; [vm_compute; reflexivity|].
  apply (bool_decide_unpack _). by vm_compute.
Qed.


(** Witness of C3: cleaning the cleaned [two_shipments] again. *)
Lemma cleaners_idempotent_witness :
  ∃ out2 w3,
    data_cleaning.clean_shipments (H := simple_pandas) 3%positive first_run.2 = (Ok out2, w3) ∧
    heap w3 !! out2 = Some two_shipments_clean.
Proof.
  apply (cleaners_idempotent (H := simple_pandas) data_cleaning.clean_shipments
           (world_with two_shipments) 1%positive 3%positive first_run.2
           two_shipments_clean first_run.2 3%positive).
  - by left.
  - by eexists.
  - by vm_compute.
  - apply (bool_decide_unpack _). by vm_compute.
  - apply (bool_decide_unpack _). by vm_compute.
Defined.

(** Witness of C10: [clean_shipments] on [two_shipments]. *)
Lemma cleaners_leave_input_unchanged_witness :
  heap first_run.2 !! 1%positive = Some two_shipments ∧
  heap (world_with two_shipments) ⊆ heap first_run.2 ∧
  files first_run.2 = files (world_with two_shipments) ∧
  reports first_run.2 = reports (world_with two_shipments) ∧
  stdout first_run.2 = stdout (world_with two_shipments) ∧
  ∀ out, first_run.1 = Ok out → heap (world_with two_shipments) !! out = None.
Proof.
  apply (cleaners_leave_input_unchanged (H := simple_pandas)
           data_cleaning.clean_shipments (world_with two_shipments) 1%positive
           two_shipments).
  - by left.
  - reflexivity.
Defined.

(** ** Rational arithmetic behind the numeric claims *)

Lemma this_plus x y : (this (x + y)%Qc == this x + this y)%Q.
Proof. unfold Qcplus. simpl. apply Qred_correct. Qed.
Lemma this_mult x y : (this (x * y)%Qc == this x * this y)%Q.
Proof. unfold Qcmult. simpl. apply Qred_correct. Qed.
Lemma this_opp x : (this (- x)%Qc == - this x)%Q.
Proof. unfold Qcopp. simpl. apply Qred_correct. Qed.
Lemma this_inv x : (this (/ x)%Qc == / this x)%Q.
Proof. unfold Qcinv. simpl. apply Qred_correct. Qed.
Lemma this_div x y : (this (x / y)%Qc == this x / this y)%Q.
Proof. unfold Qcdiv. rewrite this_mult, this_inv. reflexivity. Qed.
Lemma this_of_Z n : this (of_Z n) = inject_Z n.
Proof. reflexivity. Qed.
Lemma this_qc n d : (this (qc n d) == n # d)%Q.
Proof. unfold qc. simpl. apply Qred_correct. Qed.

Lemma int_part_spec (y : Qc) :
  (0 <= this y)%Q →
  (inject_Z (data_generator.int_part y) <= this y)%Q ∧
  (this y < inject_Z (data_generator.int_part y) + 1)%Q.
Proof.
  unfold data_generator.int_part. destruct (this y) as [a b]. simpl.
  unfold Qle, Qlt. simpl. intros Ha.
  assert (0 <= a) by lia.
  rewrite Z.quot_div_nonneg by lia.
  pose proof (Z.mul_div_le a (Z.pos b) ltac:(lia)).
  pose proof (Z.mul_succ_div_gt a (Z.pos b) ltac:(lia)).
  split; nia.
Qed.

Lemma round_half_even_spec (x : Qc) :
  (inject_Z (round_half_even x) - (1 # 2) <= this x)%Q ∧
  (this x <= inject_Z (round_half_even x) + (1 # 2))%Q.
Proof.
  unfold round_half_even. destruct (this x) as [a b]. simpl.
  pose proof (Z.div_mod a (Z.pos b) ltac:(lia)) as Hdm.
  pose proof (Z.mod_pos_bound a (Z.pos b) ltac:(lia)) as Hmod.
  set (q := a / Z.pos b) in *. set (r := a mod Z.pos b) in *.
  clearbody q r.
  assert (∀ n : Z, (2 * n - 1) * Z.pos b ≤ 2 * a ≤ (2 * n + 1) * Z.pos b →
            (inject_Z n - (1 # 2) <= a # b)%Q ∧ (a # b <= inject_Z n + (1 # 2))%Q) as Hgoal.
  { intros n Hn. unfold Qle, Qminus, Qplus, Qopp, inject_Z. simpl.
    change (Z.pos (1 * 2)) with 2. lia. }
  assert (0 < Z.pos b) as HB by lia.
  revert Hgoal Hdm Hmod HB. generalize (Z.pos b). intros B Hgoal -> Hmod HB.
  destruct (2 * r ?= B) eqn:Hc.
  - apply Z.compare_eq in Hc. destruct (Z.even q); apply Hgoal; clear Hgoal. all: nia.
  - rewrite Z.compare_lt_iff in Hc. apply Hgoal; clear Hgoal; nia.
  - rewrite Z.compare_gt_iff in Hc. apply Hgoal; clear Hgoal; nia.
Qed.

Lemma round_half_even_ge (n : Z) (x : Qc) :
  (inject_Z n - (1 # 2) < this x)%Q → n ≤ round_half_even x.
Proof.
  intros Hx. destruct (round_half_even_spec x) as [_ Hu].
  assert (inject_Z n < inject_Z (round_half_even x + 1))%Q as Hlt.
  { rewrite inject_Z_plus. change (inject_Z 1) with 1%Q. lra. }
  rewrite <-Zlt_Qlt in Hlt. lia.
Qed.

Lemma round_half_even_le (n : Z) (x : Qc) :
  (this x < inject_Z n + (1 # 2))%Q → round_half_even x ≤ n.
Proof.
  intros Hx. destruct (round_half_even_spec x) as [Hl _].
  assert (inject_Z (round_half_even x) < inject_Z (n + 1))%Q as Hlt.
  { rewrite inject_Z_plus. change (inject_Z 1) with 1%Q. lra. }
  rewrite <-Zlt_Qlt in Hlt. lia.
Qed.

Lemma this_round2 x : (this (round2 x) == inject_Z (round_half_even (qc 100 1 * x)) / 100)%Q.
Proof.
  unfold round2. rewrite this_div, this_of_Z, this_qc. reflexivity.
Qed.


(** ** Claims about src/data_generator.py *)

(** A generator whose draws are always the lower bound. *)
Definition lowest_draws : Random := {|
  rng := unit;
  randint lo hi g := (lo, g);
  uniform lo hi g := (lo, g)
|}.

Section generator_claims.
Context `{Random}.
Import data_generator.

Hypothesis randint_range : ∀ lo hi g, lo < hi → lo ≤ (randint lo hi g).1 < hi.
Hypothesis uniform_range :
  ∀ lo hi g, (lo < hi)%Qc → (lo ≤ (uniform lo hi g).1)%Qc ∧ ((uniform lo hi g).1 < hi)%Qc.





End generator_claims.

Lemma lowest_draws_randint_range lo hi (g : @rng lowest_draws) :
  lo < hi → lo ≤ (@randint lowest_draws lo hi g).1 < hi.
Proof. simpl. lia. Qed.

Lemma lowest_draws_uniform_range lo hi (g : @rng lowest_draws) :
  (lo < hi)%Qc →
  (lo ≤ (@uniform lowest_draws lo hi g).1)%Qc ∧ ((@uniform lowest_draws lo hi g).1 < hi)%Qc.
Proof. simpl. intros Hlt. split; [apply Qcle_refl|done]. Qed.


(** The lower end of the range is reached: a warehouse of capacity 1000
    with factor 0.85 has utilization rate exactly 0.85. *)
Example high_load_rate_can_be_085 :
  data_generator.utilization_rate <$>
    (@data_generator.generate_warehouses lowest_draws tt).1 !! 2%nat = Some (qc 85 100).
Proof. apply (bool_decide_unpack _). by vm_compute. Qed.

(** ** The derived delay column of the report scripts *)


(** *** Reading a column after writing one *)

Lemma find_index_app_r name cols :
  name ∉ cols → find_index name (cols ++ [name]) = Some (length cols).
Proof.
  induction cols as [|c cs IH]; simpl.
  - intros _. by rewrite decide_True.
  - intros [Hc Hn]%not_elem_of_cons. rewrite decide_False by done.
    by rewrite IH.
Qed.

Lemma find_index_app_l name c cols :
  name ∈ cols → find_index name (cols ++ [c]) = find_index name cols.
Proof.
  induction cols as [|d cs IH]; simpl.
  - by intros ?%elem_of_nil.
  - intros Hin. case_decide; [done|].
    apply elem_of_cons in Hin as [->|Hin]; [done|]. by rewrite IH.
Qed.

Lemma get_column_length c f s : get_column c f = Ok s → length s = length (rows f).
Proof.
  unfold get_column. destruct (col_index c f); simpl; [|done].
  intros [= <-]. by rewrite length_fmap.
Qed.

Lemma set_cells_length name v cols (r : row) :
  length (set_cells name v cols r) = length r.
Proof.
  revert r. induction cols as [|d cs IH]; intros [|x xs]; simpl; try done.
  by rewrite IH.
Qed.

Lemma rectangular_set_column c vs f :
  rectangular f → length vs = length (rows f) → rectangular (set_column c vs f).
Proof.
  unfold rectangular, set_column. intros Hrect Hlen.
  case_decide; simpl.
  - apply Forall_zip_with_snd with (P := λ _, True); [|by apply Forall_true].
    eapply Forall_impl; [exact Hrect|]. intros r Hr v _.
    simpl in *. by rewrite set_cells_length.
  - apply Forall_zip_with_snd with (P := λ _, True); [|by apply Forall_true].
    eapply Forall_impl; [exact Hrect|]. intros r Hr v _.
    cbn [columns]. simpl in Hr. rewrite !length_app. cbn [length]. lia.
Qed.

Lemma rows_set_column_length c vs f :
  length vs = length (rows f) → length (rows (set_column c vs f)) = length (rows f).
Proof.
  intros Hlen. unfold set_column. case_decide; simpl; rewrite length_zip_with; lia.
Qed.

Lemma get_set_column_new c vs f :
  rectangular f → length vs = length (rows f) → c ∉ columns f →
  get_column c (set_column c vs f) = Ok vs.
Proof.
  intros Hrect Hlen Hc. unfold set_column. rewrite decide_False by done.
  unfold get_column, col_index. simpl.
  rewrite find_index_app_r by done.
  rewrite drop_ge by (rewrite length_app; simpl; lia).
  rewrite decide_False by apply not_elem_of_nil. simpl. f_equal.
  unfold rectangular in Hrect. revert vs Hlen.
  induction Hrect as [|r R Hr _ IH]; intros [|v vs]; simpl; try done.
  intros [= Hlen]. csimpl. rewrite IH by done. f_equal.
  unfold cell_at. rewrite lookup_app_r by lia. by rewrite Hr, Nat.sub_diag.
Qed.

Lemma get_set_column_same c vs f s0 :
  get_column c f = Ok s0 → rectangular f → length vs = length (rows f) →
  get_column c (set_column c vs f) = Ok vs.
Proof.
  unfold get_column. destruct (col_index c f) as [i|] eqn:Hi; simpl; [|done].
  intros _ Hrect Hlen.
  rewrite (set_column_rows _ _ _ i Hi).
  erewrite col_index_columns by reflexivity. 
  assert (col_index c {| columns := columns f;
            rows := zip_with (λ r v, <[i:=v]> r) (rows f) vs |} = Ok i) as ->.
  { rewrite <-Hi. by apply col_index_columns. }
  simpl. f_equal.
  pose proof (col_index_lt _ _ _ Hi) as Hlt.
  unfold rectangular in Hrect. revert vs Hlen.
  induction Hrect as [|r R Hr _ IH]; intros [|v vs]; simpl; try done.
  intros [= Hlen]. csimpl. rewrite IH by done. f_equal.
  apply cell_at_insert_eq. lia.
Qed.

Lemma col_index_set_other c c' vs f :
  c ≠ c' → col_index c' (set_column c vs f) = col_index c' f.
Proof.
  intros Hne. unfold set_column. case_decide; [by apply col_index_columns|].
  unfold col_index. simpl.
  destruct (decide (c' ∈ columns f)) as [Hin|Hnin].
  - rewrite find_index_app_l by done.
    destruct (find_index c' (columns f)) as [i|] eqn:Hi; [|done].
    apply find_index_lookup in Hi as Hlook. apply lookup_lt_Some in Hlook.
    rewrite drop_app_le by lia.
    destruct (decide (c' ∈ drop (S i) (columns f))).
    + rewrite decide_True; [done|]. apply elem_of_app. by left.
    + rewrite decide_False; [done|]. rewrite elem_of_app, list_elem_of_singleton.
      intros [?|?]; done.
  - rewrite (proj2 (find_index_None _ _) Hnin).
    rewrite (proj2 (find_index_None _ _)); [done|].
    rewrite elem_of_app, list_elem_of_singleton. intros [?|?]; done.
Qed.

Lemma set_cells_other name v cols (r : row) i c' :
  cols !! i = Some c' → c' ≠ name → cell_at i (set_cells name v cols r) = cell_at i r.
Proof.
  revert r i. induction cols as [|d cs IH]; intros [|x xs] i; simpl; try done.
  destruct i as [|i]; simpl.
  - intros [= ->] Hne. by rewrite decide_False.
  - intros Hi Hne. unfold cell_at in *. simpl. by apply IH.
Qed.

Lemma get_set_column_other c c' vs f :
  c ≠ c' → rectangular f → length vs = length (rows f) →
  get_column c' (set_column c vs f) = get_column c' f.
Proof.
  intros Hne Hrect Hlen. unfold get_column.
  rewrite col_index_set_other by done.
  destruct (col_index c' f) as [i|] eqn:Hi; simpl; [|done]. f_equal.
  pose proof (col_index_lookup _ _ _ Hi) as Hlook.
  unfold set_column. unfold rectangular in Hrect.
  case_decide; simpl.
  - revert vs Hlen. induction Hrect as [|r R Hr _ IH]; intros [|v vs]; simpl; try done.
    intros [= Hlen]. csimpl. rewrite IH by done. f_equal.
    by apply (set_cells_other _ _ _ _ _ c').
  - revert vs Hlen. induction Hrect as [|r R Hr _ IH]; intros [|v vs]; simpl; try done.
    intros [= Hlen]. csimpl. rewrite IH by done. f_equal.
    unfold cell_at. rewrite lookup_app_l; [done|].
    apply lookup_lt_Some in Hlook. lia.
Qed.

(** *** The derived delay column *)

(** [delay_hours = (actual_delivery - planned_delivery) in hours] on a frame. *)
Definition derive_difference (f : frame) : result frame :=
  actual ← get_column "actual_delivery" f;
  planned ← get_column "planned_delivery" f;
  Ok (set_column "delay_hours" (hours_between actual planned) f).

(** [delay_hours = delay_hours.clip(lower=0)] on a frame. *)
Definition derive_clip : frame → result frame :=
  assign "delay_hours" (fmap (clip_lower_cell 0%Qc)).


Lemma st_seq_ret (m : st unit) w : m w = (m;; mret tt) w.
Proof.
  unfold mbind, st_bind, mret, st_ret. by destruct (m w) as [[[]|e] w'].
Qed.

Lemma derive_delay_hours_exec df w f :
  heap w !! df = Some f →
  derive_delay_hours df w = exec df [derive_difference; derive_clip] (mret tt) f w.
Proof.
  intros Hf. rewrite st_seq_ret.
  unfold derive_delay_hours, derive_clip, derive_difference.
  rewrite <-(upd_id w df f Hf) at 1 2.
  run_cleaner.
Qed.

Lemma hours_between_length a p (R : list row) :
  length a = length R → length p = length R → length (hours_between a p) = length R.
Proof. intros Ha Hp. unfold hours_between. rewrite length_zip_with. lia. Qed.






(** *** Following a successful run through the store *)



Lemma upd_lookup_ne w l l' f : l ≠ l' → heap (upd w l f) !! l' = heap w !! l'.
Proof. intros. unfold upd. simpl. by rewrite lookup_insert_ne. Qed.




Section datetime_conversion.
Context `{Pandas}.

Lemma to_datetime_strict_length s ts :
  to_datetime_strict s = Ok ts → length ts = length s.
Proof.
  revert ts. induction s as [|c s IH]; intros ts; simpl.
  - by intros [= <-].
  - destruct (to_datetime_strict_cell c); simpl; [|done].
    destruct (to_datetime_strict s); simpl; [|done].
    intros [= <-]. simpl. f_equal. by apply IH.
Qed.

End datetime_conversion.





Section delay_claim.
Context `{Pandas}.



End delay_claim.

(** Three shipments: one delivered an hour early, one an hour late, one
    not delivered yet. *)
Definition delivered : frame :=
  Frame ["ship_date"; "planned_delivery"; "actual_delivery"]
    [ [Time 0; Time 7200000000000; Time 3600000000000];
      [Time 0; Time 7200000000000; Time 10800000000000];
      [Time 0; Time 7200000000000; NA] ].

Definition loaded_analyzer : analysis_utils.analyzer :=
  analysis_utils.Analyzer "data/" (Some 1%positive) None None None None.

Definition metrics_run : result loc * world :=
  analysis_utils.calculate_delivery_metrics (H := simple_pandas) loaded_analyzer
    (world_with delivered).


Example delay_hours_of_delivered :
  ∃ f', heap metrics_run.2 !! 1%positive = Some f' ∧
        get_column "delay_hours" f' = Ok [Num 0%Qc; Num 1%Qc; NA].
Proof. eexists. split; [by vm_compute|]. apply (bool_decide_unpack _). by vm_compute. Qed.

(** ** Carrier performance *)

Lemma num_desc_total : Total num_desc.
Proof.
  intros [a|] [b|]; simpl; auto.
  destruct (Qclt_le_dec a b) as [Hlt|Hle]; [right|left]; [|done].
  by apply Qclt_le_weak.
Qed.

Lemma num_desc_trans : Transitive num_desc.
Proof.
  intros [a|] [b|] [c|]; simpl; try done.
  intros ??. by eapply Qcle_trans.
Qed.

Section carrier_claims.
Import final_analysis_tables.






End carrier_claims.

(** ** Quantiles *)





Section cluster_claims.
Import final_analysis_tables.



End cluster_claims.

(** ** KMeans labels *)






Lemma dropna_subset_rectangular names f f' :
  dropna_subset names f = Ok f' → rectangular f → rectangular f'.
Proof.
  unfold dropna_subset. destruct (col_indexes names f); simpl; [|done].
  intros [= <-]. unfold rectangular. simpl. rewrite !Forall_forall.
  intros Hrect r [_ Hr]%list_elem_of_filter. by apply Hrect.
Qed.

Section kmeans_claims.
Context `{SkLearn}.
Import route_clustering.

Hypothesis kmeans_centers_length : ∀ k X, length (kmeans_centers k X) = k.
Hypothesis standard_scale_length : ∀ X, length (standard_scale X) = length X.



End kmeans_claims.


Section cluster_claim.
Context `{SkLearn}.
Import final_analysis_tables.

End cluster_claim.

(** A stand-in for scikit-learn: no scaling, and the first [k] rows as
    centres. *)
Definition first_rows_sklearn : SkLearn := {|
  standard_scale X := X;
  kmeans_centers k X := take k X ++ replicate (k - length X) []
|}.


Definition three_routes : frame :=
  Frame ["route_id"; "distance"; "avg_time"; "avg_cost"]
    [ [Num (qc 1 1); Num (qc 100 1); Num (qc 2 1); Num (qc 50 1)];
      [Num (qc 2 1); Num (qc 900 1); Num (qc 12 1); Num (qc 400 1)];
      [Num (qc 3 1); Num (qc 110 1); Num (qc 3 1); Num (qc 55 1)];
      [Num (qc 4 1); NA; Num (qc 3 1); Num (qc 55 1)];
      [Num (qc 5 1); Num (qc 500 1); Num (qc 6 1); Num (qc 200 1)] ].

Definition routes_world : world :=
  World ∅ {[route_clustering.routes_path := three_routes]} ∅ [].

Definition clustering_run : result loc * world :=
  route_clustering.cluster_routes (H0 := first_rows_sklearn) routes_world.


Example clustering_of_three_routes :
  ∃ f', heap clustering_run.2 !! 2%positive = Some f' ∧
        get_column "cluster" f' = Ok [Num 0%Qc; Num 1%Qc; Num 2%Qc; Num 2%Qc].
Proof. eexists. split; [by vm_compute|]. apply (bool_decide_unpack _). by vm_compute. Qed.




(** ** Threshold filters *)




(** Two routes of equal length: the cheaper one is delayed, the dearer
    one is on time. *)
Definition two_route_shipments : list final_analysis_tables.shipment :=
  [ final_analysis_tables.Shipment (Some 1) (Some 1) (Some 1) "Задержка"
      (Some (qc 10 1)) (Some (qc 50 1));
    final_analysis_tables.Shipment (Some 2) (Some 2) (Some 1) "Доставлено"
      (Some 0%Qc) (Some (qc 100 1)) ].

Definition two_routes : list final_analysis_tables.route :=
  [ final_analysis_tables.Route (Some 1) (Some (qc 100 1)) (Some "A") (Some "B")
      (Some (qc 5 1));
    final_analysis_tables.Route (Some 2) (Some (qc 100 1)) (Some "A") (Some "C")
      (Some (qc 5 1)) ].

Definition two_routes_report :
    list final_analysis_tables.route_metric * list final_analysis_tables.route_metric :=
  final_analysis_tables.analyze_route_efficiency two_route_shipments two_routes.


Example two_routes_report_values :
  (final_analysis_tables.rm_route_id <$> two_routes_report.2) = [1; 2] ∧
  (final_analysis_tables.cost_per_km <$> two_routes_report.2) = [Some (qc 1 2); Some 1%Qc] ∧
  final_analysis_tables.cost_per_km_q80 two_routes_report.1 = Some (qc 9 10) ∧
  (final_analysis_tables.avg_delay <$> two_routes_report.2) = [Some (qc 10 1); Some 0%Qc] ∧
  final_analysis_tables.delay_q80 two_routes_report.1 = Some (qc 8 1).
Proof. split_and!; apply (bool_decide_unpack _); by vm_compute. Qed.

(** ** The hypothesis test of advanced_analysis.py *)

Lemma lift_then {A B} (r : result A) (k : A → st B) w :
  (lift r ≫= k) w = match r with Ok a => k a w | Raise e => (Raise e, w) end.
Proof. unfold mbind, st_bind, lift. by destruct r. Qed.

Lemma new_frame_then {B} f (k : loc → st B) w :
  (new_frame f ≫= k) w = k (fresh (dom (heap w))) (upd w (fresh (dom (heap w))) f).
Proof. reflexivity. Qed.

Lemma print_then {B} s (k : st B) w :
  (print s;; k) w = k (World (heap w) (files w) (reports w) (stdout w ++ [s])).
Proof. reflexivity. Qed.

Lemma write_text_then {B} path lines (k : st B) w :
  (write_text path lines;; k) w
  = k (World (heap w) (files w) (<[path := lines]> (reports w)) (stdout w)).
Proof. reflexivity. Qed.

Lemma elem_of_value_counts c s :
  c ∈ (value_counts s).*1 → c ≠ NA ∧ c ∈ s.
Proof.
  unfold value_counts. intros ([c' n] & -> & Hin)%list_elem_of_fmap.
  rewrite merge_sort_Permutation in Hin.
  apply list_elem_of_fmap in Hin as (c'' & Heq & Hin).
  injection Heq as -> _.
  apply dedup_from_elem in Hin as [Hin _].
  apply list_elem_of_filter in Hin as [Hne Hin]. done.
Qed.

Section hypothesis_claim.
Context `{Pandas} `{Stats}.
Import advanced_analysis.

(** A carrier is valid only with thirty rows or more. *)
Lemma valid_carriers_count carriers cid :
  cid ∈ valid_carriers_of carriers →
  (30 ≤ count_cell cid carriers)%nat ∧ cid ≠ NA ∧ cid ∈ carriers.
Proof.
  unfold valid_carriers_of. intros ([c n] & -> & Hin)%list_elem_of_fmap.
  apply list_elem_of_filter in Hin as [Hn Hin]. simpl in *.
  assert (c ∈ (value_counts carriers).*1) as Hc.
  { apply list_elem_of_fmap. by exists (c, n). }
  apply elem_of_value_counts in Hc as [Hne Hc].
  unfold value_counts in Hin. rewrite merge_sort_Permutation in Hin.
  apply list_elem_of_fmap in Hin as (c' & Heq & _).
  injection Heq as -> ->. done.
Qed.

Lemma samples_of_length carriers transit :
  length (samples_of carriers transit) = length (valid_carriers_of carriers).
Proof. unfold samples_of. by rewrite length_fmap. Qed.

Lemma interpretation_reject pval :
  interpretation pval = "Reject H0" ↔ ∃ p, pval = Some p ∧ (p < qc 5 100)%Qc.
Proof.
  unfold interpretation, ltb, gtb. destruct pval as [p|].
  - case_bool_decide as Hp; split; try done.
    + intros _. by exists p.
    + intros (p' & [= <-] & Hlt). done.
  - split; [done|]. by intros (p & ? & _).
Qed.

(** What [hypothesis_testing] computes before it decides: the table
    without the rows that miss the carrier or a date, with its transit
    hours, and the two columns the samples are taken from. *)
Definition prepare (f : frame) : result (frame * series * series) :=
  f1 ← dropna_subset ["carrier_id"; "ship_date"; "delivery_date"] f;
  delivery ← get_column "delivery_date" f1;
  delivery ← to_datetime_strict delivery;
  ship ← get_column "ship_date" f1;
  ship ← to_datetime_strict ship;
  let f2 := set_column "transit_hours" (hours_between delivery ship) f1 in
  carriers ← get_column "carrier_id" f2;
  transit ← get_column "transit_hours" f2;
  Ok (f2, carriers, transit).

(** The lines printed when the test is run. *)
Definition test_log (stat pval : num) : list string :=
  [ "Hypothesis Test (Kruskal-Wallis)";
    "H0: No difference in delivery times across carriers";
    "Statistic = " +:+ format_float 3 stat +:+ ", p-value = " +:+ format_float 4 pval;
    "Result: " +:+ interpretation pval +:+ " at α=0.05";
    "Hypothesis test summary saved → " +:+ summary_path ].

Lemma hypothesis_testing_run shipments_df w f :
  heap w !! shipments_df = Some f → "carrier_id" ∈ columns f →
  match prepare f with
  | Raise e =>
      ∃ w', hypothesis_testing shipments_df w = (Raise e, w') ∧
            files w' = files w ∧ reports w' = reports w ∧ stdout w' = stdout w
  | Ok (f2, carriers, transit) =>
      let data := samples_of carriers transit in
      let heap' := <[fresh (dom (heap w)) := f2]> (heap w) in
      hypothesis_testing shipments_df w =
      if bool_decide (length data < 2)%nat
      then (Ok tt, World heap' (files w) (reports w) (stdout w ++ [not_enough]))
      else (Ok tt, World heap' (files w)
                     (<[summary_path := summary_text (kruskal data).1 (kruskal data).2]>
                        (reports w))
                     (stdout w ++ test_log (kruskal data).1 (kruskal data).2))
  end.
Proof.
  intros Hf Hcol. unfold hypothesis_testing, prepare.
  rewrite (read_frame_run _ f) by done.
  rewrite (bool_decide_eq_true_2 _ Hcol). cbn [negb].
  unfold df_dropna_copy. rewrite !st_bind_assoc, (read_frame_run _ f) by done.
  rewrite !st_bind_assoc, lift_then.
  destruct (dropna_subset _ f) as [f1|e]; cbn [mbind result_bind]; [|by eexists].
  rewrite new_frame_then.
  set (l := fresh (dom (heap w))).
  erewrite getitem_then by apply upd_lookup.
  destruct (get_column "delivery_date" f1) as [delivery|e]; cbn [mbind result_bind];
    [|by eexists].
  rewrite lift_then.
  destruct (to_datetime_strict delivery) as [delivery'|e]; cbn [mbind result_bind];
    [|by eexists].
  erewrite getitem_then by apply upd_lookup.
  destruct (get_column "ship_date" f1) as [ship|e]; cbn [mbind result_bind];
    [|by eexists].
  rewrite lift_then.
  destruct (to_datetime_strict ship) as [ship'|e]; cbn [mbind result_bind];
    [|by eexists].
  erewrite setitem_then by apply upd_lookup.
  rewrite upd_upd.
  set (f2 := set_column "transit_hours" (hours_between delivery' ship') f1).
  erewrite getitem_then by apply upd_lookup.
  destruct (get_column "carrier_id" f2) as [carriers|e]; cbn [mbind result_bind];
    [|by eexists].
  erewrite getitem_then by apply upd_lookup.
  destruct (get_column "transit_hours" f2) as [transit|e]; cbn [mbind result_bind];
    [|by eexists].
  cbn zeta. case_bool_decide; [reflexivity|].
  rewrite !print_then, write_text_then. unfold print, test_log. simpl.
  by rewrite <-!app_assoc.
Qed.

Lemma count_cell_filter {A} (g : A → cell) (P : A → Prop) `{∀ x, Decision (P x)} c l :
  (count_cell c (g <$> filter P l) ≤ count_cell c (g <$> l))%nat.
Proof.
  unfold count_cell. induction l as [|x l IH]; [done|].
  rewrite filter_cons. csimpl. rewrite (filter_cons _ (g x)).
  destruct (decide (P x)); csimpl.
  - rewrite (filter_cons _ (g x)). destruct (decide (g x = c)); simpl; lia.
  - destruct (decide (g x = c)); simpl; lia.
Qed.

(** The carrier column the samples are taken from is a part of the
    input's: no carrier has more rows in it than in the input. *)
Lemma prepare_carriers f f2 carriers transit :
  rectangular f → prepare f = Ok (f2, carriers, transit) →
  ∃ carriers0, get_column "carrier_id" f = Ok carriers0 ∧
    ∀ cid, (count_cell cid carriers ≤ count_cell cid carriers0)%nat.
Proof.
  intros Hrect. unfold prepare.
  destruct (dropna_subset _ f) as [f1|] eqn:Hf1; cbn [mbind result_bind]; [|done].
  destruct (get_column "delivery_date" f1) as [d|] eqn:Hd; cbn [mbind result_bind]; [|done].
  destruct (to_datetime_strict d) as [d'|] eqn:Hd'; cbn [mbind result_bind]; [|done].
  destruct (get_column "ship_date" f1) as [s|] eqn:Hs; cbn [mbind result_bind]; [|done].
  destruct (to_datetime_strict s) as [s'|] eqn:Hs'; cbn [mbind result_bind]; [|done].
  cbn zeta.
  assert (rectangular f1) as Hrect1 by by eapply dropna_subset_rectangular.
  rewrite (get_set_column_other "transit_hours" "carrier_id"); [|done|done|].
  2:{ apply hours_between_length.
      - rewrite (to_datetime_strict_length _ _ Hd'). by eapply get_column_length.
      - rewrite (to_datetime_strict_length _ _ Hs'). by eapply get_column_length. }
  destruct (get_column "carrier_id" f1) as [c|] eqn:Hc; cbn [mbind result_bind]; [|done].
  destruct (get_column "transit_hours" _) as [t|]; cbn [mbind result_bind]; [|done].
  intros [= <- <- <-].
  unfold dropna_subset in Hf1.
  destruct (col_indexes _ f) as [idxs|]; cbn [mbind result_bind] in Hf1; [|done].
  injection Hf1 as <-.
  unfold get_column in *.
  rewrite (col_index_columns "carrier_id" _ f) in Hc by done.
  destruct (col_index "carrier_id" f) as [i|]; cbn [mbind result_bind] in *; [|done].
  injection Hc as <-. eexists. split; [done|].
  intros cid. simpl. apply count_cell_filter.
Qed.

(** C5. [hypothesis_testing] on a table with a [carrier_id] column, once
    the rows that miss the carrier or a date are dropped and the transit
    hours are computed: a carrier is given a sample only if it has thirty
    rows or more in the table the samples are taken from, and so in the
    input; with fewer than two such carriers the function returns
    normally, having printed the message and written no file; otherwise
    it returns normally, having written the summary with the decision,
    and the decision is ['Reject H0'] exactly when the p-value is a number
    below 0.05. *)
Theorem hypothesis_test_cutoff_and_decision shipments_df w f f2 carriers transit :
  heap w !! shipments_df = Some f → rectangular f → "carrier_id" ∈ columns f →
  prepare f = Ok (f2, carriers, transit) →
  let data := samples_of carriers transit in
  let stat := (kruskal data).1 in
  let pval := (kruskal data).2 in
  (∃ carriers0, get_column "carrier_id" f = Ok carriers0 ∧
     ∀ cid, cid ∈ valid_carriers_of carriers →
       (30 ≤ count_cell cid carriers ≤ count_cell cid carriers0)%nat) ∧
  length data = length (valid_carriers_of carriers) ∧
  ∃ w', hypothesis_testing shipments_df w = (Ok tt, w') ∧
    files w' = files w ∧
    ((length (valid_carriers_of carriers) < 2)%nat →
       stdout w' = stdout w ++ [not_enough] ∧ reports w' = reports w) ∧
    ((2 ≤ length (valid_carriers_of carriers))%nat →
       stdout w' = stdout w ++ test_log stat pval ∧
       reports w' = <[summary_path := summary_text stat pval]> (reports w) ∧
       last (summary_text stat pval) = Some ("Decision: " +:+ interpretation pval) ∧
       (interpretation pval = "Reject H0" ↔ ∃ p, pval = Some p ∧ (p < qc 5 100)%Qc)).
Proof.
  intros Hf Hrect Hcol Hprep data stat pval.
  pose proof (hypothesis_testing_run shipments_df w f Hf Hcol) as Hrun.
  rewrite Hprep in Hrun. cbn zeta in Hrun. fold data stat pval in Hrun.
  destruct (prepare_carriers _ _ _ _ Hrect Hprep) as (carriers0 & Hc0 & Hcount).
  pose proof (samples_of_length carriers transit) as Hlen. fold data in Hlen.
  split_and!; [|done|].
  - exists carriers0. split; [done|]. intros cid Hcid.
    destruct (valid_carriers_count _ _ Hcid) as (Hn & _). specialize (Hcount cid). lia.
  - rewrite Hrun. case_bool_decide as Hfew.
    + eexists. split_and!; [done|done| |]; simpl; [done|lia].
    + eexists. split_and!; [done|done| |]; simpl; [lia|].
      intros _. split_and!; [done|done|done|apply interpretation_reject].
Qed.
End hypothesis_claim.

(** A stand-in for scipy: a fixed statistic and p-value. *)
Definition fixed_stats : Stats := {|
  kruskal _ := (Some (qc 7 1), Some (qc 1 100));
  format_float _ _ := "x"
|}.

(** Thirty shipments of carrier 1, thirty of carrier 2 and two of
    carrier 3. *)
Definition sixty_two_shipments : frame :=
  Frame ["carrier_id"; "ship_date"; "delivery_date"]
    (replicate 30 [Num (qc 1 1); Time 0; Time 3600000000000] ++
     replicate 30 [Num (qc 2 1); Time 0; Time 7200000000000] ++
     replicate 2 [Num (qc 3 1); Time 0; Time 7200000000000]).

Definition prepared_of (r : result (frame * series * series)) : frame * series * series :=
  match r with
  | Ok x => x
  | Raise _ => (Frame [] [], [], [])
  end.

Definition prepared_shipments : frame * series * series :=
  prepared_of (prepare (H := simple_pandas) sixty_two_shipments).

(** Witness of C5: the test on [sixty_two_shipments]. *)
Lemma hypothesis_test_witness :
  ∃ w', advanced_analysis.hypothesis_testing (H := simple_pandas) (H0 := fixed_stats)
          1%positive (world_with sixty_two_shipments) = (Ok tt, w') ∧
        files w' = ∅ ∧
        advanced_analysis.valid_carriers_of prepared_shipments.1.2
          = [Num (qc 1 1); Num (qc 2 1)] ∧
        reports w' !! advanced_analysis.summary_path
          = Some [ "Kruskal-Wallis test across carriers (n≥30 shipments)";
                   "Statistic: x"; "p-value : x"; "Decision: Reject H0" ].
Proof.
  destruct (hypothesis_test_cutoff_and_decision (H := simple_pandas) (H0 := fixed_stats)
              1%positive (world_with sixty_two_shipments) sixty_two_shipments
              prepared_shipments.1.1 prepared_shipments.1.2 prepared_shipments.2)
    as (_ & _ & w' & Hrun & Hfiles & _ & Htest).
  - reflexivity.
  - by apply (bool_decide_unpack _).
  - by apply (bool_decide_unpack _).
  - by vm_compute.
  - exists w'. split; [exact Hrun|]. split; [exact Hfiles|].
    split; [apply (bool_decide_unpack _); by vm_compute|].
    destruct Htest as (_ & Hreports & _).
    + by vm_compute.
    + rewrite Hreports. apply lookup_insert_eq.
Defined.

Definition few_shipments : frame :=
  Frame ["carrier_id"; "ship_date"; "delivery_date"]
    [ [Num (qc 1 1); Time 0; Time 3600000000000];
      [Num (qc 2 1); Time 0; Time 7200000000000] ].

Definition few_run : result unit * world :=
  advanced_analysis.hypothesis_testing (H := simple_pandas) (H0 := fixed_stats)
    1%positive (world_with few_shipments).

(** With fewer than two carriers of thirty shipments the function prints
    the message and writes nothing. *)
Example hypothesis_test_skipped :
  few_run.1 = Ok tt ∧ stdout few_run.2 = [advanced_analysis.not_enough] ∧
  reports few_run.2 = ∅ ∧ files few_run.2 = ∅.
Proof. by vm_compute. Qed.

(** ** Missing input files *)

(** [m] writes no file. *)
Definition keeps {A} (m : st A) : Prop :=
  ∀ w, files (m w).2 = files w ∧ reports (m w).2 = reports w.

(** Without the file [p], every [m k] ends in the same exception and the
    same world, with no file written: what [k] stands for is not run. *)
Definition stops {K A} (p : string) (m : K → st A) : Prop :=
  ∀ w, files w !! p = None →
    ∃ e w', (∀ k, m k w = (Raise e, w')) ∧ files w' = files w ∧ reports w' = reports w.

Lemma keeps_ret {A} (a : A) : keeps (mret a).
Proof. done. Qed.

Lemma keeps_bind {A B} (m : st A) (k : A → st B) :
  keeps m → (∀ a, keeps (k a)) → keeps (m ≫= k).
Proof.
  intros Hm Hk w. specialize (Hm w). unfold mbind, st_bind.
  destruct (m w) as [[a|e] w1]; simpl in *; [|done].
  destruct (Hk a w1) as [-> ->]. done.
Qed.

Lemma keeps_raise {A} e : keeps (raise (A := A) e).
Proof. done. Qed.
Lemma keeps_lift {A} (r : result A) : keeps (lift r).
Proof. done. Qed.
Lemma keeps_new_frame f : keeps (new_frame f).
Proof. done. Qed.
Lemma keeps_read_frame l : keeps (read_frame l).
Proof. intros w. unfold read_frame. by destruct (heap w !! l). Qed.
Lemma keeps_write_frame l f : keeps (write_frame l f).
Proof. done. Qed.
Lemma keeps_print s : keeps (print s).
Proof. done. Qed.
Lemma keeps_path_exists p : keeps (path_exists p).
Proof. done. Qed.
Lemma keeps_read_csv p : keeps (read_csv p).
Proof. intros w. unfold read_csv. by destruct (files w !! p). Qed.
Lemma keeps_if {A} (b : bool) (m1 m2 : st A) :
  keeps m1 → keeps m2 → keeps (if b then m1 else m2).
Proof. by destruct b. Qed.

Lemma keeps_for_each {A} (l : list A) body :
  (∀ x, keeps (body x)) → keeps (for_each l body).
Proof.
  intros Hbody. induction l as [|x l IH]; simpl; [apply keeps_ret|].
  apply keeps_bind; [done|]. by intros _.
Qed.

Ltac keeps_step :=
  first
  [ apply keeps_ret | apply keeps_raise | apply keeps_lift | apply keeps_new_frame
  | apply keeps_read_frame | apply keeps_write_frame | apply keeps_print
  | apply keeps_path_exists | apply keeps_read_csv
  | apply keeps_for_each; intros ?
  | apply keeps_if
  | apply keeps_bind; [|intros ?] ].

Ltac keeps_all := repeat keeps_step.

Lemma stops_bind_l {K A B} p (m : st A) (k : K → A → st B) :
  stops p (λ _ : unit, m) → stops p (λ x, m ≫= k x).
Proof.
  intros Hm w Hp. destruct (Hm w Hp) as (e & w' & Hrun & Hfiles).
  exists e, w'. split; [|done]. intros x. unfold mbind, st_bind.
  by rewrite (Hrun tt).
Qed.

Lemma stops_bind_r {K A B} p (m : st A) (k : K → A → st B) :
  keeps m → (∀ a, stops p (λ x, k x a)) → stops p (λ x, m ≫= k x).
Proof.
  intros Hm Hk w Hp. unfold mbind, st_bind.
  destruct (Hm w) as [Hfiles Hreports].
  destruct (m w) as [[a|e] w1]; simpl in *.
  - destruct (Hk a w1) as (e & w' & Hrun & Hf & Hr); [by rewrite Hfiles|].
    exists e, w'. split; [done|]. by rewrite Hf, Hr.
  - by exists e, w1.
Qed.

Lemma stops_read_csv p : stops p (λ _ : unit, read_csv p).
Proof.
  intros w Hp. exists (FileNotFoundError p), w. unfold read_csv. by rewrite Hp.
Qed.

Lemma stops_guarded_load {A} p (load : st A) :
  stops p (λ _ : unit, present ← path_exists p;
                       if negb present then raise (FileNotFoundError p) else load).
Proof.
  intros w Hp. exists (FileNotFoundError p), w. split; [|done]. intros _.
  unfold mbind, st_bind, path_exists. rewrite Hp.
  rewrite bool_decide_eq_false_2; [done|]. by intros [? ?].
Qed.

Section scripts.
Context `{Pandas} `{Stats} `{SkLearn}.

Lemma keeps_getitem df c : keeps (df_getitem df c).
Proof. unfold df_getitem. keeps_all. Qed.
Lemma keeps_setitem df c vs : keeps (df_setitem df c vs).
Proof. unfold df_setitem. keeps_all. Qed.
Lemma keeps_copy df : keeps (df_copy df).
Proof. unfold df_copy. keeps_all. Qed.
Lemma keeps_rename df m : keeps (df_rename_inplace df m).
Proof. unfold df_rename_inplace. keeps_all. Qed.
Lemma keeps_drop_duplicates df : keeps (df_drop_duplicates df).
Proof. unfold df_drop_duplicates. keeps_all. Qed.

Ltac keeps_df :=
  repeat first
    [ apply keeps_getitem | apply keeps_setitem | apply keeps_copy | apply keeps_rename
    | apply keeps_drop_duplicates | keeps_step ].

Lemma keeps_cleaners df :
  keeps (data_cleaning.clean_shipments df) ∧ keeps (data_cleaning.clean_routes df) ∧
  keeps (data_cleaning.clean_warehouses df) ∧ keeps (data_cleaning.clean_carriers df) ∧
  keeps (data_cleaning.clean_delays df).
Proof.
  unfold data_cleaning.clean_shipments, data_cleaning.clean_routes,
    data_cleaning.clean_warehouses, data_cleaning.clean_carriers,
    data_cleaning.clean_delays, data_cleaning._fill_numeric_by_group_median.
  split_and!; keeps_df.
Qed.

Lemma keeps_load_csv name : keeps (data_cleaning._load_csv name).
Proof. unfold data_cleaning._load_csv. keeps_df. Qed.

Lemma keeps_visuals_load name : keeps (analysis_visuals._load_clean name).
Proof. unfold analysis_visuals._load_clean. keeps_df. Qed.

Lemma keeps_advanced_load name dates : keeps (advanced_analysis._load_clean name dates).
Proof. unfold advanced_analysis._load_clean. keeps_df. Qed.

(** What follows the loading in each script. *)
Record later := Later {
  reports_1_to_3 : loc → loc → loc → st unit;
  plots : loc → loc → st unit;
  plot_and_profile : loc → st unit;
  report : loc * loc * loc * loc * loc → st unit
}.

(** The scripts that load their input outside any [try]. *)
Inductive script :=
  | DataCleaning | AdvancedAnalysis | AnalysisVisuals | RouteClustering | FinalReport.

Definition run (s : script) (k : later) : st unit :=
  match s with
  | DataCleaning => data_cleaning.main
  | AdvancedAnalysis => advanced_analysis.main (reports_1_to_3 k)
  | AnalysisVisuals => analysis_visuals.main (plots k)
  | RouteClustering => route_clustering.script (plot_and_profile k)
  | FinalReport => final_analysis_report.main (report k)
  end.

(** The CSV files each script reads. *)
Definition required (s : script) : list string :=
  match s with
  | DataCleaning =>
      ["data/shipments.csv"; "data/routes.csv"; "data/warehouses.csv";
       "data/carriers.csv"; "data/delays.csv"]
  | AdvancedAnalysis =>
      ["cleaned_data/shipments_clean.csv"; "cleaned_data/delays_clean.csv";
       "cleaned_data/routes_clean.csv"]
  | AnalysisVisuals =>
      ["cleaned_data/shipments_clean.csv"; "cleaned_data/delays_clean.csv"]
  | RouteClustering => ["cleaned_data/routes_clean.csv"]
  | FinalReport =>
      ["./data/shipments.csv"; "./data/routes.csv"; "./data/carriers.csv";
       "./data/warehouses.csv"; "./data/delays.csv"]
  end.

Ltac keeps_script :=
  first
  [ apply keeps_print | apply keeps_load_csv | apply keeps_visuals_load
  | apply keeps_advanced_load | apply keeps_read_csv
  | apply (proj1 (keeps_cleaners _))
  | apply (proj1 (proj2 (keeps_cleaners _)))
  | apply (proj1 (proj2 (proj2 (keeps_cleaners _))))
  | apply (proj1 (proj2 (proj2 (proj2 (keeps_cleaners _)))))
  | apply (proj2 (proj2 (proj2 (proj2 (keeps_cleaners _))))) ].

Ltac stops_here :=
  first
  [ apply stops_read_csv
  | apply (stops_guarded_load _ _) ].

Ltac walk :=
  first
    [ stops_here
    | apply stops_bind_l; solve [walk]
    | apply stops_bind_r; [solve [keeps_script]|intros ?; walk] ].

Lemma script_stops s p : p ∈ required s → stops p (run s).
Proof.
  destruct s; simpl; intros Hp; repeat (apply elem_of_cons in Hp as [->|Hp]);
    try (by apply elem_of_nil in Hp).
  all: unfold run, data_cleaning.main, advanced_analysis.main, analysis_visuals.main,
         route_clustering.script, final_analysis_report.main,
         final_analysis_report.load_and_prepare_data, route_clustering.cluster_routes.
  all: walk.
Qed.

(** [load_data] of [LogisticsAnalyzer] without the file [p]: it returns
    [False], the last thing printed being the error message. *)
Definition caught (p : string) (m : st (bool * analysis_utils.analyzer)) : Prop :=
  ∀ w, files w !! p = None →
    ∃ self' e w',
      m w = (Ok (false, self'), w') ∧ files w' = files w ∧ reports w' = reports w ∧
      last (stdout w') = Some ("Ошибка при загрузке данных: " +:+ exn_text e).

Lemma caught_attempt_l {A} p self (m : st A) k :
  stops p (λ _ : unit, m) → caught p (analysis_utils.attempt self m k).
Proof.
  intros Hm w Hp. destruct (Hm w Hp) as (e & w' & Hrun & Hfiles & Hreports).
  exists self, e. eexists. unfold analysis_utils.attempt. rewrite (Hrun tt).
  split; [reflexivity|]. simpl. by rewrite last_snoc.
Qed.

Lemma caught_attempt_r {A} p self (m : st A) k :
  keeps m → (∀ a, caught p (k a)) → caught p (analysis_utils.attempt self m k).
Proof.
  intros Hm Hk w Hp. unfold analysis_utils.attempt.
  destruct (Hm w) as [Hfiles Hreports].
  destruct (m w) as [[a|e] w1]; simpl in *.
  - destruct (Hk a w1) as (self' & e & w' & Hrun & Hf & Hr & Hout); [by rewrite Hfiles|].
    exists self', e, w'. by rewrite Hf, Hr.
  - exists self, e. eexists. split; [reflexivity|]. simpl. by rewrite last_snoc.
Qed.

Lemma load_data_caught self name :
  name ∈ ["shipments.csv"; "routes.csv"; "carriers.csv"; "warehouses.csv"; "delays.csv"] →
  caught (analysis_utils.data_path self +:+ name) (analysis_utils.load_data self).
Proof.
  intros Hname. repeat (apply elem_of_cons in Hname as [->|Hname]);
    try (by apply elem_of_nil in Hname).
  all: unfold analysis_utils.load_data; cbn zeta.
  all: repeat first
         [ apply caught_attempt_l; solve [apply stops_read_csv]
         | apply caught_attempt_r; [solve [apply keeps_read_csv]|intros ?] ].
Qed.

(** C4, as amended.  The five scripts that load their input outside any
    [try] end in an exception as soon as one of the CSV files they read is
    missing: the exception and the world it leaves do not depend on what
    follows the loading, and no file has been written.
    [LogisticsAnalyzer.load_data] is different: with one of its five files
    missing it catches the exception, prints an error message and returns
    [False]. *)
Theorem missing_file_ends_script_run :
  (∀ s p w, p ∈ required s → files w !! p = None →
     ∃ e w', (∀ k, run s k w = (Raise e, w')) ∧
             files w' = files w ∧ reports w' = reports w) ∧
  (∀ self name w,
     name ∈ ["shipments.csv"; "routes.csv"; "carriers.csv"; "warehouses.csv"; "delays.csv"] →
     files w !! (analysis_utils.data_path self +:+ name) = None →
     ∃ self' e w',
       analysis_utils.load_data self w = (Ok (false, self'), w') ∧
       files w' = files w ∧ reports w' = reports w ∧
       last (stdout w') = Some ("Ошибка при загрузке данных: " +:+ exn_text e)).
Proof.
  split.
  - intros s p w Hp Hmissing. by apply (script_stops s p Hp w).
  - intros self name w Hname Hmissing. by apply (load_data_caught self name Hname w).
Qed.
End scripts.

(** Witness of C4: data_cleaning.py with no file at all. *)
Lemma missing_file_witness :
  ∃ e w', (∀ k, run (H := simple_pandas) (H0 := fixed_stats) (H1 := first_rows_sklearn)
                  DataCleaning k empty_world = (Raise e, w')) ∧
          files w' = files empty_world ∧ reports w' = reports empty_world.
Proof.
  apply (proj1 (missing_file_ends_script_run (H := simple_pandas) (H0 := fixed_stats)
                  (H1 := first_rows_sklearn))
           DataCleaning "data/shipments.csv" empty_world).
  - by apply (bool_decide_unpack _).
  - reflexivity.
Defined.

Example data_cleaning_without_files :
  data_cleaning.main (H := simple_pandas) empty_world
  = (Raise (FileNotFoundError "data/shipments.csv"),
     World ∅ ∅ ∅ ["Loading raw datasets..."]).
Proof. reflexivity. Qed.

(** C4, counterexample.  With no file at all, [load_data] does not
    raise: it prints the error and returns [False], and the caller goes
    on. *)
Lemma load_data_returns_without_files :
  files empty_world !! "data/shipments.csv" = None ∧
  analysis_utils.load_data (H := simple_pandas) (analysis_utils.init "data/") empty_world
  = (Ok (false, analysis_utils.init "data/"),
     World ∅ ∅ ∅ ["Ошибка при загрузке данных: data/shipments.csv not found"]).
Proof. split; reflexivity. Qed.

(** ** More on the cleaners *)

(** How often a label occurs among the column labels. *)
Definition occurrences (c : string) (cols : list string) : nat :=
  length (filter (λ x, x = c) cols).

Lemma occurrences_zero c cols : occurrences c cols = 0%nat ↔ c ∉ cols.
Proof.
  unfold occurrences. induction cols as [|x cs IH].
  { split; [intros _; apply not_elem_of_nil|done]. }
  rewrite filter_cons, not_elem_of_cons. case_decide as Hx; simpl.
  - subst. split; [lia|]. by intros [? _].
  - rewrite IH. split; [by intros ?; split|by intros [_ ?]].
Qed.

Lemma occurrences_app c l1 l2 :
  occurrences c (l1 ++ l2) = (occurrences c l1 + occurrences c l2)%nat.
Proof. unfold occurrences. by rewrite filter_app, length_app. Qed.

Lemma find_index_first name cols i :
  find_index name cols = Some i → name ∉ take i cols.
Proof.
  revert i. induction cols as [|c cs IH]; intros i; simpl; [done|].
  case_decide as Hc.
  - intros [= <-]. apply not_elem_of_nil.
  - destruct (find_index name cs) as [j|]; simpl; [|done].
    intros [= <-]. simpl. apply not_elem_of_cons. split; [congruence|]. by apply IH.
Qed.

(** When [df[c]] is a column: the label occurs once; a label that does
    not occur is a [KeyError]. *)
Lemma col_index_cases c f :
  match col_index c f with
  | Ok i => occurrences c (columns f) = 1%nat
  | Raise e =>
      (e = KeyError c ∧ occurrences c (columns f) = 0%nat) ∨
      (e = ValueError c ∧ (2 ≤ occurrences c (columns f))%nat)
  end.
Proof.
  unfold col_index. destruct (find_index c (columns f)) as [i|] eqn:Hi.
  - assert (occurrences c (columns f)
            = S (occurrences c (drop (S i) (columns f)))) as Hocc.
    { pose proof (find_index_first _ _ _ Hi) as Hfirst.
      pose proof (find_index_lookup _ _ _ Hi) as Hlook.
      rewrite <-(take_drop_middle _ _ _ Hlook) at 1.
      rewrite occurrences_app.
      apply occurrences_zero in Hfirst. rewrite Hfirst.
      unfold occurrences. rewrite filter_cons. by rewrite decide_True. }
    case_decide as Hin.
    + right. split; [done|].
      destruct (occurrences c (drop (S i) (columns f))) eqn:Hd; [|lia].
      by apply occurrences_zero in Hd.
    + apply occurrences_zero in Hin. lia.
  - left. split; [done|]. apply occurrences_zero. by apply find_index_None.
Qed.

Lemma col_index_once c f :
  (∃ i, col_index c f = Ok i) ↔ occurrences c (columns f) = 1%nat.
Proof.
  pose proof (col_index_cases c f) as Hc.
  destruct (col_index c f) as [i|e]; split.
  - done.
  - intros _. by exists i.
  - by intros [i ?].
  - intros Hone. destruct Hc as [[_ ?]|[_ ?]]; lia.
Qed.

(** The labels a list of steps reads or writes. *)
Definition step_columns (ns : list nstep) : list string := ns ≫= nsources.

Lemma resolve_cases f s :
  match resolve f s with
  | Ok _ => ∀ c, c ∈ nsources s → occurrences c (columns f) = 1%nat
  | Raise e => ∃ c, c ∈ nsources s ∧ col_index c f = Raise e
  end.
Proof.
  destruct s as [c g|k c|c]; simpl.
  - pose proof (col_index_cases c f) as Hc.
    destruct (col_index c f) as [i|e] eqn:Ec; simpl.
    + by intros c' ->%list_elem_of_singleton.
    + exists c. split; [by left|done].
  - pose proof (col_index_cases k f) as Hk. pose proof (col_index_cases c f) as Hc.
    destruct (col_index k f) as [ik|e] eqn:Ek; simpl.
    + destruct (col_index c f) as [i|e] eqn:Ec; simpl.
      * intros c' [->|[->|[]%elem_of_nil]%elem_of_cons]%elem_of_cons; done.
      * exists c. split; [by right; left|done].
    + exists k. split; [by left|done].
  - pose proof (col_index_cases c f) as Hc.
    destruct (col_index c f) as [i|e] eqn:Ec; simpl.
    + by intros c' ->%list_elem_of_singleton.
    + exists c. split; [by left|done].
Qed.

Lemma resolve_all_cases f ns :
  match resolve_all f ns with
  | Ok _ => ∀ c, c ∈ step_columns ns → occurrences c (columns f) = 1%nat
  | Raise e => ∃ c, c ∈ step_columns ns ∧ col_index c f = Raise e
  end.
Proof.
  induction ns as [|s ns IH]; simpl.
  { by intros c ?%elem_of_nil. }
  pose proof (resolve_cases f s) as Hs. unfold step_columns. csimpl.
  destruct (resolve f s) as [rs|e] eqn:Es; simpl.
  - destruct (resolve_all f ns) as [rss|e] eqn:Ens; simpl.
    + intros c [?|?]%elem_of_app; [by apply Hs|by apply IH].
    + destruct IH as (c & Hc & He). exists c. split; [|done].
      apply elem_of_app. by right.
  - destruct Hs as (c & Hc & He). exists c. split; [|done].
    apply elem_of_app. by left.
Qed.

Lemma dedup_from_length {A} `{EqDecision A} (seen l : list A) :
  (length (dedup_from seen l) ≤ length l)%nat.
Proof.
  revert seen. induction l as [|x l IH]; intros seen; simpl; [done|].
  case_decide; simpl; [specialize (IH seen)|specialize (IH (x :: seen))]; lia.
Qed.

Lemma run_rsteps_length ss R : length (run_rsteps ss R) = length R.
Proof.
  revert R. induction ss as [|s ss IH]; intros R; simpl; [done|].
  unfold run_rsteps in *. simpl. rewrite IH.
  destruct s; simpl; unfold upd_rows; by rewrite length_fmap.
Qed.

Lemma clean_frame_cases m ns f :
  match clean_frame m ns f with
  | Ok f' =>
      (∀ c, c ∈ step_columns ns → occurrences c (rename_label m <$> columns f) = 1%nat) ∧
      columns f' = rename_label m <$> columns f ∧
      NoDup (rows f') ∧ (length (rows f') ≤ length (rows f))%nat
  | Raise e => ∃ c, c ∈ step_columns ns ∧ col_index c (rename m f) = Raise e
  end.
Proof.
  unfold clean_frame. simpl. rewrite pipeline_nsteps.
  pose proof (resolve_all_cases (rename m f) ns) as Hr.
  destruct (resolve_all (rename m f) ns) as [rss|e]; simpl; [|done].
  split_and!; [done|done|apply dedup_from_NoDup|].
  etrans; [apply dedup_from_length|]. by rewrite run_rsteps_length.
Qed.

Section cleaner_shape.
Context `{Pandas}.
Import data_cleaning.

(** Each cleaner with its rename map and the column labels it works on. *)
Definition cleaner_columns
    : list ((loc → st loc) * list (string * string) * list string) :=
  [ (clean_shipments, shipments_rename_map,
     ["ship_date"; "delivery_date"; "weight"; "cost"; "route_id"; "sender";
      "recipient"; "status"]);
    (clean_routes, routes_rename_map,
     ["distance"; "avg_time"; "avg_cost"; "origin"; "destination"]);
    (clean_warehouses, warehouses_rename_map, ["region"; "capacity"; "current_fill"]);
    (clean_carriers, carriers_rename_map, ["name"; "rating"; "fleet_size"; "reliability"]);
    (clean_delays, delays_rename_map, ["date"; "delay_hours"; "reason"]) ].

Lemma cleaner_columns_steps clean m expected :
  (clean, m, expected) ∈ cleaner_columns →
  ∃ ns, (clean, clean_frame m ns) ∈ cleaners ∧
        ∀ c, c ∈ step_columns ns ↔ c ∈ expected.
Proof.
  unfold cleaner_columns. rewrite !elem_of_cons, elem_of_nil.
  intros [Heq|[Heq|[Heq|[Heq|[Heq|[]]]]]]; injection Heq as -> -> ->.
  - exists shipments_nsteps. split; [by left|].
    intros c. unfold step_columns, shipments_nsteps. csimpl. rewrite !elem_of_cons, !elem_of_nil. tauto.
  - exists routes_nsteps. split; [right; by left|].
    intros c. unfold step_columns, routes_nsteps. csimpl. rewrite !elem_of_cons, !elem_of_nil. tauto.
  - exists warehouses_nsteps. split; [do 2 right; by left|].
    intros c. unfold step_columns, warehouses_nsteps. csimpl. rewrite !elem_of_cons, !elem_of_nil. tauto.
  - exists carriers_nsteps. split; [do 3 right; by left|].
    intros c. unfold step_columns, carriers_nsteps. csimpl. rewrite !elem_of_cons, !elem_of_nil. tauto.
  - exists delays_nsteps. split; [do 4 right; by left|].
    intros c. unfold step_columns, delays_nsteps. csimpl. rewrite !elem_of_cons, !elem_of_nil. tauto.
Qed.

(** What a cleaner returns: a table with the renamed labels of its
    input, without duplicate rows and with no more rows than the input. *)
Theorem cleaner_output_shape clean m expected w df0 f out w1 f' :
  (clean, m, expected) ∈ cleaner_columns →
  heap w !! df0 = Some f →
  clean df0 w = (Ok out, w1) → heap w1 !! out = Some f' →
  columns f' = rename_label m <$> columns f ∧
  NoDup (rows f') ∧
  (length (rows f') ≤ length (rows f))%nat.
Proof.
  intros (ns & Hin & _)%cleaner_columns_steps Hf Hrun Hout.
  pose proof (cleaners_cleaned clean _ w df0 f Hin Hf) as Hcl. rewrite Hrun in Hcl.
  destruct (cleaned_Ok _ _ _ _ Hcl) as (f1 & Hpure & Hf1 & _).
  assert (f1 = f') as -> by congruence.
  pose proof (clean_frame_cases m ns f) as Hcases. rewrite Hpure in Hcases.
  tauto.
Qed.

End cleaner_shape.

(** Witness: [clean_shipments] on [two_shipments]. *)
Lemma cleaner_output_shape_witness :
  columns two_shipments_clean
    = rename_label data_cleaning.shipments_rename_map <$> columns two_shipments ∧
  NoDup (rows two_shipments_clean) ∧
  (length (rows two_shipments_clean) ≤ length (rows two_shipments))%nat.
Proof.
  apply (cleaner_output_shape (H := simple_pandas)
           (data_cleaning.clean_shipments (H := simple_pandas))
           data_cleaning.shipments_rename_map
           ["ship_date"; "delivery_date"; "weight"; "cost"; "route_id"; "sender";
            "recipient"; "status"]
           (world_with two_shipments) 1%positive two_shipments 3%positive first_run.2).
  - by left.
  - reflexivity.
  - by vm_compute.
  - apply (bool_decide_unpack _). by vm_compute.
Defined.


Example clean_routes_without_origin :
  (data_cleaning.clean_routes (H := simple_pandas) 1%positive (world_with three_routes)).1
  = Raise (KeyError "origin").
Proof. by vm_compute. Qed.

(** *** Text normalisation *)

Definition is_upper (c : ascii) : bool :=
  bool_decide (65 ≤ nat_of_ascii c ≤ 90)%nat.

Fixpoint string_forall (P : ascii → Prop) (s : string) : Prop :=
  match s with
  | EmptyString => True
  | String c s' => P c ∧ string_forall P s'
  end.

Fixpoint last_char (s : string) : option ascii :=
  match s with
  | EmptyString => None
  | String c EmptyString => Some c
  | String _ s' => last_char s'
  end.

Definition first_char (s : string) : option ascii :=
  match s with
  | EmptyString => None
  | String c _ => Some c
  end.

Lemma lower_ascii_not_upper c : is_upper (lower_ascii c) = false.
Proof. destruct c as [[] [] [] [] [] [] [] []]; reflexivity. Qed.

Lemma lower_no_upper s : string_forall (λ c, is_upper c = false) (lower s).
Proof. induction s as [|c s IH]; simpl; [done|]. split; [apply lower_ascii_not_upper|done]. Qed.

Lemma lstrip_forall P s : string_forall P s → string_forall P (lstrip s).
Proof.
  induction s as [|c s IH]; simpl; [done|]. intros [Hc Hs].
  destruct (is_space c); [by apply IH|done].
Qed.

Lemma rstrip_forall P s : string_forall P s → string_forall P (rstrip s).
Proof.
  induction s as [|c s IH]; simpl; [done|]. intros [Hc Hs].
  specialize (IH Hs). destruct (rstrip s); simpl.
  - by destruct (is_space c).
  - done.
Qed.

Lemma rstrip_last s c : last_char (rstrip s) = Some c → is_space c = false.
Proof.
  induction s as [|d s IH]; simpl; [done|].
  destruct (rstrip s) as [|e t] eqn:Ht.
  - destruct (is_space d) eqn:Hd; simpl; [done|]. by intros [= <-].
  - simpl. simpl in IH. done.
Qed.

Lemma strip_first s c : first_char (strip s) = Some c → is_space c = false.
Proof.
  unfold strip. pose proof (rstrip_starts_clean _ (lstrip_starts_clean s)) as Hclean.
  destruct (rstrip (lstrip s)); simpl in *; [done|]. by intros [= <-].
Qed.

Section standardize.
Context `{Pandas}.

End standardize.

(** ** The cleaning run *)

Section cleaning_run.
Context `{Pandas}.
Import data_cleaning.

(** Loading a raw file and cleaning it, followed by [k]. *)
Lemma load_clean_then {A} name clean pure (k : loc → st A) w :
  (clean, pure) ∈ cleaners →
  match files w !! path_join RAW_DATA_DIR name with
  | None =>
      (raw ← _load_csv name; out ← clean raw; k out) w
      = (Raise (FileNotFoundError (path_join RAW_DATA_DIR name)), w)
  | Some f =>
      match pure f with
      | Ok f' =>
          ∃ out w1,
            (raw ← _load_csv name; out ← clean raw; k out) w = k out w1 ∧
            heap w1 !! out = Some f' ∧ heap w ⊆ heap w1 ∧
            files w1 = files w ∧ reports w1 = reports w ∧ stdout w1 = stdout w
      | Raise e =>
          ∃ w1, (raw ← _load_csv name; out ← clean raw; k out) w = (Raise e, w1) ∧
                files w1 = files w ∧ reports w1 = reports w
      end
  end.
Proof.
  intros Hin. unfold _load_csv.
  destruct (files w !! path_join RAW_DATA_DIR name) as [f|] eqn:Hfile.
  - set (l := fresh (dom (heap w))).
    assert (heap w !! l = None) as Hl by apply not_elem_of_dom, is_fresh.
    pose proof (cleaners_cleaned clean pure (upd w l f) l f Hin (upd_lookup _ _ _)) as Hcl.
    assert (∀ K : loc → st A,
              (raw ← (present ← path_exists (path_join RAW_DATA_DIR name);
                      if negb present then raise (FileNotFoundError (path_join RAW_DATA_DIR name))
                      else read_csv (path_join RAW_DATA_DIR name)); K raw) w
              = K l (upd w l f)) as Hload.
    { intros K. unfold mbind, st_bind, path_exists, read_csv. rewrite Hfile.
      rewrite bool_decide_eq_true_2 by by eexists. simpl. by rewrite Hfile. }
    rewrite Hload. unfold cleaned in Hcl.
    destruct (pure f) as [f'|e].
    + destruct Hcl as (l1 & l2 & f1 & Hl1 & Hl2 & Hne & Hrun).
      exists l2, (upd (upd (upd w l f) l1 f1) l2 f').
      unfold mbind at 1, st_bind at 1. rewrite Hrun.
      split_and!; try done; [apply upd_lookup|].
      apply not_elem_of_dom in Hl1, Hl2.
      etrans; [by apply (insert_subseteq (heap w) l f)|].
      etrans; [by apply (insert_subseteq _ l1 f1)|].
      apply insert_subseteq. unfold upd at 1. cbn [heap].
      by rewrite lookup_insert_ne.
    + destruct Hcl as (l1 & f1 & Hl1 & Hrun).
      exists (upd (upd w l f) l1 f1).
      unfold mbind at 1, st_bind at 1. by rewrite Hrun.
  - unfold mbind, st_bind, path_exists. rewrite Hfile.
    rewrite bool_decide_eq_false_2; [done|]. by intros [? ?].
Qed.

(** The cleaned table of a raw file, or why there is none. *)
Definition raw_table (name : string) (pure : frame → result frame) (w : world)
    : result frame :=
  match files w !! path_join RAW_DATA_DIR name with
  | None => Raise (FileNotFoundError (path_join RAW_DATA_DIR name))
  | Some f => pure f
  end.

Definition clean_path (name : string) : string := path_join CLEAN_DATA_DIR name.

Lemma to_csv_then {A} df path (k : st A) f w :
  heap w !! df = Some f →
  (to_csv df path;; k) w
  = k (World (heap w) (<[path := f]> (files w)) (reports w) (stdout w)).
Proof.
  intros Hf. unfold to_csv. rewrite st_bind_assoc, (read_frame_run _ f) by done.
  reflexivity.
Qed.

Ltac load_clean_step pure Hin f' out w1 :=
  match goal with
  | |- context [(_load_csv ?n ≫= λ raw, ?c raw ≫= ?k) ?w0] =>
      let Hstep := fresh "Hstep" in
      pose proof (load_clean_then n c pure k w0 Hin) as Hstep;
      unfold raw_table at 1;
      match type of Hstep with
      | context [files ?w0 !! ?p] =>
          match goal with
          | E : files w0 = _ |- _ => rewrite E in Hstep
          | _ => idtac
          end
      end;
      cbn [files] in Hstep;
      destruct (files _ !! path_join RAW_DATA_DIR n) as [?f|];
      [ destruct (pure _) as [f'|?e];
        [ destruct Hstep as (out & w1 & -> & ? & ? & ? & ? & ?); cbn [files reports stdout] in *
        | destruct Hstep as (w1 & -> & ? & ?); cbn [files reports] in *;
          eexists; split; [reflexivity|]; split; congruence ]
      | rewrite Hstep; eexists; split; [reflexivity|]; cbn [files reports];
        split; first [done | congruence] ]
  end.

Lemma main_cases w :
  match raw_table "shipments.csv" clean_shipments_frame w with
  | Raise e => ∃ w', main w = (Raise e, w') ∧ files w' = files w ∧ reports w' = reports w
  | Ok s' =>
  match raw_table "routes.csv" clean_routes_frame w with
  | Raise e => ∃ w', main w = (Raise e, w') ∧ files w' = files w ∧ reports w' = reports w
  | Ok r' =>
  match raw_table "warehouses.csv" clean_warehouses_frame w with
  | Raise e => ∃ w', main w = (Raise e, w') ∧ files w' = files w ∧ reports w' = reports w
  | Ok wh' =>
  match raw_table "carriers.csv" clean_carriers_frame w with
  | Raise e => ∃ w', main w = (Raise e, w') ∧ files w' = files w ∧ reports w' = reports w
  | Ok c' =>
  match raw_table "delays.csv" clean_delays_frame w with
  | Raise e => ∃ w', main w = (Raise e, w') ∧ files w' = files w ∧ reports w' = reports w
  | Ok d' =>
      ∃ w', main w = (Ok tt, w') ∧
        files w' = <[clean_path "delays_clean.csv" := d']>
                    (<[clean_path "carriers_clean.csv" := c']>
                      (<[clean_path "warehouses_clean.csv" := wh']>
                        (<[clean_path "routes_clean.csv" := r']>
                          (<[clean_path "shipments_clean.csv" := s']> (files w))))) ∧
        reports w' = reports w
  end end end end end.
Proof.
  unfold main. rewrite print_then.
  assert (Hs : (clean_shipments, clean_shipments_frame) ∈ cleaners) by by left.
  assert (Hr : (clean_routes, clean_routes_frame) ∈ cleaners) by (right; by left).
  assert (Hw : (clean_warehouses, clean_warehouses_frame) ∈ cleaners) by (do 2 right; by left).
  assert (Hc : (clean_carriers, clean_carriers_frame) ∈ cleaners) by (do 3 right; by left).
  assert (Hd : (clean_delays, clean_delays_frame) ∈ cleaners) by (do 4 right; by left).
  load_clean_step clean_shipments_frame Hs s' l1 w1.
  load_clean_step clean_routes_frame Hr r' l2 w2.
  load_clean_step clean_warehouses_frame Hw wh' l3 w3.
  load_clean_step clean_carriers_frame Hc c' l4 w4.
  load_clean_step clean_delays_frame Hd d' l5 w5.
  all: try congruence.
  rewrite print_then.
  repeat match goal with
  | Hsub : heap ?wa ⊆ heap ?wb, Hl : heap ?wa !! ?l = Some ?x |- _ =>
      lazymatch goal with
      | _ : heap wb !! l = Some x |- _ => fail
      | _ => pose proof (lookup_weaken _ _ _ _ Hl Hsub)
      end
  end.
  erewrite !to_csv_then by (cbn [heap]; eassumption).
  eexists. split; [reflexivity|]. cbn [files reports]. unfold clean_path.
  split; congruence.
Qed.

Lemma clean_frame_ok_iff m ns f :
  (∃ f', clean_frame m ns f = Ok f') ↔
  ∀ c, c ∈ step_columns ns → occurrences c (rename_label m <$> columns f) = 1%nat.
Proof.
  pose proof (clean_frame_cases m ns f) as Hc.
  destruct (clean_frame m ns f) as [f'|e]; split.
  - intros _. apply Hc.
  - intros _. by exists f'.
  - by intros [f' ?].
  - intros Hall. destruct Hc as (c & Hin & Hraise).
    pose proof (col_index_cases c (rename m f)) as Hidx. rewrite Hraise in Hidx.
    specialize (Hall c Hin). simpl in Hidx. destruct Hidx as [[_ ?]|[_ ?]]; lia.
Qed.

(** The raw files [main] reads, each with the rename map and the column
    labels of its cleaner. *)
Definition raw_inputs : list (string * list (string * string) * list string) :=
  [ ("shipments.csv", shipments_rename_map,
     ["ship_date"; "delivery_date"; "weight"; "cost"; "route_id"; "sender";
      "recipient"; "status"]);
    ("routes.csv", routes_rename_map,
     ["distance"; "avg_time"; "avg_cost"; "origin"; "destination"]);
    ("warehouses.csv", warehouses_rename_map, ["region"; "capacity"; "current_fill"]);
    ("carriers.csv", carriers_rename_map, ["name"; "rating"; "fleet_size"; "reliability"]);
    ("delays.csv", delays_rename_map, ["date"; "delay_hours"; "reason"]) ].

(** What [main] reads, what it writes, and the cleaner in between. *)
Definition cleaning_jobs : list (string * string * (loc → st loc)) :=
  [ ("shipments.csv", "shipments_clean.csv", clean_shipments);
    ("routes.csv", "routes_clean.csv", clean_routes);
    ("warehouses.csv", "warehouses_clean.csv", clean_warehouses);
    ("carriers.csv", "carriers_clean.csv", clean_carriers);
    ("delays.csv", "delays_clean.csv", clean_delays) ].

Lemma raw_table_ok_iff name m ns (expected : list string) w :
  (∀ c, c ∈ step_columns ns ↔ c ∈ expected) →
  (∃ f', raw_table name (clean_frame m ns) w = Ok f') ↔
  ∃ f, files w !! path_join RAW_DATA_DIR name = Some f ∧
       ∀ c, c ∈ expected → occurrences c (rename_label m <$> columns f) = 1%nat.
Proof.
  intros Hexp. unfold raw_table.
  destruct (files w !! path_join RAW_DATA_DIR name) as [f|].
  - rewrite clean_frame_ok_iff. split.
    + intros Hall. exists f. split; [done|]. intros c Hc. by apply Hall, Hexp.
    + intros (f0 & [= <-] & Hall) c Hc. by apply Hall, Hexp.
  - split; [by intros [? ?]|by intros (? & ? & _)].
Qed.

Ltac step_columns_iff :=
  intros c; unfold step_columns, shipments_nsteps, routes_nsteps, warehouses_nsteps,
    carriers_nsteps, delays_nsteps; csimpl; rewrite !elem_of_cons, !elem_of_nil; tauto.

(** [main] of data_cleaning.py returns exactly when each of the five raw
    files exists and holds, once each, the columns its cleaner works on
    (under their Russian or English label). *)
Theorem cleaning_run_succeeds_iff w :
  (∃ w', main w = (Ok tt, w')) ↔
  ∀ name m expected, (name, m, expected) ∈ raw_inputs →
    ∃ f, files w !! path_join RAW_DATA_DIR name = Some f ∧
         ∀ c, c ∈ expected → occurrences c (rename_label m <$> columns f) = 1%nat.
Proof.
  pose proof (main_cases w) as Hmain.
  pose proof (raw_table_ok_iff "shipments.csv" shipments_rename_map shipments_nsteps
                ["ship_date"; "delivery_date"; "weight"; "cost"; "route_id"; "sender"; "recipient"; "status"] w
                ltac:(step_columns_iff)) as Js.
  pose proof (raw_table_ok_iff "routes.csv" routes_rename_map routes_nsteps
                ["distance"; "avg_time"; "avg_cost"; "origin"; "destination"] w
                ltac:(step_columns_iff)) as Jr.
  pose proof (raw_table_ok_iff "warehouses.csv" warehouses_rename_map warehouses_nsteps
                ["region"; "capacity"; "current_fill"] w
                ltac:(step_columns_iff)) as Jw.
  pose proof (raw_table_ok_iff "carriers.csv" carriers_rename_map carriers_nsteps
                ["name"; "rating"; "fleet_size"; "reliability"] w
                ltac:(step_columns_iff)) as Jc.
  pose proof (raw_table_ok_iff "delays.csv" delays_rename_map delays_nsteps
                ["date"; "delay_hours"; "reason"] w
                ltac:(step_columns_iff)) as Jd.
  unfold clean_shipments_frame, clean_routes_frame, clean_warehouses_frame,
    clean_carriers_frame, clean_delays_frame in Hmain.
  split.
  - intros [w' Hrun] name m expected Hin.
    unfold raw_inputs in Hin. rewrite !elem_of_cons, elem_of_nil in Hin.
    destruct (raw_table "shipments.csv" _ w) as [s'|e];
      [|destruct Hmain as (? & ? & _); congruence].
    destruct (raw_table "routes.csv" _ w) as [r'|e];
      [|destruct Hmain as (? & ? & _); congruence].
    destruct (raw_table "warehouses.csv" _ w) as [wh'|e];
      [|destruct Hmain as (? & ? & _); congruence].
    destruct (raw_table "carriers.csv" _ w) as [c'|e];
      [|destruct Hmain as (? & ? & _); congruence].
    destruct (raw_table "delays.csv" _ w) as [d'|e];
      [|destruct Hmain as (? & ? & _); congruence].
    destruct Hin as [Heq|[Heq|[Heq|[Heq|[Heq|[]]]]]]; injection Heq as -> -> ->.
    + apply Js. by eexists.
    + apply Jr. by eexists.
    + apply Jw. by eexists.
    + apply Jc. by eexists.
    + apply Jd. by eexists.
  - intros Hall.
    destruct (proj2 Js (Hall _ _ _ ltac:(by left))) as [s' Es].
    destruct (proj2 Jr (Hall _ _ _ ltac:(right; by left))) as [r' Er].
    destruct (proj2 Jw (Hall _ _ _ ltac:(do 2 right; by left))) as [wh' Ew].
    destruct (proj2 Jc (Hall _ _ _ ltac:(do 3 right; by left))) as [c' Ec].
    destruct (proj2 Jd (Hall _ _ _ ltac:(do 4 right; by left))) as [d' Ed].
    rewrite Es, Er, Ew, Ec, Ed in Hmain.
    destruct Hmain as (w' & Hrun & _). by exists w'.
Qed.

Lemma cleaner_returns_pure clean pure f f' w0 df :
  (clean, pure) ∈ cleaners → pure f = Ok f' → heap w0 !! df = Some f →
  ∃ out w1, clean df w0 = (Ok out, w1) ∧ heap w1 !! out = Some f'.
Proof.
  intros Hin Hpure Hf.
  pose proof (cleaners_cleaned clean pure w0 df f Hin Hf) as Hcl.
  by apply (cleaned_run _ _ _ f' Hcl).
Qed.

(** What a run of [main] that returns has done: each cleaned file holds
    the table its cleaner returns for the raw table, every other file is
    as before (the raw files among them), and the inputs of the three
    scripts that read cleaned data are there. *)
Theorem cleaning_run_outputs w w' :
  main w = (Ok tt, w') →
  (∀ raw_name clean_name clean, (raw_name, clean_name, clean) ∈ cleaning_jobs →
     ∃ f f',
       files w !! path_join RAW_DATA_DIR raw_name = Some f ∧
       files w' !! path_join CLEAN_DATA_DIR clean_name = Some f' ∧
       ∀ w0 df, heap w0 !! df = Some f →
         ∃ out w1, clean df w0 = (Ok out, w1) ∧ heap w1 !! out = Some f') ∧
  (∀ p, (∀ raw_name clean_name clean, (raw_name, clean_name, clean) ∈ cleaning_jobs →
           p ≠ path_join CLEAN_DATA_DIR clean_name) →
        files w' !! p = files w !! p) ∧
  reports w' = reports w ∧
  (∀ p, p ∈ required AdvancedAnalysis ++ required AnalysisVisuals ++ required RouteClustering →
        is_Some (files w' !! p)).
Proof.
  intros Hrun. pose proof (main_cases w) as Hmain.
  unfold raw_table in Hmain.
  destruct (files w !! path_join RAW_DATA_DIR "shipments.csv") as [s|] eqn:Fs;
    [|destruct Hmain as (? & ? & _); congruence].
  destruct (clean_shipments_frame s) as [s'|e] eqn:Es;
    [|destruct Hmain as (? & ? & _); congruence].
  destruct (files w !! path_join RAW_DATA_DIR "routes.csv") as [r|] eqn:Fr;
    [|destruct Hmain as (? & ? & _); congruence].
  destruct (clean_routes_frame r) as [r'|e] eqn:Er;
    [|destruct Hmain as (? & ? & _); congruence].
  destruct (files w !! path_join RAW_DATA_DIR "warehouses.csv") as [wh|] eqn:Fw;
    [|destruct Hmain as (? & ? & _); congruence].
  destruct (clean_warehouses_frame wh) as [wh'|e] eqn:Ew;
    [|destruct Hmain as (? & ? & _); congruence].
  destruct (files w !! path_join RAW_DATA_DIR "carriers.csv") as [c|] eqn:Fc;
    [|destruct Hmain as (? & ? & _); congruence].
  destruct (clean_carriers_frame c) as [c'|e] eqn:Ec;
    [|destruct Hmain as (? & ? & _); congruence].
  destruct (files w !! path_join RAW_DATA_DIR "delays.csv") as [d|] eqn:Fd;
    [|destruct Hmain as (? & ? & _); congruence].
  destruct (clean_delays_frame d) as [d'|e] eqn:Ed;
    [|destruct Hmain as (? & ? & _); congruence].
  destruct Hmain as (w'' & Hrun' & Hfiles & Hreports).
  assert (w'' = w') as -> by congruence.
  unfold clean_path in Hfiles.
  split_and!.
  - intros raw_name clean_name clean Hin.
    unfold cleaning_jobs in Hin. rewrite !elem_of_cons, elem_of_nil in Hin.
    destruct Hin as [Heq|[Heq|[Heq|[Heq|[Heq|[]]]]]]; injection Heq as -> -> ->.
    + exists s, s'. split; [done|]. split.
      { rewrite Hfiles. by rewrite !lookup_insert_ne, lookup_insert_eq by done. }
      intros w0 df. eapply cleaner_returns_pure; [by left|done].
    + exists r, r'. split; [done|]. split.
      { rewrite Hfiles. by rewrite !lookup_insert_ne, lookup_insert_eq by done. }
      intros w0 df. eapply cleaner_returns_pure; [right; by left|done].
    + exists wh, wh'. split; [done|]. split.
      { rewrite Hfiles. by rewrite !lookup_insert_ne, lookup_insert_eq by done. }
      intros w0 df. eapply cleaner_returns_pure; [do 2 right; by left|done].
    + exists c, c'. split; [done|]. split.
      { rewrite Hfiles. by rewrite !lookup_insert_ne, lookup_insert_eq by done. }
      intros w0 df. eapply cleaner_returns_pure; [do 3 right; by left|done].
    + exists d, d'. split; [done|]. split.
      { rewrite Hfiles. by rewrite lookup_insert_eq. }
      intros w0 df. eapply cleaner_returns_pure; [do 4 right; by left|done].
  - intros p Hp. rewrite Hfiles.
    rewrite !lookup_insert_ne; [done|..].
    all: intros <-; eapply Hp; [|reflexivity]; unfold cleaning_jobs;
      rewrite !elem_of_cons; eauto 10.
  - done.
  - intros p Hp. simpl in Hp. rewrite !elem_of_cons, elem_of_nil in Hp.
    rewrite Hfiles.
    destruct Hp as [->|[->|[->|[->|[->|[->|[]]]]]]].
    all: try (by rewrite !lookup_insert_ne, lookup_insert_eq by done).
    all: try (by rewrite lookup_insert_eq).
Qed.
End cleaning_run.

(** Five small raw files. *)
Definition raw_routes : frame :=
  Frame ["маршрут_id"; "начальный пункт"; "конечный пункт"; "расстояние";
         "среднее время в пути"; "средняя стоимость"]
    [ [Num (qc 7 1); Str " Kazan"; Str "UFA"; Str "520"; Str "9"; Str "41000"] ].

Definition raw_carriers : frame :=
  Frame ["name"; "rating"; "fleet_size"; "reliability"]
    [ [Str "FastTrack "; Str "4"; Str "25"; NA] ].

Definition raw_delays : frame :=
  Frame ["route_id"; "date"; "reason"; "delay_hours"]
    [ [Num (qc 7 1); Str "3"; Str "Weather"; NA] ].

Definition raw_world : world :=
  World ∅
    (<["data/shipments.csv" := two_shipments]>
       (<["data/routes.csv" := raw_routes]>
          (<["data/warehouses.csv" := lonely_warehouse]>
             (<["data/carriers.csv" := raw_carriers]>
                (<["data/delays.csv" := raw_delays]> ∅)))))
    ∅ [].

Definition cleaning_run : result unit * world :=
  data_cleaning.main (H := simple_pandas) raw_world.

(** Witness: the cleaning run on [raw_world]. *)
Lemma cleaning_run_outputs_witness :
  (∀ raw_name clean_name clean,
     (raw_name, clean_name, clean) ∈ cleaning_jobs (H := simple_pandas) →
     ∃ f f',
       files raw_world !! data_cleaning.path_join data_cleaning.RAW_DATA_DIR raw_name = Some f ∧
       files cleaning_run.2 !! data_cleaning.path_join data_cleaning.CLEAN_DATA_DIR clean_name
         = Some f' ∧
       ∀ w0 df, heap w0 !! df = Some f →
         ∃ out w1, clean df w0 = (Ok out, w1) ∧ heap w1 !! out = Some f') ∧
  (∀ p, (∀ raw_name clean_name clean,
           (raw_name, clean_name, clean) ∈ cleaning_jobs (H := simple_pandas) →
           p ≠ data_cleaning.path_join data_cleaning.CLEAN_DATA_DIR clean_name) →
        files cleaning_run.2 !! p = files raw_world !! p) ∧
  reports cleaning_run.2 = reports raw_world ∧
  (∀ p, p ∈ required AdvancedAnalysis ++ required AnalysisVisuals ++ required RouteClustering →
        is_Some (files cleaning_run.2 !! p)).
Proof.
  apply (cleaning_run_outputs (H := simple_pandas) raw_world cleaning_run.2).
  by vm_compute.
Defined.

Example cleaned_delays_file :
  files cleaning_run.2 !! "cleaned_data/delays_clean.csv"
  = Some (Frame ["route_id"; "date"; "reason"; "delay_hours"]
            [ [Num (qc 7 1); Time 3; Str "weather"; Num 0%Qc] ]).
Proof. apply (bool_decide_unpack _). by vm_compute. Qed.

(** ** The table of inefficient routes *)

Lemma group_keys_NoDup {A} (key : A → option Z) (l : list A) : NoDup (group_keys key l).
Proof. unfold group_keys. rewrite merge_sort_Permutation. apply dedup_from_NoDup. Qed.

Lemma elem_of_group_keys {A} (key : A → option Z) (l : list A) k :
  k ∈ group_keys key l ↔ ∃ x, x ∈ l ∧ key x = Some k.
Proof.
  unfold group_keys. rewrite merge_sort_Permutation, dedup_from_elem, list_elem_of_omap.
  split.
  - intros [(x & Hx & Hk) _]. by exists x.
  - intros (x & Hx & Hk). split; [by exists x|apply not_elem_of_nil].
Qed.

Lemma at_label_is_Some (agg : list (Z * num)) k :
  is_Some (inefficient.at_label agg k) → k ∈ agg.*1.
Proof.
  unfold inefficient.at_label.
  destruct (list_find (λ kv, kv.1 = k) agg) as [[i [k' v]]|] eqn:Hfind; [|by intros [? ?]].
  apply list_find_Some in Hfind as (Hi & Hk & _). simpl in Hk. subst k'.
  intros _. apply list_elem_of_fmap. exists (k, v). split; [done|].
  by eapply list_elem_of_lookup_2.
Qed.

Section inefficient_facts.
Import inefficient.

Lemma by_cost_then_delay_total : Total by_cost_then_delay.
Proof.
  intros x y. unfold by_cost_then_delay.
  destruct (decide (avg_cost x = avg_cost y)) as [Heq|Hne].
  - rewrite decide_True by done. apply num_desc_total.
  - rewrite (decide_False (P := avg_cost y = avg_cost x)) by congruence.
    apply num_desc_total.
Qed.

Lemma num_desc_antisym x y : num_desc x y → num_desc y x → x = y.
Proof.
  destruct x as [a|], y as [b|]; simpl; try done.
  intros ??. f_equal. by apply Qcle_antisym.
Qed.

Lemma by_cost_then_delay_trans : Transitive by_cost_then_delay.
Proof.
  intros x y z. unfold by_cost_then_delay.
  destruct (decide (avg_cost x = avg_cost y)) as [Exy|Nxy],
           (decide (avg_cost y = avg_cost z)) as [Eyz|Nyz].
  - rewrite decide_True by congruence. apply num_desc_trans.
  - rewrite decide_False by congruence. rewrite Exy. by intros _ ?.
  - rewrite decide_False by congruence. rewrite <-Eyz. by intros ? _.
  - intros Hxy Hyz. case_decide as Exz.
    + exfalso. rewrite <-Exz in Hyz. apply Nxy. by apply num_desc_antisym.
    + by eapply num_desc_trans.
Qed.

Lemma concat_columns_ids a b :
  NoDup a.*1 → NoDup b.*1 → NoDup (route_id <$> concat_columns a b).
Proof.
  intros Ha Hb. unfold concat_columns.
  rewrite <-list_fmap_compose.
  erewrite (list_fmap_ext _ id); [|by intros].
  rewrite list_fmap_id. apply NoDup_app. split_and!.
  - done.
  - by intros k Hk [Hn _]%list_elem_of_filter.
  - by apply NoDup_filter.
Qed.

Lemma agg_keys_cost shipments : (cost_agg shipments).*1 = group_keys s_route_id shipments.
Proof.
  unfold cost_agg. rewrite <-list_fmap_compose.
  erewrite (list_fmap_ext _ id); [|by intros].
  by rewrite list_fmap_id.
Qed.

Lemma agg_keys_delay delays : (delay_agg delays).*1 = group_keys d_route_id delays.
Proof.
  unfold delay_agg. rewrite <-list_fmap_compose.
  erewrite (list_fmap_ext _ id); [|by intros].
  by rewrite list_fmap_id.
Qed.

Lemma combined_ids shipments delays : NoDup (route_id <$> combined shipments delays).
Proof.
  unfold combined. eapply sublist_NoDup; [|apply fmap_sublist, sublist_filter].
  apply concat_columns_ids.
  - rewrite agg_keys_cost. apply group_keys_NoDup.
  - rewrite agg_keys_delay. apply group_keys_NoDup.
Qed.

Lemma combined_rows shipments delays r :
  r ∈ combined shipments delays →
  is_Some (avg_cost r) ∧ is_Some (avg_delay r) ∧
  (∃ s, s ∈ shipments ∧ s_route_id s = Some (route_id r)) ∧
  (∃ d, d ∈ delays ∧ d_route_id d = Some (route_id r)).
Proof.
  unfold combined. intros [[Hc Hd] Hr]%list_elem_of_filter.
  unfold concat_columns in Hr. apply list_elem_of_fmap in Hr as (k & -> & _).
  simpl in *. split_and!; [done|done| |].
  - apply at_label_is_Some in Hc. rewrite agg_keys_cost in Hc.
    by apply elem_of_group_keys.
  - apply at_label_is_Some in Hd. rewrite agg_keys_delay in Hd.
    by apply elem_of_group_keys.
Qed.

(** The table [inefficient_routes] returns: every row has both averages,
    its route occurs in the shipments and in the delays, no route occurs
    twice, and the rows come by descending average cost, rows of equal
    cost by descending average delay. *)
Theorem inefficient_routes_table shipments delays :
  let out := inefficient_routes shipments delays in
  (∀ r, r ∈ out →
     is_Some (avg_cost r) ∧ is_Some (avg_delay r) ∧
     (∃ s, s ∈ shipments ∧ s_route_id s = Some (route_id r)) ∧
     (∃ d, d ∈ delays ∧ d_route_id d = Some (route_id r))) ∧
  NoDup (route_id <$> out) ∧
  (∀ i j x y, (i < j)%nat → out !! i = Some x → out !! j = Some y →
     ∃ cx dx cy dy,
       avg_cost x = Some cx ∧ avg_delay x = Some dx ∧
       avg_cost y = Some cy ∧ avg_delay y = Some dy ∧
       ((cy < cx)%Qc ∨ (cx = cy ∧ (dy ≤ dx)%Qc))).
Proof.
  intros out.
  set (c := combined shipments delays).
  set (sel := filter (λ r, gtb (avg_cost r) (cost_thresh c) && gtb (avg_delay r) (delay_thresh c)
                           = true) c).
  assert (out ≡ₚ sel) as Hperm by apply merge_sort_Permutation.
  assert (∀ r, r ∈ out → r ∈ c) as Hsub.
  { intros r Hr. rewrite Hperm in Hr. by apply list_elem_of_filter in Hr as [_ ?]. }
  assert (∀ r, r ∈ out →
     is_Some (avg_cost r) ∧ is_Some (avg_delay r) ∧
     (∃ s, s ∈ shipments ∧ s_route_id s = Some (route_id r)) ∧
     (∃ d, d ∈ delays ∧ d_route_id d = Some (route_id r))) as Hrows.
  { intros r Hr. by apply combined_rows, Hsub. }
  split_and!; [done| |].
  - rewrite Hperm. eapply sublist_NoDup; [apply combined_ids|].
    apply fmap_sublist, sublist_filter.
  - assert (StronglySorted by_cost_then_delay out) as Hsorted.
    { apply (@StronglySorted_merge_sort _ by_cost_then_delay _
               by_cost_then_delay_trans by_cost_then_delay_total). }
    intros i j x y Hij Hi Hj.
    assert (by_cost_then_delay x y) as Hxy.
    { clear -Hsorted Hij Hi Hj. revert i j Hij Hi Hj.
      induction Hsorted as [|z l Hl IH Hall]; intros i j Hij Hi Hj; [done|].
      destruct j as [|j]; [lia|]. destruct i as [|i]; simpl in *.
      - injection Hi as <-. rewrite Forall_forall in Hall.
        apply Hall. by eapply list_elem_of_lookup_2.
      - apply (IH i j); [lia|done..]. }
    destruct (Hrows x (list_elem_of_lookup_2 _ _ _ Hi)) as ([cx Hcx] & [dx Hdx] & _).
    destruct (Hrows y (list_elem_of_lookup_2 _ _ _ Hj)) as ([cy Hcy] & [dy Hdy] & _).
    exists cx, dx, cy, dy. split_and!; try done.
    unfold by_cost_then_delay in Hxy. rewrite Hcx, Hcy, Hdx, Hdy in Hxy.
    case_decide as Heq; simpl in Hxy.
    + right. split; [congruence|done].
    + left. apply Qcle_lt_or_eq in Hxy as [?|?]; [done|congruence].
Qed.
End inefficient_facts.

Definition four_route_shipments : list inefficient.shipment :=
  [ inefficient.Shipment (Some 1) (Some (qc 10 1));
    inefficient.Shipment (Some 2) (Some (qc 20 1));
    inefficient.Shipment (Some 3) (Some (qc 30 1));
    inefficient.Shipment (Some 4) (Some (qc 100 1));
    inefficient.Shipment None (Some (qc 500 1)) ].

Definition four_route_delays : list inefficient.delay :=
  [ inefficient.Delay (Some 1) (Some 1%Qc);
    inefficient.Delay (Some 2) (Some (qc 2 1));
    inefficient.Delay (Some 3) (Some (qc 3 1));
    inefficient.Delay (Some 4) (Some (qc 50 1));
    inefficient.Delay (Some 5) (Some (qc 90 1)) ].

Example inefficient_of_four_routes :
  inefficient.route_id <$> inefficient.inefficient_routes four_route_shipments four_route_delays
  = [4].
Proof. by vm_compute. Qed.

(** ** What the hypothesis test leaves behind *)

Section hypothesis_effects.
Context `{Pandas} `{Stats}.
Import advanced_analysis.

(** The store after a call differs from the store before by at most one
    new object; no CSV file is written, and no report but the summary. *)
Definition touches_only_new (w w' : world) : Prop :=
  (heap w' = heap w ∨ ∃ f', heap w' = <[fresh (dom (heap w)) := f']> (heap w)) ∧
  files w' = files w ∧
  ∀ p, p ≠ summary_path → reports w' !! p = reports w !! p.

Lemma touches_only_new_upd w w' f' :
  heap w' = <[fresh (dom (heap w)) := f']> (heap w) →
  files w' = files w → reports w' = reports w → touches_only_new w w'.
Proof. intros Hh Hf Hr. split_and!; [right; by eexists|done|by rewrite Hr]. Qed.

Lemma hypothesis_testing_store shipments_df w f :
  heap w !! shipments_df = Some f →
  touches_only_new w (hypothesis_testing shipments_df w).2 ∧
  ("carrier_id" ∉ columns f →
   hypothesis_testing shipments_df w
   = (Ok tt, World (heap w) (files w) (reports w)
               (stdout w ++ ["carrier_id column missing: cannot run hypothesis testing."]))).
Proof.
  intros Hf. unfold hypothesis_testing.
  rewrite (read_frame_run _ f) by done.
  destruct (decide ("carrier_id" ∈ columns f)) as [Hcol|Hcol].
  2:{ rewrite (bool_decide_eq_false_2 _ Hcol). cbn [negb]. split; [|done].
      split_and!; [by left|done|done]. }
  split; [|done].
  rewrite (bool_decide_eq_true_2 _ Hcol). cbn [negb].
  unfold df_dropna_copy. rewrite !st_bind_assoc, (read_frame_run _ f) by done.
  rewrite !st_bind_assoc, lift_then.
  destruct (dropna_subset _ f) as [f1|e]; cbn [mbind result_bind];
    [|split_and!; [by left|done|done]].
  rewrite new_frame_then.
  set (l := fresh (dom (heap w))).
  erewrite getitem_then by apply upd_lookup.
  destruct (get_column "delivery_date" f1) as [delivery|e]; cbn [mbind result_bind];
    [|by eapply touches_only_new_upd].
  rewrite lift_then.
  destruct (to_datetime_strict delivery) as [delivery'|e]; cbn [mbind result_bind];
    [|by eapply touches_only_new_upd].
  erewrite getitem_then by apply upd_lookup.
  destruct (get_column "ship_date" f1) as [ship|e]; cbn [mbind result_bind];
    [|by eapply touches_only_new_upd].
  rewrite lift_then.
  destruct (to_datetime_strict ship) as [ship'|e]; cbn [mbind result_bind];
    [|by eapply touches_only_new_upd].
  erewrite setitem_then by apply upd_lookup.
  rewrite upd_upd.
  set (f2 := set_column "transit_hours" (hours_between delivery' ship') f1).
  erewrite getitem_then by apply upd_lookup.
  destruct (get_column "carrier_id" f2) as [carriers|e]; cbn [mbind result_bind];
    [|by eapply touches_only_new_upd].
  erewrite getitem_then by apply upd_lookup.
  destruct (get_column "transit_hours" f2) as [transit|e]; cbn [mbind result_bind];
    [|by eapply touches_only_new_upd].
  cbn zeta. case_bool_decide; [by eapply touches_only_new_upd|].
  rewrite !print_then, write_text_then. unfold print. cbn [snd heap files reports].
  split_and!; [right; by eexists|done|].
  intros p Hp. cbn [reports]. by rewrite lookup_insert_ne.
Qed.

(** [hypothesis_testing] works on a copy: whether it returns or raises,
    the table it is given and every other object are as before, no CSV
    file is written and no report but the test summary.  On a table
    without a [carrier_id] column it prints one message and does nothing
    else. *)
Theorem hypothesis_testing_leaves_input shipments_df w f :
  heap w !! shipments_df = Some f →
  heap (hypothesis_testing shipments_df w).2 !! shipments_df = Some f ∧
  heap w ⊆ heap (hypothesis_testing shipments_df w).2 ∧
  files (hypothesis_testing shipments_df w).2 = files w ∧
  (∀ p, p ≠ summary_path →
     reports (hypothesis_testing shipments_df w).2 !! p = reports w !! p) ∧
  ("carrier_id" ∉ columns f →
   hypothesis_testing shipments_df w
   = (Ok tt, World (heap w) (files w) (reports w)
               (stdout w ++ ["carrier_id column missing: cannot run hypothesis testing."]))).
Proof.
  intros Hf.
  destruct (hypothesis_testing_store shipments_df w f Hf) as [(Hheap & Hfiles & Hrep) Hmissing].
  assert (heap w ⊆ heap (hypothesis_testing shipments_df w).2) as Hsub.
  { destruct Hheap as [->|[f' ->]]; [done|].
    apply insert_subseteq, not_elem_of_dom, is_fresh. }
  split_and!; try done. by eapply lookup_weaken.
Qed.
End hypothesis_effects.

(** Witness: the test on [few_shipments]. *)
Lemma hypothesis_testing_leaves_input_witness :
  heap few_run.2 !! 1%positive = Some few_shipments ∧
  heap (world_with few_shipments) ⊆ heap few_run.2 ∧
  files few_run.2 = files (world_with few_shipments) ∧
  (∀ p, p ≠ advanced_analysis.summary_path →
     reports few_run.2 !! p = reports (world_with few_shipments) !! p) ∧
  ("carrier_id" ∉ columns few_shipments →
   few_run
   = (Ok tt, World (heap (world_with few_shipments)) (files (world_with few_shipments))
               (reports (world_with few_shipments))
               (stdout (world_with few_shipments)
                  ++ ["carrier_id column missing: cannot run hypothesis testing."]))).
Proof.
  apply (hypothesis_testing_leaves_input (H := simple_pandas) (H0 := fixed_stats)
           1%positive (world_with few_shipments) few_shipments).
  reflexivity.
Defined.

Example hypothesis_testing_without_carrier :
  advanced_analysis.hypothesis_testing (H := simple_pandas) (H0 := fixed_stats)
    1%positive (world_with three_routes)
  = (Ok tt, World {[1%positive := three_routes]} ∅ ∅
              ["carrier_id column missing: cannot run hypothesis testing."]).
Proof. by vm_compute. Qed.

(** ** advanced_analysis.py: the cargo flows of the Sankey diagram *)

(** [left.merge(right, on=key, how="left")]: every row of the left table
    with each row of the right table of the same key, in the order of the
    left table; a left row without a match is kept, with missing values
    for the right columns. *)
Definition merge_left {A B} (ka : A → option Z) (kb : B → option Z)
    (left : list A) (right : list B) : list (A * option B) :=
  x ← left;
  match filter (λ y, kb y = ka x) right with
  | [] => [(x, None)]
  | ys => (λ y, (x, Some y)) <$> ys
  end.

Module sankey.

(** The columns of [routes_df] the function reads. *)
Record route_meta := RouteMeta {
  route_id : option Z;
  origin : option string;
  destination : option string
}.

(** A row of [flows]. *)
Record flow := Flow { f_origin : string; f_destination : string; count : nat }.

(** The order of two group keys: by origin, then by destination. *)
Definition key_le (a b : string * string) : Prop :=
  if decide (a.1 = b.1) then String.leb a.2 b.2 = true else String.leb a.1 b.1 = true.

Global Instance key_le_dec : RelDecision key_le.
Proof. intros a b. unfold key_le. case_decide; apply _. Defined.

(** The group key of a merged row; a row with a missing origin or
    destination belongs to no group. *)
Definition flow_key {A} (row : A * option route_meta) : option (string * string) :=
  r ← row.2; o ← origin r; d ← destination r; Some (o, d).

(** [shipments_df.merge(route_meta, on="route_id", how="left")
      .groupby(["origin", "destination"]).size().reset_index(name="count")],
    the shipments given by their [route_id] column. *)
Definition flows (shipments : list (option Z)) (routes : list route_meta) : list flow :=
  let merged := merge_left id route_id shipments routes in
  (λ k, Flow k.1 k.2 (length (filter (λ row, flow_key row = Some k) merged)))
    <$> merge_sort key_le (dedup_from [] (omap flow_key merged)).

(** [list(pd.unique(flows[["origin", "destination"]].values.ravel()))] *)
Definition nodes (fl : list flow) : list string :=
  dedup_from [] (fl ≫= λ f, [f_origin f; f_destination f]).

(** [{node: i for i, node in enumerate(nodes)}] *)
Definition node_indices (nodes : list string) : gmap string nat :=
  foldl (λ m p, <[p.2 := p.1]> m) ∅ (imap (λ i node, (i, node)) nodes).

(** What the diagram is built from: the node labels and, for each flow,
    the index of its source, the index of its target and its value;
    [Series.map(dict)] gives a missing value for a key the dict lacks. *)
Record diagram := Diagram {
  labels : list string;
  link_source : list (option nat);
  link_target : list (option nat);
  link_value : list nat
}.

Definition sankey_cargo_flow (shipments : list (option Z)) (routes : list route_meta)
    : diagram :=
  let fl := flows shipments routes in
  let ns := nodes fl in
  let idx := node_indices ns in
  Diagram ns ((λ f, idx !! f_origin f) <$> fl) ((λ f, idx !! f_destination f) <$> fl)
    (count <$> fl).

End sankey.

(** *** Properties *)

Lemma foldl_insert_indices (ps : list (nat * string)) (m0 : gmap string nat) :
  NoDup ps.*2 →
  ∀ x, foldl (λ m p, <[p.2 := p.1]> m) m0 ps !! x
       = match list_find (λ p, p.2 = x) ps with
         | Some (_, (i, _)) => Some i
         | None => m0 !! x
         end.
Proof.
  revert m0. induction ps as [|[i y] ps IH]; intros m0 Hnd x; simpl; [done|].
  apply NoDup_cons in Hnd as [Hy Hnd]. rewrite IH by done.
  case_decide as Hx; simpl in Hx.
  - subst y. destruct (list_find _ ps) as [[j [i' x']]|] eqn:Hfind; simpl.
    + apply list_find_Some in Hfind as (Hj & Hx' & _). simpl in Hx'. subst x'.
      exfalso. apply Hy. apply list_elem_of_fmap. exists (i', x).
      split; [done|]. by eapply list_elem_of_lookup_2.
    + by rewrite lookup_insert_eq.
  - destruct (list_find _ ps) as [[j [i' x']]|] eqn:Hfind; simpl; [done|].
    by rewrite lookup_insert_ne.
Qed.

Lemma node_indices_lookup (ns : list string) x i :
  NoDup ns → ns !! i = Some x → sankey.node_indices ns !! x = Some i.
Proof.
  intros Hnd Hi. unfold sankey.node_indices.
  assert ((imap (λ i node, (i, node)) ns).*2 = ns) as Hsnd.
  { apply list_eq. intros j. rewrite list_lookup_fmap, list_lookup_imap.
    by destruct (ns !! j). }
  rewrite foldl_insert_indices by by rewrite Hsnd.
  assert (list_find (λ p : nat * string, p.2 = x) (imap (λ i node, (i, node)) ns)
          = Some (i, (i, x))) as ->; [|done].
  apply list_find_Some. split_and!.
  - by rewrite list_lookup_imap, Hi.
  - done.
  - intros j [j' y] Hj Hlt Hy. simpl in Hy. subst y.
    rewrite list_lookup_imap in Hj. destruct (ns !! j) as [y|] eqn:Hnj; [|done].
    injection Hj as <- ->.
    pose proof (NoDup_lookup _ _ _ _ Hnd Hnj Hi). lia.
Qed.

(** Counting the rows of each key counts the rows that have a key. *)
Lemma filter_or_length {A} (P Q : A → Prop) `{∀ x, Decision (P x)} `{∀ x, Decision (Q x)}
    (l : list A) :
  (∀ x, P x → Q x → False) →
  length (filter (λ x, P x ∨ Q x) l) = (length (filter P l) + length (filter Q l))%nat.
Proof.
  intros Hdisj. induction l as [|x l IH]; [done|].
  rewrite !filter_cons.
  destruct (decide (P x)) as [HP|HP], (decide (Q x)) as [HQ|HQ].
  - by destruct (Hdisj x).
  - rewrite decide_True by by left. simpl. lia.
  - rewrite decide_True by by right. simpl. lia.
  - rewrite decide_False by tauto. done.
Qed.

Lemma filter_ext_in {A} (P Q : A → Prop) `{∀ x, Decision (P x)} `{∀ x, Decision (Q x)}
    (l : list A) :
  (∀ x, x ∈ l → P x ↔ Q x) → filter P l = filter Q l.
Proof.
  induction l as [|x l IH]; intros Hext; [done|].
  rewrite !filter_cons.
  rewrite IH by (intros y Hy; apply Hext; by right).
  destruct (decide (P x)) as [HP|HP].
  - rewrite decide_True; [done|]. apply Hext; [by left|done].
  - rewrite decide_False; [done|]. intros HQ. apply HP, Hext; [by left|done].
Qed.

Definition has_key {A K} `{EqDecision K} (g : A → option K) (ks : list K) (x : A) : Prop :=
  match g x with
  | Some k => k ∈ ks
  | None => False
  end.

Global Instance has_key_dec {A K} `{EqDecision K} (g : A → option K) ks x :
  Decision (has_key g ks x).
Proof. unfold has_key. destruct (g x); apply _. Defined.

Lemma group_sizes_sum {A K} `{EqDecision K} (g : A → option K) (l : list A) (ks : list K) :
  NoDup ks →
  sum_list ((λ k, length (filter (λ x, g x = Some k) l)) <$> ks)
  = length (filter (has_key g ks) l).
Proof.
  intros Hnd. induction Hnd as [|k ks Hk Hnd IH]; csimpl.
  - rewrite (filter_ext_in _ (λ _, False)).
    + clear. induction l as [|x l IH]; [done|]. by rewrite filter_cons, decide_False by tauto.
    + intros x _. unfold has_key. destruct (g x); [|done].
      split; [by intros ?%elem_of_nil|done].
  - rewrite IH, <-filter_or_length.
    + f_equal. apply filter_ext_in. intros x _. unfold has_key.
      destruct (g x) as [k'|].
      * rewrite elem_of_cons. split; [intros [[= ->]|?]; auto|].
        intros [->|?]; auto.
      * split; [by intros [?|?]|done].
    + intros x Hx. unfold has_key. rewrite Hx. done.
Qed.

Lemma NoDup_all_equal {A} (l : list A) a :
  NoDup l → (∀ x, x ∈ l → x = a) → (length l ≤ 1)%nat.
Proof.
  intros Hnd Hall. destruct l as [|x [|y l]]; simpl; [lia|lia|].
  exfalso. apply NoDup_cons in Hnd as [Hx _]. apply Hx.
  rewrite (Hall x) by by left. rewrite <-(Hall y) by (right; by left). by left.
Qed.

Lemma merge_left_length {A B} (ka : A → option Z) (kb : B → option Z) left right :
  NoDup (kb <$> right) → length (merge_left ka kb left right) = length left.
Proof.
  intros Hnd. unfold merge_left.
  induction left as [|x left IH]; csimpl; [done|].
  rewrite length_app. change (S (length left)) with (1 + length left)%nat.
  f_equal; [|exact IH].
  assert (length (filter (λ y, kb y = ka x) right) ≤ 1)%nat as Hle.
  { rewrite <-(length_fmap kb). apply (NoDup_all_equal _ (ka x)).
    - eapply sublist_NoDup; [done|]. apply fmap_sublist, sublist_filter.
    - intros k (y & -> & [Hy _]%list_elem_of_filter)%list_elem_of_fmap. done. }
  destruct (filter (λ y, kb y = ka x) right) as [|y [|z ys]]; simpl in *; [done|done|lia].
Qed.

Section sankey_facts.
Import sankey.

Lemma flows_keys shipments routes :
  (λ f, (f_origin f, f_destination f)) <$> flows shipments routes
  = merge_sort key_le
      (dedup_from [] (omap flow_key (merge_left id route_id shipments routes))).
Proof.
  unfold flows. cbn zeta. rewrite <-list_fmap_compose.
  erewrite (list_fmap_ext _ id); [by rewrite list_fmap_id|].
  by intros i [o d] _.
Qed.

Lemma nodes_cover (fl : list flow) f :
  f ∈ fl → f_origin f ∈ nodes fl ∧ f_destination f ∈ nodes fl.
Proof.
  intros Hf. unfold nodes. rewrite !dedup_from_elem.
  split; (split; [|apply not_elem_of_nil]); apply list_elem_of_bind; exists f;
    (split; [|done]); [by left|right; by left].
Qed.

(** The data of the Sankey diagram fit together: the node labels are
    distinct; every link names the positions of the labels of its origin
    and of its destination, and has a positive value; no two links join
    the same origin and destination; the values add up to the number of
    merged rows that have an origin and a destination, which is at most
    the number of shipments when no route id occurs twice in the routes
    table. *)
Theorem sankey_links_consistent shipments routes :
  let d := sankey_cargo_flow shipments routes in
  let fl := flows shipments routes in
  let merged := merge_left id route_id shipments routes in
  NoDup (labels d) ∧
  length (link_source d) = length fl ∧
  length (link_target d) = length fl ∧
  length (link_value d) = length fl ∧
  (∀ k f, fl !! k = Some f →
     ∃ i j,
       link_source d !! k = Some (Some i) ∧ labels d !! i = Some (f_origin f) ∧
       link_target d !! k = Some (Some j) ∧ labels d !! j = Some (f_destination f) ∧
       link_value d !! k = Some (count f) ∧ (0 < count f)%nat) ∧
  NoDup ((λ f, (f_origin f, f_destination f)) <$> fl) ∧
  sum_list (link_value d) = length (filter (λ row, is_Some (flow_key row)) merged) ∧
  (NoDup (route_id <$> routes) → (sum_list (link_value d) ≤ length shipments)%nat).
Proof.
  intros d fl merged.
  assert (NoDup (nodes fl)) as Hnodes by apply dedup_from_NoDup.
  assert (NoDup (dedup_from [] (omap flow_key merged))) as Hkeys by apply dedup_from_NoDup.
  assert (sum_list (link_value d) = length (filter (λ row, is_Some (flow_key row)) merged))
    as Hsum.
  { unfold d, sankey_cargo_flow. cbn [link_value]. fold fl.
    unfold fl, flows. cbn zeta. fold merged.
    rewrite <-list_fmap_compose.
    erewrite (list_fmap_ext _ (λ k, length (filter (λ row, flow_key row = Some k) merged)));
      [|by intros].
    assert (∀ l1 l2 : list (string * string), l1 ≡ₚ l2 →
              sum_list ((λ k, length (filter (λ row, flow_key row = Some k) merged)) <$> l1)
              = sum_list ((λ k, length (filter (λ row, flow_key row = Some k) merged)) <$> l2))
      as Hperm.
    { intros l1 l2 Hp. by rewrite Hp. }
    rewrite (Hperm _ _ (merge_sort_Permutation _ _)).
    rewrite group_sizes_sum by done.
    f_equal. apply filter_ext_in. intros row Hrow. unfold has_key.
    destruct (flow_key row) as [k|] eqn:Hk.
    - split; [by eexists|]. intros _. apply dedup_from_elem.
      split; [|apply not_elem_of_nil]. apply list_elem_of_omap. by exists row.
    - split; [done|]. by intros [? ?]. }
  split_and!.
  - done.
  - unfold d, sankey_cargo_flow. cbn. by rewrite length_fmap.
  - unfold d, sankey_cargo_flow. cbn. by rewrite length_fmap.
  - unfold d, sankey_cargo_flow. cbn. by rewrite length_fmap.
  - intros k f Hk.
    destruct (nodes_cover fl f (list_elem_of_lookup_2 _ _ _ Hk)) as [Ho Hd].
    apply list_elem_of_lookup in Ho as [i Hi]. apply list_elem_of_lookup in Hd as [j Hj].
    exists i, j. unfold d, sankey_cargo_flow. cbn. fold fl.
    rewrite !list_lookup_fmap, Hk. simpl.
    rewrite (node_indices_lookup _ _ _ Hnodes Hi), (node_indices_lookup _ _ _ Hnodes Hj).
    split_and!; try done.
    assert ((f_origin f, f_destination f) ∈ (λ f, (f_origin f, f_destination f)) <$> fl)
      as Hin by (apply list_elem_of_fmap; exists f; split; [done|by eapply list_elem_of_lookup_2]).
    unfold fl in Hin. rewrite flows_keys, merge_sort_Permutation, dedup_from_elem in Hin.
    destruct Hin as [(row & Hrow & Hkey)%list_elem_of_omap _].
    unfold fl, flows in Hk. cbn zeta in Hk.
    apply list_lookup_fmap_Some in Hk as (key & -> & Hkey').
    simpl in *. 
    assert (row ∈ filter (λ r, flow_key r = Some key) (merge_left id route_id shipments routes))
      as Hne.
    { apply list_elem_of_filter. split; [|done]. rewrite Hkey. by destruct key. }
    revert Hne. generalize (filter (λ r, flow_key r = Some key)
                              (merge_left id route_id shipments routes)).
    intros l Hl. destruct Hl; simpl; lia.
  - unfold fl. rewrite flows_keys, merge_sort_Permutation. done.
  - done.
  - intros Hnd. rewrite Hsum. etrans; [apply length_filter|].
    unfold merged. by rewrite merge_left_length.
Qed.
End sankey_facts.

Definition example_routes : list sankey.route_meta :=
  [ sankey.RouteMeta (Some 1) (Some "kazan") (Some "ufa");
    sankey.RouteMeta (Some 2) (Some "ufa") (Some "perm");
    sankey.RouteMeta (Some 3) (Some "kazan") None ].

Example sankey_of_example :
  sankey.sankey_cargo_flow [Some 1; Some 2; Some 1; Some 3; None; Some 9] example_routes
  = sankey.Diagram ["kazan"; "ufa"; "perm"] [Some 0%nat; Some 1%nat] [Some 1%nat; Some 2%nat]
      [2%nat; 1%nat].
Proof. by vm_compute. Qed.

(** ** Loading with LogisticsAnalyzer *)

Lemma read_csv_run path w :
  read_csv path w
  = match files w !! path with
    | Some f => (Ok (fresh (dom (heap w))), upd w (fresh (dom (heap w))) f)
    | None => (Raise (FileNotFoundError path), w)
    end.
Proof. unfold read_csv. by destruct (files w !! path). Qed.

Lemma fresh_lookup w : heap w !! fresh (dom (heap w)) = None.
Proof. apply not_elem_of_dom, is_fresh. Qed.

Lemma upd_lookup_None w l f l' :
  heap (upd w l f) !! l' = None ↔ heap w !! l' = None ∧ l ≠ l'.
Proof. unfold upd. simpl. apply lookup_insert_None. Qed.

Section load_data_facts.
Context `{Pandas}.
Import analysis_utils.

Lemma convert_datetime_run l c w f :
  heap w !! l = Some f →
  convert_datetime l c w
  = match get_column c f with
    | Ok s =>
        match to_datetime_strict s with
        | Ok ts => (Ok tt, upd w l (set_column c ts f))
        | Raise e => (Raise e, w)
        end
    | Raise e => (Raise e, w)
    end.
Proof.
  intros Hf. unfold convert_datetime. erewrite getitem_then by done.
  destruct (get_column c f) as [s|e]; [|done].
  rewrite lift_then. destruct (to_datetime_strict s) as [ts|e]; [|done].
  rewrite st_seq_ret. by erewrite setitem_then.
Qed.

(** What a failed [load_data] comes to. *)
Definition load_failed (self : analyzer) (w : world)
    (r : result (bool * analyzer) * world) : Prop :=
  ∃ e self' w',
    r = (Ok (false, self'), w') ∧
    heap w ⊆ heap w' ∧ files w' = files w ∧ reports w' = reports w ∧
    stdout w' = stdout w ++ ["Ошибка при загрузке данных: " +:+ exn_text e] ∧
    data_path self' = data_path self.

(** What a successful [load_data] comes to: the five files exist, the
    five fields are new objects, the three date columns of the shipments
    and the date column of the delays have been converted one after the
    other. *)
Definition load_succeeded (self : analyzer) (w : world)
    (r : result (bool * analyzer) * world) : Prop :=
  ∃ fs fr fc fw fd ls lr lc lw ld s1 t1 s2 t2 s3 t3 s4 t4 w',
    files w !! (data_path self +:+ "shipments.csv") = Some fs ∧
    files w !! (data_path self +:+ "routes.csv") = Some fr ∧
    files w !! (data_path self +:+ "carriers.csv") = Some fc ∧
    files w !! (data_path self +:+ "warehouses.csv") = Some fw ∧
    files w !! (data_path self +:+ "delays.csv") = Some fd ∧
    NoDup [ls; lr; lc; lw; ld] ∧
    Forall (λ l, heap w !! l = None) [ls; lr; lc; lw; ld] ∧
    get_column "ship_date" fs = Ok s1 ∧ to_datetime_strict s1 = Ok t1 ∧
    get_column "planned_delivery" (set_column "ship_date" t1 fs) = Ok s2 ∧
    to_datetime_strict s2 = Ok t2 ∧
    get_column "actual_delivery"
      (set_column "planned_delivery" t2 (set_column "ship_date" t1 fs)) = Ok s3 ∧
    to_datetime_strict s3 = Ok t3 ∧
    get_column "date" fd = Ok s4 ∧ to_datetime_strict s4 = Ok t4 ∧
    heap w ⊆ heap w' ∧ files w' = files w ∧ reports w' = reports w ∧
    stdout w' = stdout w ++ ["Данные успешно загружены!"] ∧
    heap w' !! ls
      = Some (set_column "actual_delivery" t3
                (set_column "planned_delivery" t2 (set_column "ship_date" t1 fs))) ∧
    heap w' !! lr = Some fr ∧ heap w' !! lc = Some fc ∧ heap w' !! lw = Some fw ∧
    heap w' !! ld = Some (set_column "date" t4 fd) ∧
    r = (Ok (true, Analyzer (data_path self) (Some ls) (Some lr) (Some lc) (Some lw)
                     (Some ld)), w').

Ltac load_fails :=
  right; eexists _, _, _; split; [reflexivity|];
  cbn [heap files reports stdout upd data_path];
  split_and!; try done;
  repeat (apply insert_subseteq_r; [done|]); done.

Lemma load_data_cases self w :
  load_succeeded self w (load_data self w) ∨ load_failed self w (load_data self w).
Proof.
  unfold load_data, attempt. cbn [data_path shipments routes carriers warehouses delays].
  rewrite read_csv_run.
  destruct (files w !! (data_path self +:+ "shipments.csv")) as [fs|] eqn:Hfs;
    [|load_fails].
  set (ls := fresh (dom (heap w))). set (w1 := upd w ls fs).
  assert (heap w !! ls = None) as Hls by apply fresh_lookup.
  rewrite read_csv_run. cbn [files upd w1].
  destruct (files w !! (data_path self +:+ "routes.csv")) as [fr|] eqn:Hfr;
    [|load_fails].
  set (lr := fresh (dom (heap w1))). set (w2 := upd w1 lr fr).
  pose proof (fresh_lookup w1) as Hlr. fold lr in Hlr.
  apply upd_lookup_None in Hlr as [Hlr Hsr].
  rewrite read_csv_run. cbn [files upd w2 w1].
  destruct (files w !! (data_path self +:+ "carriers.csv")) as [fc|] eqn:Hfc;
    [|load_fails].
  set (lc := fresh (dom (heap w2))). set (w3 := upd w2 lc fc).
  pose proof (fresh_lookup w2) as Hlc. fold lc in Hlc.
  apply upd_lookup_None in Hlc as [[Hlc Hsc]%upd_lookup_None Hrc].
  rewrite read_csv_run. cbn [files upd w3 w2 w1].
  destruct (files w !! (data_path self +:+ "warehouses.csv")) as [fw|] eqn:Hfw;
    [|load_fails].
  set (lw := fresh (dom (heap w3))). set (w4 := upd w3 lw fw).
  pose proof (fresh_lookup w3) as Hlw. fold lw in Hlw.
  apply upd_lookup_None in Hlw as [[[Hlw Hsw]%upd_lookup_None Hrw]%upd_lookup_None Hcw].
  rewrite read_csv_run. cbn [files upd w4 w3 w2 w1].
  destruct (files w !! (data_path self +:+ "delays.csv")) as [fd|] eqn:Hfd;
    [|load_fails].
  set (ld := fresh (dom (heap w4))). set (w5 := upd w4 ld fd).
  pose proof (fresh_lookup w4) as Hld. fold ld in Hld.
  apply upd_lookup_None
    in Hld as [[[[Hld Hsd]%upd_lookup_None Hrd]%upd_lookup_None Hcd]%upd_lookup_None Hwd].
  cbn [from_option].
  assert (heap w5 !! ls = Some fs) as Hs5.
  { unfold w5, w4, w3, w2, w1, upd. cbn [heap].
    rewrite !lookup_insert_ne by done. apply lookup_insert_eq. }
  rewrite (convert_datetime_run _ _ _ _ Hs5).
  destruct (get_column "ship_date" fs) as [s1|e] eqn:Hs1; [|load_fails].
  destruct (to_datetime_strict s1) as [t1|e] eqn:Ht1; [|load_fails].
  erewrite convert_datetime_run by apply upd_lookup.
  destruct (get_column "planned_delivery" _) as [s2|e] eqn:Hs2; [|load_fails].
  destruct (to_datetime_strict s2) as [t2|e] eqn:Ht2; [|load_fails].
  erewrite convert_datetime_run by apply upd_lookup.
  destruct (get_column "actual_delivery" _) as [s3|e] eqn:Hs3; [|load_fails].
  destruct (to_datetime_strict s3) as [t3|e] eqn:Ht3; [|load_fails].
  rewrite !upd_upd.
  erewrite (convert_datetime_run ld "date" _ fd).
  2:{ rewrite upd_lookup_ne by done. apply upd_lookup. }
  destruct (get_column "date" fd) as [s4|e] eqn:Hs4; [|load_fails].
  destruct (to_datetime_strict s4) as [t4|e] eqn:Ht4; [|load_fails].
  left. unfold load_succeeded.
  eexists fs, fr, fc, fw, fd, ls, lr, lc, lw, ld, s1, t1, s2, t2, s3, t3, s4, t4, _.
  split_and!; [..|reflexivity]; try done.
  - repeat (apply NoDup_cons; split;
              [rewrite ?elem_of_cons, elem_of_nil; intuition congruence|]).
    apply NoDup_nil_2.
  - by repeat constructor.
  - cbn [heap upd w5 w4 w3 w2 w1]. repeat (apply insert_subseteq_r; [done|]). done.
  - cbn [heap upd w5 w4 w3 w2 w1].
    repeat (rewrite lookup_insert_ne by done). by rewrite lookup_insert_eq.
  - cbn [heap upd w5 w4 w3 w2 w1].
    repeat (rewrite lookup_insert_ne by done). by rewrite lookup_insert_eq.
  - cbn [heap upd w5 w4 w3 w2 w1].
    repeat (rewrite lookup_insert_ne by done). by rewrite lookup_insert_eq.
  - cbn [heap upd w5 w4 w3 w2 w1].
    repeat (rewrite lookup_insert_ne by done). by rewrite lookup_insert_eq.
  - cbn [heap upd w5 w4 w3 w2 w1].
    repeat (rewrite lookup_insert_ne by done). by rewrite lookup_insert_eq.
Qed.


Lemma get_column_once c f s : get_column c f = Ok s → occurrences c (columns f) = 1%nat.
Proof.
  unfold get_column. destruct (col_index c f) as [i|e] eqn:Hi; [|done].
  intros _. apply col_index_once. by exists i.
Qed.

Lemma occurrences_elem_of c cols : occurrences c cols = 1%nat → c ∈ cols.
Proof.
  intros Hone. destruct (decide (c ∈ cols)) as [|Hn]; [done|].
  apply occurrences_zero in Hn. lia.
Qed.

Lemma columns_set_column_in c vs f :
  c ∈ columns f → columns (set_column c vs f) = columns f.
Proof. intros Hc. unfold set_column. by rewrite decide_True. Qed.

(** [load_data] never raises: it returns a flag and leaves every object
    of before, every CSV file and every report as it was.  The flag is
    [True] only if the five files exist and hold the date columns, once
    each; the five fields are then new objects and the success message is
    the one line printed.  Otherwise one line is printed, the error
    message. *)
Theorem load_data_never_raises self w :
  ∃ b self' w',
    load_data self w = (Ok (b, self'), w') ∧
    heap w ⊆ heap w' ∧ files w' = files w ∧ reports w' = reports w ∧
    data_path self' = data_path self ∧
    (b = true →
       stdout w' = stdout w ++ ["Данные успешно загружены!"] ∧
       (∃ fs fr fc fw fd,
          files w !! (data_path self +:+ "shipments.csv") = Some fs ∧
          files w !! (data_path self +:+ "routes.csv") = Some fr ∧
          files w !! (data_path self +:+ "carriers.csv") = Some fc ∧
          files w !! (data_path self +:+ "warehouses.csv") = Some fw ∧
          files w !! (data_path self +:+ "delays.csv") = Some fd ∧
          Forall (λ c, occurrences c (columns fs) = 1%nat)
            ["ship_date"; "planned_delivery"; "actual_delivery"] ∧
          occurrences "date" (columns fd) = 1%nat) ∧
       (∃ ls lr lc lw ld,
          self' = Analyzer (data_path self) (Some ls) (Some lr) (Some lc) (Some lw)
                    (Some ld) ∧
          NoDup [ls; lr; lc; lw; ld] ∧
          Forall (λ l, heap w !! l = None ∧ is_Some (heap w' !! l))
            [ls; lr; lc; lw; ld])) ∧
    (b = false →
       ∃ e, stdout w' = stdout w ++ ["Ошибка при загрузке данных: " +:+ exn_text e]).
Proof.
  destruct (load_data_cases self w) as [Hok|Hfail].
  - destruct Hok as (fs & fr & fc & fw & fd & ls & lr & lc & lw & ld & s1 & t1 & s2 & t2
                     & s3 & t3 & s4 & t4 & w' & Hfs & Hfr & Hfc & Hfw & Hfd & Hnd & Hnew
                     & Hs1 & Ht1 & Hs2 & Ht2 & Hs3 & Ht3 & Hs4 & Ht4 & Hsub & Hfiles
                     & Hrep & Hout & Hls & Hlr & Hlc & Hlw & Hld & ->).
    eexists true, _, w'. split_and!; try done.
    intros _. split; [done|]. split.
    + exists fs, fr, fc, fw, fd. split_and!; try done; [|by eapply get_column_once].
      pose proof (get_column_once _ _ _ Hs1) as H1.
      pose proof (get_column_once _ _ _ Hs2) as H2.
      pose proof (get_column_once _ _ _ Hs3) as H3.
      rewrite columns_set_column_in in H2 by by apply occurrences_elem_of.
      rewrite columns_set_column_in in H3
        by (rewrite columns_set_column_in by (by apply occurrences_elem_of);
            by apply occurrences_elem_of).
      rewrite columns_set_column_in in H3 by by apply occurrences_elem_of.
      by repeat constructor.
    + exists ls, lr, lc, lw, ld. split_and!; try done.
      apply Forall_cons in Hnew as [? Hnew]. apply Forall_cons in Hnew as [? Hnew].
      apply Forall_cons in Hnew as [? Hnew]. apply Forall_cons in Hnew as [? Hnew].
      apply Forall_cons in Hnew as [? Hnew].
      repeat constructor; try done; by eexists.
  - destruct Hfail as (e & self' & w' & -> & Hsub & Hfiles & Hrep & Hout & Hpath).
    exists false, self', w'. split_and!; try done. intros _. by exists e.
Qed.

(** *** Delivery metrics of a loaded analyzer *)

Lemma to_datetime_strict_again s ts :
  to_datetime_strict s = Ok ts → to_datetime_strict ts = Ok ts.
Proof.
  revert ts. induction s as [|c s IH]; intros ts; simpl.
  - by intros [= <-].
  - destruct (to_datetime_strict_cell c) as [t|] eqn:Hc; simpl; [|done].
    destruct (to_datetime_strict s) as [ts'|]; simpl; [|done].
    intros [= <-]. simpl. rewrite (IH ts') by done.
    assert (to_datetime_strict_cell t = Ok t) as ->; [|done].
    destruct c as [|q|x|x]; simpl in Hc.
    + by injection Hc as <-.
    + destruct (datetime_of_number q); simpl in Hc; [by injection Hc as <-|done].
    + destruct (parse_datetime x); simpl in Hc; [by injection Hc as <-|done].
    + by injection Hc as <-.
Qed.

Lemma NoDup_occurrences c cols : NoDup cols → c ∈ cols → occurrences c cols = 1%nat.
Proof.
  intros Hnd Hin. unfold occurrences.
  assert (length (filter (λ x, x = c) cols) ≤ 1)%nat as Hle.
  { apply (NoDup_all_equal _ c); [by apply NoDup_filter|].
    by intros x [-> _]%list_elem_of_filter. }
  assert (c ∈ filter (λ x, x = c) cols) as Hc by by apply list_elem_of_filter.
  destruct (filter (λ x, x = c) cols); [by apply elem_of_nil in Hc|simpl in *; lia].
Qed.

Lemma get_column_NoDup c f :
  NoDup (columns f) → c ∈ columns f → ∃ s, get_column c f = Ok s.
Proof.
  intros Hnd Hin. destruct (proj2 (col_index_once c f)) as [i Hi].
  { by apply NoDup_occurrences. }
  unfold get_column. rewrite Hi. by eexists.
Qed.

Lemma NoDup_columns_set_column c vs f :
  NoDup (columns f) → NoDup (columns (set_column c vs f)).
Proof.
  intros Hnd. unfold set_column. case_decide as Hc; simpl; [done|].
  apply NoDup_app. split_and!; [done| |apply NoDup_singleton].
  intros x Hx ->%list_elem_of_singleton. done.
Qed.

(** Reading back a column that was just assigned, in a table whose
    labels are distinct. *)
Lemma get_set_column c vs f :
  rectangular f → NoDup (columns f) → length vs = length (rows f) →
  get_column c (set_column c vs f) = Ok vs.
Proof.
  intros Hrect Hnd Hlen. destruct (decide (c ∈ columns f)) as [Hin|Hnin].
  - destruct (get_column_NoDup c f Hnd Hin) as [s0 Hs0].
    by eapply get_set_column_same.
  - by apply get_set_column_new.
Qed.

End load_data_facts.

Lemma bind_run {A B} (m : st A) (k : A → st B) w a w1 :
  m w = (Ok a, w1) → (m ≫= k) w = k a w1.
Proof. intros Hm. unfold mbind, st_bind. by rewrite Hm. Qed.

Section metrics_after_load.
Context `{Pandas}.
Import analysis_utils.

(** The two derived columns on a frame whose date columns are given. *)
Lemma derive_delay_hours_run df w f actual planned :
  heap w !! df = Some f → rectangular f → NoDup (columns f) →
  get_column "actual_delivery" f = Ok actual →
  get_column "planned_delivery" f = Ok planned →
  derive_delay_hours df w
  = (Ok tt, upd w df
       (set_column "delay_hours" (clip_lower_cell 0%Qc <$> hours_between actual planned)
          (set_column "delay_hours" (hours_between actual planned) f))).
Proof.
  intros Hf Hrect Hnd Ha Hp.
  rewrite (derive_delay_hours_exec df w f Hf).
  pose proof (exec_pipeline df [derive_difference; derive_clip] (mret tt) f w Hf) as Hrun.
  assert (pipeline [derive_difference; derive_clip] f
          = Ok (set_column "delay_hours"
                  (clip_lower_cell 0%Qc <$> hours_between actual planned)
                  (set_column "delay_hours" (hours_between actual planned) f))) as Hpipe.
  { simpl. unfold derive_difference. rewrite Ha, Hp. simpl.
    unfold derive_clip, assign. rewrite get_set_column; [done..|].
    apply hours_between_length; by eapply get_column_length. }
  rewrite Hpipe in Hrun. by rewrite Hrun.
Qed.

(** After a successful [load_data], [calculate_delivery_metrics] returns:
    the shipments table of the analyzer then holds the three converted
    date columns of the file, the hours from shipping to delivery and the
    delay in hours, clipped at zero. *)
Theorem metrics_after_load self w self' w' fs :
  load_data self w = (Ok (true, self'), w') →
  files w !! (data_path self +:+ "shipments.csv") = Some fs →
  rectangular fs → NoDup (columns fs) →
  ∃ df f' s1 s2 s3 ship planned actual,
    shipments self' = Some df ∧
    calculate_delivery_metrics self' w' = (Ok df, upd w' df f') ∧
    get_column "ship_date" fs = Ok s1 ∧ to_datetime_strict s1 = Ok ship ∧
    get_column "planned_delivery" fs = Ok s2 ∧ to_datetime_strict s2 = Ok planned ∧
    get_column "actual_delivery" fs = Ok s3 ∧ to_datetime_strict s3 = Ok actual ∧
    get_column "ship_date" f' = Ok ship ∧
    get_column "planned_delivery" f' = Ok planned ∧
    get_column "actual_delivery" f' = Ok actual ∧
    get_column "actual_duration_hours" f' = Ok (hours_between actual ship) ∧
    get_column "delay_hours" f'
      = Ok (clip_lower_cell 0%Qc <$> hours_between actual planned) ∧
    length (rows f') = length (rows fs).
Proof.
  intros Hload Hfile Hrect Hnd.
  destruct (load_data_cases self w) as [Hok|Hfail].
  2:{ destruct Hfail as (e & s & w0 & Heq & _). congruence. }
  destruct Hok as (fs' & fr & fc & fw & fd & ls & lr & lc & lw & ld & s1 & t1 & s2 & t2
                   & s3 & t3 & s4 & t4 & w0 & Hfs & _ & _ & _ & _ & _ & _
                   & Hs1 & Ht1 & Hs2 & Ht2 & Hs3 & Ht3 & _ & _ & _ & _
                   & _ & _ & Hls & _ & _ & _ & _ & Heq).
  assert (fs' = fs) as -> by congruence.
  rewrite Hload in Heq. injection Heq as -> ->.
  pose proof (get_column_length _ _ _ Hs1) as Hl1.
  pose proof (to_datetime_strict_length _ _ Ht1) as Hlt1.
  set (f1 := set_column "ship_date" t1 fs) in *.
  assert (rectangular f1) as Hrect1 by (apply rectangular_set_column; [done|lia]).
  assert (NoDup (columns f1)) as Hnd1 by by apply NoDup_columns_set_column.
  assert (length (rows f1) = length (rows fs)) as Hrows1
    by (apply rows_set_column_length; lia).
  pose proof (get_column_length _ _ _ Hs2) as Hl2.
  pose proof (to_datetime_strict_length _ _ Ht2) as Hlt2.
  set (f2 := set_column "planned_delivery" t2 f1) in *.
  assert (rectangular f2) as Hrect2 by (apply rectangular_set_column; [done|lia]).
  assert (NoDup (columns f2)) as Hnd2 by by apply NoDup_columns_set_column.
  assert (length (rows f2) = length (rows fs)) as Hrows2
    by (unfold f2; rewrite rows_set_column_length; lia).
  pose proof (get_column_length _ _ _ Hs3) as Hl3.
  pose proof (to_datetime_strict_length _ _ Ht3) as Hlt3.
  set (f3 := set_column "actual_delivery" t3 f2) in *.
  assert (rectangular f3) as Hrect3 by (apply rectangular_set_column; [done|lia]).
  assert (NoDup (columns f3)) as Hnd3 by by apply NoDup_columns_set_column.
  assert (length (rows f3) = length (rows fs)) as Hrows3
    by (unfold f3; rewrite rows_set_column_length; lia).
  assert (get_column "ship_date" f3 = Ok t1) as Hship.
  { unfold f3. rewrite get_set_column_other by (done || lia).
    unfold f2. rewrite get_set_column_other by (done || lia).
    apply get_set_column; (done || lia). }
  assert (get_column "planned_delivery" f3 = Ok t2) as Hplanned.
  { unfold f3. rewrite get_set_column_other by (done || lia).
    apply get_set_column; (done || lia). }
  assert (get_column "actual_delivery" f3 = Ok t3) as Hactual.
  { apply get_set_column; (done || lia). }
  assert (get_column "planned_delivery" fs = Ok s2) as Hs2'.
  { rewrite <-Hs2. unfold f1. symmetry. apply get_set_column_other; (done || lia). }
  assert (get_column "actual_delivery" fs = Ok s3) as Hs3'.
  { rewrite <-Hs3. unfold f2. rewrite get_set_column_other by (done || lia).
    unfold f1. symmetry. apply get_set_column_other; (done || lia). }
  assert (length (hours_between t3 t1) = length (rows f3)) as Hlen4.
  { apply hours_between_length; lia. }
  set (f4 := set_column "actual_duration_hours" (hours_between t3 t1) f3).
  assert (rectangular f4) as Hrect4 by by apply rectangular_set_column.
  assert (NoDup (columns f4)) as Hnd4 by by apply NoDup_columns_set_column.
  assert (length (rows f4) = length (rows fs)) as Hrows4
    by (unfold f4; rewrite rows_set_column_length; lia).
  assert (get_column "actual_delivery" f4 = Ok t3) as Hactual4
    by (unfold f4; by rewrite get_set_column_other).
  assert (get_column "planned_delivery" f4 = Ok t2) as Hplanned4
    by (unfold f4; by rewrite get_set_column_other).
  assert (length (hours_between t3 t2) = length (rows f4)) as Hlen5.
  { apply hours_between_length; lia. }
  set (f5 := set_column "delay_hours" (hours_between t3 t2) f4).
  assert (rectangular f5) as Hrect5 by by apply rectangular_set_column.
  assert (NoDup (columns f5)) as Hnd5 by by apply NoDup_columns_set_column.
  assert (length (rows f5) = length (rows fs)) as Hrows5
    by (unfold f5; rewrite rows_set_column_length; lia).
  assert (length (clip_lower_cell 0%Qc <$> hours_between t3 t2) = length (rows f5))
    as Hlen6 by (rewrite length_fmap; lia).
  exists ls, (set_column "delay_hours" (clip_lower_cell 0%Qc <$> hours_between t3 t2) f5),
    s1, s2, s3, t1, t2, t3.
  split_and!; try done.
  - unfold calculate_delivery_metrics. cbn [shipments from_option].
    rewrite st_ret_bind.
    erewrite getitem_then by done. rewrite Hactual.
    erewrite getitem_then by done. rewrite Hship.
    rewrite lift_then, (to_datetime_strict_again _ _ Ht1).
    erewrite setitem_then by done. fold f4.
    erewrite bind_run.
    2:{ eapply derive_delay_hours_run; [apply upd_lookup|done..]. }
    by rewrite upd_upd.
  - rewrite get_set_column_other by done.
    unfold f5. rewrite get_set_column_other by done.
    unfold f4. by rewrite get_set_column_other.
  - rewrite get_set_column_other by done.
    unfold f5. rewrite get_set_column_other by done.
    unfold f4. by rewrite get_set_column_other.
  - rewrite get_set_column_other by done.
    unfold f5. rewrite get_set_column_other by done.
    unfold f4. by rewrite get_set_column_other.
  - rewrite get_set_column_other by done.
    unfold f5. rewrite get_set_column_other by done.
    by apply get_set_column.
  - by apply get_set_column.
  - rewrite rows_set_column_length by done. done.
Qed.
End metrics_after_load.

(** A data directory with three shipments: one delivered an hour early,
    one an hour late, one not delivered yet. *)
Definition shipments_file : frame :=
  Frame ["shipment_id"; "ship_date"; "planned_delivery"; "actual_delivery"]
    [ [Num 1%Qc; Str "0"; Str "7200000000000"; Str "3600000000000"];
      [Num (qc 2 1); Str "0"; Str "7200000000000"; Str "10800000000000"];
      [Num (qc 3 1); Str "0"; Str "7200000000000"; NA] ].

Definition data_world : world :=
  World ∅
    (list_to_map
       [ ("data/shipments.csv", shipments_file);
         ("data/routes.csv", Frame ["route_id"] [[Num 1%Qc]]);
         ("data/carriers.csv", Frame ["carrier_id"] [[Num 1%Qc]]);
         ("data/warehouses.csv", Frame ["warehouse_id"] [[Num 1%Qc]]);
         ("data/delays.csv", Frame ["route_id"; "date"] [[Num 1%Qc; Str "0"]]) ])
    ∅ [].

Definition load_run : result (bool * analysis_utils.analyzer) * world :=
  analysis_utils.load_data (H := simple_pandas) (analysis_utils.init "data/") data_world.

Definition loaded_self : analysis_utils.analyzer :=
  match load_run.1 with
  | Ok (_, self) => self
  | Raise _ => analysis_utils.init "data/"
  end.

Lemma metrics_after_load_witness :
  ∃ df f' s1 s2 s3 ship planned actual,
    analysis_utils.shipments loaded_self = Some df ∧
    analysis_utils.calculate_delivery_metrics (H := simple_pandas) loaded_self load_run.2
      = (Ok df, upd load_run.2 df f') ∧
    get_column "ship_date" shipments_file = Ok s1 ∧
    to_datetime_strict (H := simple_pandas) s1 = Ok ship ∧
    get_column "planned_delivery" shipments_file = Ok s2 ∧
    to_datetime_strict (H := simple_pandas) s2 = Ok planned ∧
    get_column "actual_delivery" shipments_file = Ok s3 ∧
    to_datetime_strict (H := simple_pandas) s3 = Ok actual ∧
    get_column "ship_date" f' = Ok ship ∧
    get_column "planned_delivery" f' = Ok planned ∧
    get_column "actual_delivery" f' = Ok actual ∧
    get_column "actual_duration_hours" f' = Ok (hours_between actual ship) ∧
    get_column "delay_hours" f'
      = Ok (clip_lower_cell 0%Qc <$> hours_between actual planned) ∧
    length (rows f') = length (rows shipments_file).
Proof.
  apply (metrics_after_load (H := simple_pandas) (analysis_utils.init "data/") data_world
           loaded_self load_run.2 shipments_file).
  - by vm_compute.
  - by vm_compute.
  - by apply (bool_decide_unpack _).
  - by apply (bool_decide_unpack _).
Defined.

Example metrics_of_data_world :
  ∃ f', heap (analysis_utils.calculate_delivery_metrics (H := simple_pandas)
                loaded_self load_run.2).2 !! 1%positive = Some f' ∧
        get_column "actual_duration_hours" f' = Ok [Num 1%Qc; Num (qc 3 1); NA] ∧
        get_column "delay_hours" f' = Ok [Num 0%Qc; Num 1%Qc; NA].
Proof.
  eexists. split; [by vm_compute|].
  split; apply (bool_decide_unpack _); by vm_compute.
Qed.

(** Without the delays file nothing is loaded as far as the caller is
    told, yet the four tables read before stay in the analyzer. *)
Example load_data_without_delays :
  let w := World ∅ (delete "data/delays.csv" (files data_world)) ∅ [] in
  ∃ self' w',
    analysis_utils.load_data (H := simple_pandas) (analysis_utils.init "data/") w
      = (Ok (false, self'), w') ∧
    stdout w' = ["Ошибка при загрузке данных: data/delays.csv not found"] ∧
    analysis_utils.shipments self' = Some 1%positive ∧
    analysis_utils.delays self' = None.
Proof. eexists _, _. split; [by vm_compute|]. by vm_compute. Qed.

(** ** The values a cleaned column holds *)

(** Text as [_standardize_strings] leaves it. *)
Definition normal_text (t : string) : Prop :=
  string_forall (λ ch, is_upper ch = false) t ∧
  (∀ ch, first_char t = Some ch → is_space ch = false) ∧
  (∀ ch, last_char t = Some ch → is_space ch = false).

(** The kinds of column the cleaners make: floats with NaN for what is
    missing, floats without a missing value, dates with NaT, and
    normalised text. *)
Inductive kind := Float | FilledFloat | Date | Text.

Definition has_kind (k : kind) (c : cell) : Prop :=
  match k with
  | Float => c = NA ∨ ∃ q, c = Num q
  | FilledFloat => ∃ q, c = Num q
  | Date => c = NA ∨ ∃ t, c = Time t
  | Text => ∃ t, c = Str t ∧ normal_text t
  end.

(** Every cell of column [i] satisfies [P]. *)
Definition in_column (P : cell → Prop) (i : nat) (R : list row) : Prop :=
  ∀ r, r ∈ R → P (cell_at i r).

(** Every row has [n] cells. *)
Definition wide (n : nat) (R : list row) : Prop := ∀ r, r ∈ R → length r = n.

(** A step that leaves the cells of column [i] in [P]. *)
Definition rkeeps (P : cell → Prop) (i : nat) (s : rstep) : Prop :=
  target s ≠ i ∨
  match s with
  | CellStep _ g => ∀ x, P x → P (g x)
  | _ => P NA ∧ ∀ q, P (Num q)
  end.

(** A step that puts the cells of column [i] in [P]. *)
Definition rsets (P : cell → Prop) (i : nat) (s : rstep) : Prop :=
  match s with
  | CellStep j g => j = i ∧ ∀ x, P (g x)
  | _ => False
  end.

Definition nkeeps (P : cell → Prop) (c : string) (s : nstep) : Prop :=
  ntarget s ≠ c ∨
  match s with
  | NCell _ g => ∀ x, P x → P (g x)
  | _ => P NA ∧ ∀ q, P (Num q)
  end.

Definition nsets (P : cell → Prop) (c : string) (s : nstep) : Prop :=
  match s with
  | NCell c' g => c' = c ∧ ∀ x, P (g x)
  | _ => False
  end.

(** Some step puts column [c] in [P] and the steps after it leave it
    there. *)
Fixpoint nkind (P : cell → Prop) (c : string) (ns : list nstep) : Prop :=
  match ns with
  | [] => False
  | s :: ns' => (nsets P c s ∧ Forall (nkeeps P c) ns') ∨ nkind P c ns'
  end.

Lemma cell_at_insert (r : row) i j v :
  cell_at i (<[j := v]> r) = if decide (i = j ∧ (j < length r)%nat) then v else cell_at i r.
Proof.
  unfold cell_at. case_decide as Hij.
  - destruct Hij as [-> Hlt]. by rewrite list_lookup_insert_eq.
  - destruct (decide (i = j)) as [->|Hne].
    + rewrite list_insert_ge; [done|]. lia.
    + by rewrite list_lookup_insert_ne.
Qed.

Lemma num_cell_cases (P : cell → Prop) x : P NA → (∀ q, P (Num q)) → P (num_cell x).
Proof. intros HNA Hnum. destruct x; simpl; auto. Qed.

Lemma fillna_cases (P : cell → Prop) m v : P m → P v → P (fillna m v).
Proof. intros Hm Hv. unfold fillna. by destruct (isna v). Qed.

Lemma run_rstep_wide n s R : wide n R → wide n (run_rstep s R).
Proof.
  intros Hw r Hr.
  assert (∃ r0 v, r0 ∈ R ∧ r = <[target s := v]> r0) as (r0 & v & Hr0 & ->).
  { destruct s; simpl in *; unfold upd_rows in Hr;
      apply list_elem_of_fmap in Hr as (r0 & -> & Hr0); eauto. }
  rewrite length_insert. by apply Hw.
Qed.

Lemma run_rstep_keeps P i s R :
  rkeeps P i s → in_column P i R → in_column P i (run_rstep s R).
Proof.
  intros Hs HP r Hr.
  destruct s as [j g|k j|j]; simpl in *; unfold upd_rows in Hr;
    apply list_elem_of_fmap in Hr as (r0 & -> & Hr0);
    rewrite cell_at_insert; case_decide as Hij; try by apply HP.
  - destruct Hij as [-> _]. destruct Hs as [?|Hg]; [done|]. simpl. by apply Hg, HP.
  - destruct Hij as [-> _]. destruct Hs as [?|[HNA Hnum]]; [done|].
    unfold group_fill_value. destruct (isna (cell_at k r0)); [done|].
    apply fillna_cases; [|by apply HP]. unfold series_median. by apply num_cell_cases.
  - destruct Hij as [-> _]. destruct Hs as [?|[HNA Hnum]]; [done|].
    unfold all_fill_value.
    apply fillna_cases; [|by apply HP]. unfold series_median. by apply num_cell_cases.
Qed.

Lemma run_rstep_sets P i n s R :
  (i < n)%nat → wide n R → rsets P i s → in_column P i (run_rstep s R).
Proof.
  intros Hi Hw Hs r Hr. destruct s as [j g| |]; [|done..].
  destruct Hs as [-> Hg]. simpl in Hr. unfold upd_rows in Hr.
  apply list_elem_of_fmap in Hr as (r0 & -> & Hr0).
  rewrite cell_at_insert, decide_True; [apply Hg|].
  split; [done|]. by rewrite (Hw r0 Hr0).
Qed.

Lemma run_rsteps_cons s ss R : run_rsteps (s :: ss) R = run_rsteps ss (run_rstep s R).
Proof. reflexivity. Qed.

Lemma run_rsteps_keep P i ss R :
  Forall (rkeeps P i) ss → in_column P i R → in_column P i (run_rsteps ss R).
Proof.
  intros Hss. revert R. induction Hss as [|s ss Hs _ IH]; intros R HP; [done|].
  rewrite run_rsteps_cons. by apply IH, run_rstep_keeps.
Qed.

Lemma resolve_keeps P c i f s rs :
  resolve f s = Ok rs → col_index c f = Ok i → nkeeps P c s → rkeeps P i rs.
Proof.
  intros Hrs Hi [Hne|Hs].
  - left. intros Heq. apply Hne.
    pose proof (resolve_target _ _ _ Hrs) as Ht. rewrite Heq in Ht.
    pose proof (col_index_lookup _ _ _ Hi). congruence.
  - right. destruct s as [c' g|k c'|c']; simpl in *.
    + destruct (col_index c' f); simpl in Hrs; [|done]. by injection Hrs as <-.
    + destruct (col_index k f); simpl in Hrs; [|done].
      destruct (col_index c' f); simpl in Hrs; [|done]. by injection Hrs as <-.
    + destruct (col_index c' f); simpl in Hrs; [|done]. by injection Hrs as <-.
Qed.

Lemma resolve_all_keeps P c i f ns rss :
  resolve_all f ns = Ok rss → col_index c f = Ok i →
  Forall (nkeeps P c) ns → Forall (rkeeps P i) rss.
Proof.
  intros Hrss Hi Hns. revert rss Hrss.
  induction Hns as [|s ns Hs _ IH]; intros rss; simpl.
  - intros [= <-]. constructor.
  - destruct (resolve f s) as [rs|] eqn:Hrs; simpl; [|done].
    destruct (resolve_all f ns) as [rss'|]; simpl; [|done].
    intros [= <-]. constructor; [by eapply resolve_keeps|by apply IH].
Qed.

Lemma nkind_col_index P c f ns rss :
  nkind P c ns → resolve_all f ns = Ok rss → ∃ i, col_index c f = Ok i.
Proof.
  revert rss. induction ns as [|s ns IH]; intros rss; simpl; [done|].
  destruct (resolve f s) as [rs|] eqn:Hrs; simpl; [|done].
  destruct (resolve_all f ns) as [rss'|]; simpl; [|done].
  intros [[Hs _]|Hk] _; [|by eapply IH].
  destruct s as [c' g| |]; [|done..]. destruct Hs as [-> _].
  simpl in Hrs. destruct (col_index c f) as [i|]; [by exists i|done].
Qed.

(** The cells of a column after the steps of a cleaner. *)
Lemma run_rsteps_kind P c i f ns rss R :
  nkind P c ns → resolve_all f ns = Ok rss → col_index c f = Ok i →
  wide (length (columns f)) R → in_column P i (run_rsteps rss R).
Proof.
  intros Hk Hrss Hi. revert rss R Hrss.
  induction ns as [|s ns IH]; intros rss R; simpl in *; [done|].
  destruct (resolve f s) as [rs|] eqn:Hrs; simpl; [|done].
  destruct (resolve_all f ns) as [rss'|] eqn:Hrss'; simpl; [|done].
  intros [= <-] Hw. rewrite run_rsteps_cons.
  destruct Hk as [[Hs Hkeep]|Hk].
  - apply run_rsteps_keep; [by eapply resolve_all_keeps|].
    apply (run_rstep_sets P i (length (columns f))); [by eapply col_index_lt|done|].
    destruct s as [c' g| |]; [|done..]. destruct Hs as [-> Hg].
    simpl in Hrs. rewrite Hi in Hrs. by injection Hrs as <-.
  - apply IH; [done..|]. by apply run_rstep_wide.
Qed.

Lemma clean_frame_kind P m ns c f f' :
  nkind P c ns → rectangular f → clean_frame m ns f = Ok f' →
  ∃ s, get_column c f' = Ok s ∧ Forall P s.
Proof.
  intros Hk Hrect (rss & Hrss & ->)%clean_frame_rows.
  destruct (nkind_col_index P c _ ns rss Hk Hrss) as [i Hi].
  exists (cell_at i <$> dedup_from [] (run_rsteps rss (rows f))). split.
  - unfold get_column.
    rewrite (col_index_columns c _ (rename m f)) by done. by rewrite Hi.
  - apply Forall_fmap, Forall_forall. intros r Hr%dedup_from_subseteq. simpl.
    apply (run_rsteps_kind P c i (rename m f) ns rss (rows f)); try done.
    intros r0 Hr0. unfold rectangular in Hrect. rewrite Forall_forall in Hrect.
    rewrite (Hrect r0 Hr0). simpl. by rewrite length_fmap.
Qed.

Section cleaned_kinds.
Context `{Pandas}.
Import data_cleaning.

Lemma to_numeric_cell_kind x : has_kind Float (to_numeric_cell x).
Proof.
  destruct x as [|q|s|t]; simpl; eauto.
  destruct (parse_number s); simpl; eauto.
Qed.

Lemma to_datetime_cell_kind x : has_kind Date (to_datetime_cell x).
Proof.
  destruct x as [|q|s|t]; simpl; eauto.
  - destruct (datetime_of_number q); simpl; eauto.
  - destruct (parse_datetime s); simpl; eauto.
Qed.

Lemma standardize_cell_kind x : has_kind Text (standardize_cell x).
Proof.
  eexists. split; [done|]. unfold strip. split_and!.
  - apply rstrip_forall, lstrip_forall, lower_no_upper.
  - apply strip_first.
  - apply rstrip_last.
Qed.

Lemma filled_cell_kind x : has_kind FilledFloat (fillna (Num 0%Qc) (to_numeric_cell x)).
Proof.
  destruct (to_numeric_cell_kind x) as [->|[q ->]]; simpl; eauto.
Qed.

(** The columns the cleaners work on, with the kind of value each
    holds in the table the cleaner returns. *)
Definition cleaned_kinds : list ((loc → st loc) * string * kind) :=
  [ (clean_shipments, "ship_date", Date); (clean_shipments, "delivery_date", Date);
    (clean_shipments, "weight", Float); (clean_shipments, "cost", Float);
    (clean_shipments, "sender", Text); (clean_shipments, "recipient", Text);
    (clean_shipments, "status", Text);
    (clean_routes, "distance", Float); (clean_routes, "avg_time", Float);
    (clean_routes, "avg_cost", Float);
    (clean_routes, "origin", Text); (clean_routes, "destination", Text);
    (clean_warehouses, "region", Text); (clean_warehouses, "capacity", Float);
    (clean_warehouses, "current_fill", Float);
    (clean_carriers, "name", Text); (clean_carriers, "rating", Float);
    (clean_carriers, "fleet_size", Float); (clean_carriers, "reliability", Float);
    (clean_delays, "date", Date); (clean_delays, "delay_hours", FilledFloat);
    (clean_delays, "reason", Text) ].

Ltac kind_fact :=
  first [ apply to_numeric_cell_kind | apply to_datetime_cell_kind
        | apply standardize_cell_kind | apply filled_cell_kind ].

Ltac keep_kind :=
  first [ by left
        | right; first [ by intros ? ?; kind_fact
                       | split; [by left|intros q; right; by exists q] ] ].

Ltac keeps_kind :=
  repeat (apply Forall_cons_2; [keep_kind|]); apply Forall_nil_2.

Ltac steps_kind :=
  first [ left; split; [split; [reflexivity|intros ?; kind_fact]|keeps_kind]
        | right; steps_kind ].

Lemma cleaned_kinds_steps clean c k :
  (clean, c, k) ∈ cleaned_kinds →
  ∃ m ns, (clean, clean_frame m ns) ∈ cleaners ∧ nkind (has_kind k) c ns.
Proof.
  unfold cleaned_kinds. rewrite !elem_of_cons, elem_of_nil.
  intros Hin.
  repeat (destruct Hin as [Heq|Hin];
    [injection Heq as -> -> ->;
     first
       [ exists shipments_rename_map, shipments_nsteps;
         split; [by left|simpl; steps_kind]
       | exists routes_rename_map, routes_nsteps;
         split; [right; by left|simpl; steps_kind]
       | exists warehouses_rename_map, warehouses_nsteps;
         split; [do 2 right; by left|simpl; steps_kind]
       | exists carriers_rename_map, carriers_nsteps;
         split; [do 3 right; by left|simpl; steps_kind]
       | exists delays_rename_map, delays_nsteps;
         split; [do 4 right; by left|simpl; steps_kind] ]|]).
  done.
Qed.

(** The table a cleaner returns for a rectangular table holds, in each
    column the cleaner works on, values of one kind: numbers or NaN in
    the numeric columns (numbers only in [delay_hours] of the delays),
    dates or NaT in the date columns, normalised text in the text
    columns. *)
Theorem cleaned_column_kinds clean c k w df0 f out w1 f' :
  (clean, c, k) ∈ cleaned_kinds →
  heap w !! df0 = Some f → rectangular f →
  clean df0 w = (Ok out, w1) → heap w1 !! out = Some f' →
  ∃ s, get_column c f' = Ok s ∧ Forall (has_kind k) s.
Proof.
  intros (m & ns & Hin & Hk)%cleaned_kinds_steps Hf Hrect Hrun Hout.
  pose proof (cleaners_cleaned clean _ w df0 f Hin Hf) as Hcl. rewrite Hrun in Hcl.
  destruct (cleaned_Ok _ _ _ _ Hcl) as (f1 & Hpure & Hf1 & _).
  assert (f1 = f') as -> by congruence.
  by eapply clean_frame_kind.
Qed.
End cleaned_kinds.

(** Witness: the [weight] column of [two_shipments] after
    [clean_shipments]. *)
Lemma cleaned_column_kinds_witness :
  ∃ s, get_column "weight" two_shipments_clean = Ok s ∧ Forall (has_kind Float) s.
Proof.
  apply (cleaned_column_kinds (H := simple_pandas)
           (data_cleaning.clean_shipments (H := simple_pandas)) "weight" Float
           (world_with two_shipments) 1%positive two_shipments 3%positive first_run.2).
  - do 2 right. by left.
  - reflexivity.
  - by apply (bool_decide_unpack _).
  - by vm_compute.
  - apply (bool_decide_unpack _). by vm_compute.
Defined.

(** ** Clustering the cleaned routes *)

Lemma path_exists_then {B} path (k : bool → st B) w :
  (path_exists path ≫= k) w = k (bool_decide (is_Some (files w !! path))) w.
Proof. reflexivity. Qed.

Lemma read_csv_then {B} path (k : loc → st B) w f :
  files w !! path = Some f →
  (read_csv path ≫= k) w = k (fresh (dom (heap w))) (upd w (fresh (dom (heap w))) f).
Proof. intros Hf. unfold mbind, st_bind. by rewrite read_csv_run, Hf. Qed.

Lemma col_indexes_columns names f g :
  columns f = columns g → col_indexes names f = col_indexes names g.
Proof.
  intros Hc. induction names as [|c names IH]; simpl; [done|].
  by rewrite (col_index_columns c f g Hc), IH.
Qed.

Section clustering_after_cleaning.
Context `{Pandas} `{SkLearn}.
Import data_cleaning route_clustering.

Hypothesis standard_scale_length : ∀ X, length (standard_scale X) = length X.

Lemma feature_row_numbers idxs r :
  (∀ i, i ∈ idxs → ∃ q, cell_at i r = Num q) → ∃ x, feature_row idxs r = Ok x.
Proof.
  induction idxs as [|i idxs IH]; intros Hnum; simpl; [by eexists|].
  destruct (Hnum i) as [q ->]; [by left|].
  destruct IH as [x ->]; [|by eexists].
  intros j Hj. apply Hnum. by right.
Qed.

Lemma feature_rows_numbers idxs R :
  (∀ r i, r ∈ R → i ∈ idxs → ∃ q, cell_at i r = Num q) →
  ∃ X, feature_rows idxs R = Ok X ∧ length X = length R.
Proof.
  induction R as [|r R IH]; intros Hnum; simpl; [by eexists|].
  destruct (feature_row_numbers idxs r) as [x ->].
  { intros i Hi. apply (Hnum r i); [by left|done]. }
  destruct IH as (X & -> & Hlen).
  { intros r' i Hr' Hi. apply (Hnum r' i); [by right|done]. }
  simpl. eexists. split; [done|]. simpl. by rewrite Hlen.
Qed.

(** On the routes table [clean_routes] returns, the clustering script
    finds its three feature columns and every feature of a complete row
    is a number: it returns, with one row per complete route, when there
    are at least three complete routes, and ends in a [ValueError]
    otherwise. *)
Theorem clustering_after_cleaning w0 df0 raw out w1 fc w :
  heap w0 !! df0 = Some raw → rectangular raw →
  clean_routes df0 w0 = (Ok out, w1) → heap w1 !! out = Some fc →
  files w !! routes_path = Some fc →
  ∃ f1,
    dropna_subset feature_cols fc = Ok f1 ∧
    ((3 ≤ length (rows f1))%nat →
       ∃ df w' f', cluster_routes w = (Ok df, w') ∧ heap w' !! df = Some f' ∧
                   length (rows f') = length (rows f1)) ∧
    ((length (rows f1) < 3)%nat →
       ∃ what w', cluster_routes w = (Raise (ValueError what), w')).
Proof.
  intros Hraw Hrect Hclean Hout Hfile.
  assert (∀ c, c ∈ feature_cols →
            ∃ i, col_index c fc = Ok i ∧
                 ∀ r, r ∈ rows fc → has_kind Float (cell_at i r)) as Hfeat.
  { intros c Hc.
    destruct (cleaned_column_kinds clean_routes c Float w0 df0 raw out w1 fc)
      as (s & Hs & Hkind); try done.
    { unfold feature_cols in Hc. unfold cleaned_kinds.
      rewrite !elem_of_cons, elem_of_nil in Hc. rewrite !elem_of_cons.
      destruct Hc as [->|[->|[->|[]]]]; tauto. }
    unfold get_column in Hs. destruct (col_index c fc) as [i|]; simpl in Hs; [|done].
    injection Hs as <-. exists i. split; [done|].
    intros r Hr. rewrite Forall_fmap, Forall_forall in Hkind. by apply Hkind. }
  destruct (Hfeat "distance") as (i1 & Hi1 & Hk1); [by left|].
  destruct (Hfeat "avg_time") as (i2 & Hi2 & Hk2); [right; by left|].
  destruct (Hfeat "avg_cost") as (i3 & Hi3 & Hk3); [do 2 right; by left|].
  assert (col_indexes feature_cols fc = Ok [i1; i2; i3]) as Hidx.
  { simpl. by rewrite Hi1, Hi2, Hi3. }
  set (f1 := Frame (columns fc)
               (filter (λ r, Forall (λ i, cell_at i r ≠ NA) [i1; i2; i3]) (rows fc))).
  assert (dropna_subset feature_cols fc = Ok f1) as Hdrop.
  { unfold dropna_subset. by rewrite Hidx. }
  destruct (feature_rows_numbers [i1; i2; i3] (rows f1)) as (X & HX & HXlen).
  { intros r i [Hne Hr]%list_elem_of_filter Hi.
    rewrite Forall_forall in Hne. specialize (Hne i Hi).
    rewrite !elem_of_cons, elem_of_nil in Hi.
    destruct Hi as [->|[->|[->|[]]]].
    - destruct (Hk1 r Hr) as [?|?]; done.
    - destruct (Hk2 r Hr) as [?|?]; done.
    - destruct (Hk3 r Hr) as [?|?]; done. }
  assert (feature_matrix f1 = Ok X) as Hmat.
  { unfold feature_matrix.
    rewrite (col_indexes_columns _ f1 fc) by done. by rewrite Hidx. }
  assert (filter (λ c, c ∉ columns fc) feature_cols = []) as Hpresent.
  { assert (∀ c i, col_index c fc = Ok i → c ∈ columns fc) as Hin.
    { intros c i Hi. eapply list_elem_of_lookup_2. by apply col_index_lookup. }
    unfold feature_cols. rewrite !filter_cons, filter_nil.
    rewrite !decide_False; [done|..]; intros Hn; apply Hn; by eapply Hin. }
  exists f1. split; [done|].
  assert (cluster_routes w
          = match fit_predict N_CLUSTERS (standard_scale X) with
              | Ok labels =>
                  let l1 := fresh (dom (heap w)) in
                  let w2 := upd (upd w l1 fc) (fresh (dom (heap (upd w l1 fc)))) f1 in
                  (Ok (fresh (dom (heap (upd w l1 fc)))),
                   upd w2 (fresh (dom (heap (upd w l1 fc))))
                     (set_column "cluster" ((λ l : nat, Num (of_nat l)) <$> labels) f1))
              | Raise e =>
                  (Raise e,
                   upd (upd w (fresh (dom (heap w))) fc)
                     (fresh (dom (heap (upd w (fresh (dom (heap w))) fc)))) f1)
              end) as Hrun.
  { unfold cluster_routes.
    rewrite path_exists_then, Hfile.
    rewrite bool_decide_eq_true_2 by by eexists. cbn [negb].
    rewrite (read_csv_then _ _ _ fc) by done.
    rewrite (read_frame_run _ fc) by apply upd_lookup.
    rewrite (bool_decide_eq_true_2 _ Hpresent). cbn [negb].
    unfold df_dropna_copy. rewrite !st_bind_assoc.
    rewrite (read_frame_run _ fc) by apply upd_lookup.
    rewrite !st_bind_assoc, lift_then, Hdrop, new_frame_then.
    rewrite (read_frame_run _ f1) by apply upd_lookup.
    rewrite lift_then, Hmat, lift_then.
    destruct (fit_predict N_CLUSTERS (standard_scale X)) as [labels|e]; [|done].
    by erewrite setitem_then by apply upd_lookup. }
  split.
  - intros Hthree. unfold fit_predict in Hrun.
    rewrite bool_decide_eq_false_2 in Hrun
      by (rewrite standard_scale_length, HXlen; unfold N_CLUSTERS; lia).
    eexists _, _, _. split; [exact Hrun|]. split; [apply upd_lookup|].
    rewrite rows_set_column_length; [done|].
    by rewrite !length_fmap, standard_scale_length.
  - intros Hfew. unfold fit_predict in Hrun.
    rewrite bool_decide_eq_true_2 in Hrun
      by (rewrite standard_scale_length, HXlen; unfold N_CLUSTERS; lia).
    by eexists _, _.
Qed.
End clustering_after_cleaning.

(** Four raw routes, one of them without a distance. *)
Definition raw_four_routes : frame :=
  Frame ["маршрут_id"; "начальный пункт"; "конечный пункт"; "расстояние";
         "среднее время в пути"; "средняя стоимость"]
    [ [Num (qc 1 1); Str " Kazan"; Str "UFA"; Str "520"; Str "9"; Str "41000"];
      [Num (qc 2 1); Str "Ufa"; Str "Perm "; Str "450"; Str "8"; Str "36000"];
      [Num (qc 3 1); Str "Perm"; Str "Kazan"; Str "n/a"; Str "11"; Str "52000"];
      [Num (qc 4 1); Str "Kazan"; Str "Perm"; Str "720"; Str "12"; Str "60000"] ].

Definition four_routes_run : result loc * world :=
  data_cleaning.clean_routes (H := simple_pandas) 1%positive (world_with raw_four_routes).

Definition cleaned_four_routes : frame :=
  default (Frame [] []) (heap four_routes_run.2 !! 3%positive).

Definition cleaned_routes_world : world :=
  World ∅ {[route_clustering.routes_path := cleaned_four_routes]} ∅ [].

Lemma clustering_after_cleaning_witness :
  ∃ f1,
    dropna_subset route_clustering.feature_cols cleaned_four_routes = Ok f1 ∧
    ((3 ≤ length (rows f1))%nat →
       ∃ df w' f',
         route_clustering.cluster_routes (H0 := first_rows_sklearn) cleaned_routes_world
           = (Ok df, w') ∧
         heap w' !! df = Some f' ∧ length (rows f') = length (rows f1)) ∧
    ((length (rows f1) < 3)%nat →
       ∃ what w',
         route_clustering.cluster_routes (H0 := first_rows_sklearn) cleaned_routes_world
           = (Raise (ValueError what), w')).
Proof.
  apply (clustering_after_cleaning (H := simple_pandas) (H0 := first_rows_sklearn)
           (λ X, eq_refl) (world_with raw_four_routes) 1%positive raw_four_routes
           3%positive four_routes_run.2 cleaned_four_routes cleaned_routes_world).
  - reflexivity.
  - by apply (bool_decide_unpack _).
  - by vm_compute.
  - by vm_compute.
  - by vm_compute.
Defined.

Example clustering_of_cleaned_four_routes :
  ∃ f', heap (route_clustering.cluster_routes (H0 := first_rows_sklearn)
                cleaned_routes_world).2 !! 2%positive = Some f' ∧
        get_column "distance" f' = Ok [Num (qc 520 1); Num (qc 450 1); Num (qc 720 1)] ∧
        get_column "cluster" f' = Ok [Num 0%Qc; Num 1%Qc; Num (qc 2 1)].
Proof.
  eexists. split; [by vm_compute|].
  split; apply (bool_decide_unpack _); by vm_compute.
Qed.

(** ** The tables of final_analysis_report.py *)


(** The value of a Series built over a list of labels. *)
Lemma at_label_fmap (g : Z → num) (ks : list Z) k :
  inefficient.at_label ((λ k, (k, g k)) <$> ks) k = if decide (k ∈ ks) then g k else None.
Proof.
  unfold inefficient.at_label.
  destruct (list_find _ _) as [[i [k' v]]|] eqn:Hfind.
  - apply list_find_Some in Hfind as (Hi & Hk & _). simpl in Hk. subst k'.
    rewrite list_lookup_fmap in Hi.
    destruct (ks !! i) as [k0|] eqn:Hk0; simpl in Hi; [|done].
    injection Hi as -> <-. rewrite decide_True; [done|].
    by eapply list_elem_of_lookup_2.
  - apply list_find_None in Hfind. case_decide as Hin; [|done].
    exfalso. rewrite Forall_forall in Hfind.
    apply (Hfind (k, g k)); [|done]. apply list_elem_of_fmap. by exists k.
Qed.

Lemma merge_on_elem {A B} (ka : A → option Z) (kb : B → option Z) left right x y :
  (x, y) ∈ merge_on ka kb left right ↔ x ∈ left ∧ y ∈ right ∧ kb y = ka x.
Proof.
  unfold merge_on. rewrite list_elem_of_bind. split.
  - intros (x' & Hxy & Hx'). apply list_elem_of_bind in Hxy as (y' & Hxy & Hy').
    apply list_elem_of_singleton in Hxy. injection Hxy as -> ->.
    apply list_elem_of_filter in Hy' as [? ?]. done.
  - intros (Hx & Hy & Hk). exists x. split; [|done].
    apply list_elem_of_bind. exists y. split; [by left|].
    by apply list_elem_of_filter.
Qed.

Lemma of_nat_this (n : nat) : this (of_nat n) = inject_Z (Z.of_nat n).
Proof. reflexivity. Qed.

Lemma of_nat_zero (n : nat) : of_nat n = 0%Qc → n = O.
Proof.
  intros Hn. apply (f_equal this) in Hn. rewrite of_nat_this in Hn.
  change (this 0%Qc) with (inject_Z 0) in Hn.
  assert (inject_Z (Z.of_nat n) == inject_Z 0)%Q as Heq by by rewrite Hn.
  unfold Qeq in Heq. simpl in Heq. lia.
Qed.

(** The share of [d] out of [t], in per cent. *)
Lemma percent_bounds (d t : nat) :
  (d ≤ t)%nat → (0 < t)%nat →
  (0 ≤ of_nat d / of_nat t * qc 100 1)%Qc ∧ (of_nat d / of_nat t * qc 100 1 ≤ qc 100 1)%Qc.
Proof.
  intros Hdt Ht. unfold Qcle.
  rewrite !this_mult, !this_div, !this_qc, !of_nat_this.
  change (this 0%Qc) with 0%Q.
  assert (0 <= inject_Z (Z.of_nat d))%Q as Hd.
  { change 0%Q with (inject_Z 0). rewrite <-Zle_Qle. lia. }
  assert (inject_Z (Z.of_nat d) <= inject_Z (Z.of_nat t))%Q as Hle.
  { rewrite <-Zle_Qle. lia. }
  assert (0 < inject_Z (Z.of_nat t))%Q as Hpos.
  { change 0%Q with (inject_Z 0). rewrite <-Zlt_Qlt. lia. }
  assert (0 <= inject_Z (Z.of_nat d) / inject_Z (Z.of_nat t))%Q as H0.
  { apply Qle_shift_div_l; [done|]. lra. }
  assert (inject_Z (Z.of_nat d) / inject_Z (Z.of_nat t) <= 1)%Q as H1.
  { apply Qle_shift_div_r; [done|]. lra. }
  set (x := (inject_Z (Z.of_nat d) / inject_Z (Z.of_nat t))%Q) in *.
  split; lra.
Qed.

Section carrier_facts.
Import final_analysis_tables.

(** The rows of a carrier among the merged rows, and the delayed ones
    among them. *)
Definition carrier_rows (shipments : list shipment) (carriers : list carrier) (k : Z)
    : list (shipment * carrier) :=
  filter (λ sc, carrier_id sc.1 = Some k)
    (merge_on carrier_id c_carrier_id shipments carriers).

Definition delayed_rows (shipments : list shipment) (carriers : list carrier) (k : Z)
    : list (shipment * carrier) :=
  filter (λ sc, status sc.1 = delayed_status) (carrier_rows shipments carriers k).

Lemma carrier_table_delay_rate shipments carriers cm :
  cm ∈ carrier_table shipments carriers →
  (0 < length (carrier_rows shipments carriers (cm_carrier_id cm)))%nat ∧
  delay_rate cm
  = Some (of_nat (length (delayed_rows shipments carriers (cm_carrier_id cm)))
          / of_nat (length (carrier_rows shipments carriers (cm_carrier_id cm)))
          * qc 100 1)%Qc.
Proof.
  unfold carrier_table. cbn zeta.
  set (merged := merge_on carrier_id c_carrier_id shipments carriers).
  set (key := λ sc : shipment * carrier, carrier_id sc.1).
  intros (k & -> & Hk)%list_elem_of_fmap. cbn [cm_carrier_id delay_rate].
  unfold sizes. rewrite !at_label_fmap.
  rewrite (decide_True _ _ Hk).
  assert (group_rows key merged k = carrier_rows shipments carriers k) as Hrows by done.
  assert (0 < length (carrier_rows shipments carriers k))%nat as Hpos.
  { apply elem_of_group_keys in Hk as (x & Hx & Hkx).
    assert (x ∈ carrier_rows shipments carriers k) as Hin
      by by apply list_elem_of_filter.
    destruct (carrier_rows shipments carriers k); [by apply elem_of_nil in Hin|].
    simpl. lia. }
  split; [done|].
  assert (group_rows key (filter (λ sc, status sc.1 = delayed_status) merged) k
          = delayed_rows shipments carriers k) as Hlate.
  { unfold group_rows, delayed_rows, carrier_rows. fold merged.
    rewrite !list_filter_filter. apply list_filter_iff. intros x. unfold key. tauto. }
  rewrite Hrows.
  assert (of_nat (length (carrier_rows shipments carriers k)) ≠ 0%Qc) as Hne.
  { intros Hz%of_nat_zero. lia. }
  case_decide as Hin.
  - rewrite Hlate. simpl. by rewrite decide_False.
  - simpl.
    assert (delayed_rows shipments carriers k = []) as ->.
    { rewrite <-Hlate.
      assert (∀ x, x ∉ group_rows key
                (filter (λ sc, status sc.1 = delayed_status) merged) k) as Hnone.
      { intros x [Hkx Hx]%list_elem_of_filter. apply Hin, elem_of_group_keys.
        by exists x. }
      destruct (group_rows key (filter (λ sc, status sc.1 = delayed_status) merged) k)
        as [|x rest]; [done|].
      exfalso. apply (Hnone x). by left. }
    simpl. by f_equal.
Qed.

(** The delay rate of [analyze_carrier_performance]: every carrier of
    the table has merged rows; its rate is never missing, it is the share
    of its delayed rows among them in per cent, and it lies between 0 and
    100.  No carrier occurs twice, and every carrier of the table occurs
    in the shipments and in the carriers. *)
Theorem carrier_delay_rate_in_percent shipments carriers :
  let table := analyze_carrier_performance shipments carriers in
  (∀ cm, cm ∈ table →
     let mine := carrier_rows shipments carriers (cm_carrier_id cm) in
     let late := delayed_rows shipments carriers (cm_carrier_id cm) in
     (0 < length mine)%nat ∧
     delay_rate cm = Some (of_nat (length late) / of_nat (length mine) * qc 100 1)%Qc ∧
     (∃ r, delay_rate cm = Some r ∧ (0 ≤ r)%Qc ∧ (r ≤ qc 100 1)%Qc) ∧
     (∃ s, s ∈ shipments ∧ carrier_id s = Some (cm_carrier_id cm)) ∧
     (∃ c, c ∈ carriers ∧ c_carrier_id c = Some (cm_carrier_id cm))) ∧
  NoDup (cm_carrier_id <$> table).
Proof.
  intros table.
  assert (table ≡ₚ carrier_table shipments carriers) as Hperm
    by apply merge_sort_Permutation.
  split.
  - intros cm Hcm mine late. rewrite Hperm in Hcm.
    destruct (carrier_table_delay_rate _ _ _ Hcm) as [Hpos Hrate].
    fold mine late in Hpos, Hrate.
    assert (length late ≤ length mine)%nat as Hle by apply length_filter.
    split_and!; [done|done| | |].
    + eexists. split; [done|]. by apply percent_bounds.
    + destruct mine as [|[s c] mine'] eqn:Hmine; [simpl in Hpos; lia|].
      assert ((s, c) ∈ carrier_rows shipments carriers (cm_carrier_id cm)) as Hin
        by (fold mine; rewrite Hmine; by left).
      apply list_elem_of_filter in Hin as [Hk (Hs & Hc & Heq)%merge_on_elem].
      by exists s.
    + destruct mine as [|[s c] mine'] eqn:Hmine; [simpl in Hpos; lia|].
      assert ((s, c) ∈ carrier_rows shipments carriers (cm_carrier_id cm)) as Hin
        by (fold mine; rewrite Hmine; by left).
      apply list_elem_of_filter in Hin as [Hk (Hs & Hc & Heq)%merge_on_elem].
      exists c. split; [done|]. simpl in *. congruence.
  - rewrite Hperm. unfold carrier_table. cbn zeta. rewrite <-list_fmap_compose.
    erewrite (list_fmap_ext _ id); [|by intros].
    rewrite list_fmap_id. apply group_keys_NoDup.
Qed.
End carrier_facts.

(** Two carriers: of the three shipments of carrier 1 one is delayed,
    carrier 2 has none delayed. *)
Definition rated_shipments : list final_analysis_tables.shipment :=
  [ final_analysis_tables.Shipment (Some 1) (Some 1) (Some 1) "Задержка" (Some (qc 5 1))
      (Some (qc 100 1));
    final_analysis_tables.Shipment (Some 2) (Some 1) (Some 1) "Доставлено" (Some 0%Qc)
      (Some (qc 100 1));
    final_analysis_tables.Shipment (Some 3) (Some 1) (Some 1) "Доставлено" (Some 0%Qc)
      (Some (qc 100 1));
    final_analysis_tables.Shipment (Some 4) (Some 1) (Some 2) "Доставлено" (Some 0%Qc)
      (Some (qc 100 1)) ].

Definition rated_carriers : list final_analysis_tables.carrier :=
  [ final_analysis_tables.Carrier (Some 1) (Some "a") (Some (qc 4 1)) (Some (qc 9 10));
    final_analysis_tables.Carrier (Some 2) (Some "b") (Some (qc 4 1)) (Some (qc 9 10)) ].

Example delay_rates_of_rated_carriers :
  (λ cm, (final_analysis_tables.cm_carrier_id cm, final_analysis_tables.delay_rate cm))
    <$> final_analysis_tables.analyze_carrier_performance rated_shipments rated_carriers
  = [(2, Some 0%Qc); (1, Some (qc 100 3))].
Proof. apply (bool_decide_unpack _). by vm_compute. Qed.

(** *** The route table *)






Section route_facts.
Import final_analysis_tables.


End route_facts.

(** Two routes; the shipment of route 2 has no delay yet, route 3 is in
    no route table. *)
Definition counted_shipments : list final_analysis_tables.shipment :=
  [ final_analysis_tables.Shipment (Some 1) (Some 2) (Some 1) "В пути" None
      (Some (qc 100 1));
    final_analysis_tables.Shipment (Some 2) (Some 1) (Some 1) "Доставлено" (Some 0%Qc)
      (Some (qc 100 1));
    final_analysis_tables.Shipment (Some 3) (Some 1) (Some 1) "Задержка" (Some (qc 3 1))
      (Some (qc 100 1));
    final_analysis_tables.Shipment (Some 4) (Some 3) (Some 1) "Доставлено" (Some 0%Qc)
      (Some (qc 100 1)) ].

Definition counted_routes : list final_analysis_tables.route :=
  [ final_analysis_tables.Route (Some 1) (Some (qc 100 1)) (Some "a") (Some "b")
      (Some (qc 5 1));
    final_analysis_tables.Route (Some 2) (Some (qc 200 1)) (Some "b") (Some "c")
      (Some (qc 7 1)) ].

Example route_metrics_of_counted :
  (λ r, (final_analysis_tables.rm_route_id r, final_analysis_tables.shipment_count r,
         final_analysis_tables.avg_delay r))
    <$> final_analysis_tables.route_metrics counted_shipments counted_routes
  = [(1, 2%nat, Some (qc 3 2)); (2, 0%nat, None)].
Proof. apply (bool_decide_unpack _). by vm_compute. Qed.

(** ** final_analysis_report.py: warehouse utilization *)

Module warehouse_report.

(** [pd.cut(x, bins, labels)] on one value, the intervals being open on
    the left and closed on the right: the label of the interval
    [(lo, hi]] that holds [x], from the edge [lo] on; a value in no
    interval has no category. *)
Fixpoint cut_from (lo : Qc) (edges : list Qc) (labels : list string) (x : Qc)
    : option string :=
  match edges, labels with
  | hi :: edges', l :: labels' =>
      if decide ((lo < x)%Qc ∧ (x ≤ hi)%Qc) then Some l else cut_from hi edges' labels' x
  | _, _ => None
  end.

Definition cut (bins : list Qc) (labels : list string) (x : num) : option string :=
  match bins, x with
  | lo :: edges, Some q => cut_from lo edges labels q
  | _, _ => None
  end.

Definition bins : list Qc := [0%Qc; qc 6 10; qc 75 100; qc 85 100; qc 95 100; 1%Qc].

Definition labels : list string := ["Low"; "Normal"; "High"; "Critical"; "Overloaded"].

(** [analyze_warehouse_utilization]: the table with its new
    [utilization_category] column, and the rows of it whose
    [utilization_rate] exceeds 0.85.  [rate] reads the utilization rate
    of a row. *)
Definition analyze_warehouse_utilization {A} (rate : A → num) (warehouses : list A)
    : list (A * option string) * list (A * option string) :=
  let categorised := (λ w, (w, cut bins labels (rate w))) <$> warehouses in
  (categorised, filter (λ wc, gtb (rate wc.1) (Some (qc 85 100)) = true) categorised).

End warehouse_report.

Lemma gtb_true a b : gtb (Some a) (Some b) = true ↔ (b < a)%Qc.
Proof. unfold gtb. apply bool_decide_eq_true. Qed.

Ltac qc_order :=
  repeat match goal with
         | H : _ ∧ _ |- _ => destruct H
         | H : ¬ (_ ∧ _) |- _ => apply not_and_l in H as [?|?]
         | H : ¬ (_ < _)%Qc |- _ => apply Qcnot_lt_le in H
         | H : ¬ (_ ≤ _)%Qc |- _ => apply Qcnot_le_lt in H
         end;
  unfold Qcle, Qclt in *; rewrite ?this_qc in *;
  change (this 0%Qc) with 0%Q in *; change (this 1%Qc) with 1%Q in *;
  first [lra | exfalso; lra].

Section warehouse_facts.
Import warehouse_report.
Context {A : Type} (rate : A → num).

(** The category of a rate. *)
Lemma cut_cases (x : Qc) :
  cut bins labels (Some x)
  = if decide (x ≤ 0)%Qc then None
    else if decide (x ≤ qc 6 10)%Qc then Some "Low"
    else if decide (x ≤ qc 75 100)%Qc then Some "Normal"
    else if decide (x ≤ qc 85 100)%Qc then Some "High"
    else if decide (x ≤ qc 95 100)%Qc then Some "Critical"
    else if decide (x ≤ 1)%Qc then Some "Overloaded"
    else None.
Proof.
  unfold cut, bins, labels, cut_from.
  repeat case_decide; try done; qc_order.
Qed.

(** The table [analyze_warehouse_utilization] returns keeps the rows in
    their order; the critical rows are the rows of it whose rate exceeds
    0.85.  A row whose rate is at most 1 is critical exactly when its
    category is Critical or Overloaded; a row whose rate exceeds 1 is
    critical and has no category; a row whose rate is missing, zero or
    negative has no category and is not critical. *)
Theorem warehouse_categories (warehouses : list A) :
  let out := analyze_warehouse_utilization rate warehouses in
  (out.1).*1 = warehouses ∧
  sublist (out.2) (out.1) ∧
  (∀ w c, (w, c) ∈ out.2 ↔ (w, c) ∈ out.1 ∧ gtb (rate w) (Some (qc 85 100)) = true) ∧
  (∀ w c, (w, c) ∈ out.1 → c = cut bins labels (rate w)) ∧
  (∀ w c x, (w, c) ∈ out.1 → rate w = Some x → (x ≤ 1)%Qc →
     ((w, c) ∈ out.2 ↔ c = Some "Critical" ∨ c = Some "Overloaded")) ∧
  (∀ w c x, (w, c) ∈ out.1 → rate w = Some x → (1 < x)%Qc →
     (w, c) ∈ out.2 ∧ c = None) ∧
  (∀ w c, (w, c) ∈ out.1 → (rate w = None ∨ ∃ x, rate w = Some x ∧ (x ≤ 0)%Qc) →
     ((w, c) ∉ out.2) ∧ c = None).
Proof.
  intros out.
  assert (∀ w c, (w, c) ∈ out.1 → c = cut bins labels (rate w)) as Hcat.
  { intros w c (w' & [= -> ->] & _)%list_elem_of_fmap. done. }
  assert (∀ w c, (w, c) ∈ out.2 ↔ (w, c) ∈ out.1 ∧ gtb (rate w) (Some (qc 85 100)) = true)
    as Hcrit.
  { intros w c. unfold out, analyze_warehouse_utilization. cbn [fst snd].
    rewrite list_elem_of_filter. simpl. tauto. }
  split_and!; try done.
  - unfold out, analyze_warehouse_utilization. cbn [fst].
    rewrite <-list_fmap_compose. erewrite (list_fmap_ext _ id); [|by intros].
    by rewrite list_fmap_id.
  - apply sublist_filter.
  - intros w c x Hin Hx Hle. pose proof (Hcat w c Hin) as Hc.
    rewrite Hcrit, Hx, gtb_true. rewrite Hx, cut_cases in Hc.
    repeat case_decide; subst c;
      (split; [intros [_ Hgt]|intros [?|?]; (split; [done|])]);
      try done; try (by left); try (by right); qc_order.
  - intros w c x Hin Hx Hgt. pose proof (Hcat w c Hin) as Hc.
    rewrite Hcrit, Hx, gtb_true. rewrite Hx, cut_cases in Hc.
    repeat case_decide; subst c; (split; [split; [done|]|]); try done; qc_order.
  - intros w c Hin Hrate. pose proof (Hcat w c Hin) as Hc. rewrite Hcrit.
    destruct Hrate as [Hx|(x & Hx & Hle)]; rewrite Hx in Hc |- *.
    + split; [by intros [_ ?]|done].
    + rewrite cut_cases, decide_True in Hc by done. rewrite gtb_true.
      split; [|done]. intros [_ Hgt]. qc_order.
Qed.
End warehouse_facts.

Example categories_of_rates :
  (warehouse_report.analyze_warehouse_utilization id
     [Some (qc 5 10); Some (qc 85 100); Some (qc 9 10); Some 1%Qc; Some (qc 11 10);
      Some 0%Qc; None]).1.*2
  = [Some "Low"; Some "High"; Some "Critical"; Some "Overloaded"; None; None; None].
Proof. by vm_compute. Qed.

(** ** Generated warehouses in the report *)

(** The utilization rate of a warehouse whose load factor is drawn from
    [[a/100, b/100)]. *)
Lemma rate_bounds (a b cap : Z) (f : Qc) :
  1000 ≤ cap → 0 ≤ a → (qc a 100 ≤ f)%Qc → (f < qc b 100)%Qc →
  let load := data_generator.int_part (of_Z cap * f)%Qc in
  (qc a 100 ≤ round2 (of_Z load / of_Z cap))%Qc ∧
  (round2 (of_Z load / of_Z cap) ≤ qc b 100)%Qc.
Proof.
  intros Hcap Ha Hlo Hhi load.
  unfold Qcle, Qclt in *. rewrite !this_qc in *.
  assert (∀ n : Z, (n # 100) == inject_Z n * (1 # 100))%Q as Hmake.
  { intros n. unfold Qeq, Qmult, inject_Z. simpl. lia. }
  rewrite (Hmake a) in Hlo |- *. rewrite (Hmake b) in Hhi |- *. clear Hmake.
  assert (1000 <= inject_Z cap)%Q as Hc.
  { change 1000%Q with (inject_Z 1000). by rewrite <-Zle_Qle. }
  assert (0 <= inject_Z a)%Q as Ha'.
  { change 0%Q with (inject_Z 0). by rewrite <-Zle_Qle. }
  assert (0 <= this f)%Q as Hf by lra.
  destruct (int_part_spec (of_Z cap * f)%Qc) as [Hl Hu].
  { rewrite this_mult, this_of_Z. nra. }
  fold load in Hl, Hu. rewrite this_mult, this_of_Z in Hl, Hu.
  set (x := (qc 100 1 * (of_Z load / of_Z cap))%Qc).
  assert (this x == 100 * (inject_Z load / inject_Z cap))%Q as Hx.
  { unfold x. rewrite this_mult, this_div, this_qc, !this_of_Z. reflexivity. }
  assert (0 < inject_Z cap)%Q as Hpos by lra.
  assert (inject_Z load / inject_Z cap <= this f)%Q as Hr1.
  { apply Qle_shift_div_r; [done|]. lra. }
  assert (this f - 1 / inject_Z cap < inject_Z load / inject_Z cap)%Q as Hr2.
  { apply Qlt_shift_div_l; [done|].
    assert ((this f - 1 / inject_Z cap) * inject_Z cap == this f * inject_Z cap - 1)%Q as ->.
    { field. lra. }
    lra. }
  assert (1 / inject_Z cap <= 1 # 1000)%Q as Hinv.
  { apply Qle_shift_div_r; [done|]. lra. }
  rewrite !this_round2. fold x.
  assert (a ≤ round_half_even x) as Hge.
  { apply round_half_even_ge. rewrite Hx. lra. }
  assert (round_half_even x ≤ b) as Hle.
  { apply round_half_even_le. rewrite Hx. lra. }
  rewrite Zle_Qle in Hge, Hle.
  split.
  - apply Qle_shift_div_l; [lra|]. lra.
  - apply Qle_shift_div_r; [lra|]. lra.
Qed.

Lemma filter_length_le {A} (P Q : A → Prop) `{∀ x, Decision (P x)} `{∀ x, Decision (Q x)}
    (l : list A) :
  (∀ x, x ∈ l → P x → Q x) → (length (filter P l) ≤ length (filter Q l))%nat.
Proof.
  induction l as [|x l IH]; intros Himp; [done|].
  rewrite !filter_cons.
  assert (length (filter P l) ≤ length (filter Q l))%nat as Hle.
  { apply IH. intros y Hy. apply Himp. by right. }
  destruct (decide (P x)) as [HP|HP].
  - rewrite decide_True by (apply Himp; [by left|done]). simpl. lia.
  - case_decide; simpl; lia.
Qed.

Section generated_warehouses.
Context `{Random}.
Import data_generator warehouse_report.

Hypothesis randint_range : ∀ lo hi g, lo < hi → lo ≤ (randint lo hi g).1 < hi.
Hypothesis uniform_range :
  ∀ lo hi g, (lo < hi)%Qc → (lo ≤ (uniform lo hi g).1)%Qc ∧ ((uniform lo hi g).1 < hi)%Qc.

Lemma generate_from_rate i regions g w :
  w ∈ (generate_from i regions g).1 →
  if high_load (warehouse_id w)
  then (qc 85 100 ≤ utilization_rate w)%Qc ∧ (utilization_rate w ≤ qc 95 100)%Qc
  else (qc 40 100 ≤ utilization_rate w)%Qc ∧ (utilization_rate w ≤ qc 80 100)%Qc.
Proof.
  revert i g. induction regions as [|region regions IH]; intros i g; simpl.
  { by intros ?%elem_of_nil. }
  intros [->|Hw]%elem_of_cons; [|by eapply IH].
  pose proof (randint_range 1000 5000 g ltac:(lia)) as Hcap.
  cbn [warehouse_id utilization_rate]. unfold draw_factor.
  destruct (high_load i).
  - destruct (uniform_range (qc 85 100) (qc 95 100) (randint 1000 5000 g).2) as [Hlo Hhi];
      [by vm_compute|].
    apply rate_bounds; [lia|lia|done..].
  - destruct (uniform_range (qc 4 10) (qc 8 10) (randint 1000 5000 g).2) as [Hlo Hhi];
      [by vm_compute|].
    apply rate_bounds; [lia|lia|done..].
Qed.

(** The report on generated warehouses: every generated warehouse gets
    a category, Low, Normal or High when it is not one of the three
    high-load warehouses and High or Critical when it is; none is
    Overloaded.  Only warehouses 3, 7 and 9 can be critical, so at most
    three are, and a critical one is in category Critical. *)
Theorem generated_warehouse_categories g :
  let out := analyze_warehouse_utilization (λ w, Some (utilization_rate w))
               (generate_warehouses g).1 in
  (∀ w c, (w, c) ∈ out.1 →
     if high_load (warehouse_id w)
     then c = Some "High" ∨ c = Some "Critical"
     else c = Some "Low" ∨ c = Some "Normal" ∨ c = Some "High") ∧
  (∀ w c, (w, c) ∈ out.2 → warehouse_id w ∈ [3; 7; 9] ∧ c = Some "Critical") ∧
  (length (out.2) ≤ 3)%nat.
Proof.
  intros out.
  assert (∀ w c, (w, c) ∈ out.1 →
            w ∈ (generate_warehouses g).1 ∧ c = cut bins labels (Some (utilization_rate w)))
    as Hrow.
  { intros w c (w' & [= -> ->] & Hw)%list_elem_of_fmap. done. }
  assert (∀ w c, (w, c) ∈ out.1 →
            if high_load (warehouse_id w)
            then c = Some "High" ∨ c = Some "Critical"
            else c = Some "Low" ∨ c = Some "Normal" ∨ c = Some "High") as Hcat.
  { intros w c [Hw ->]%Hrow.
    pose proof (generate_from_rate _ _ _ _ Hw) as Hrate.
    rewrite cut_cases.
    destruct (high_load (warehouse_id w)); destruct Hrate as [Hlo Hhi];
      repeat case_decide; auto; qc_order. }
  assert (∀ w c, (w, c) ∈ out.2 →
            high_load (warehouse_id w) = true ∧ c = Some "Critical") as Hcrit.
  { intros w c Hin. unfold out, analyze_warehouse_utilization in Hin. cbn [snd] in Hin.
    apply list_elem_of_filter in Hin as [Hgt Hin]. simpl in Hgt.
    apply gtb_true in Hgt.
    pose proof (Hcat w c Hin) as Hc. apply Hrow in Hin as [Hw ->].
    pose proof (generate_from_rate _ _ _ _ Hw) as Hrate.
    rewrite cut_cases in *.
    destruct (high_load (warehouse_id w)); destruct Hrate as [Hlo Hhi].
    - split; [done|]. repeat case_decide; try done; qc_order.
    - qc_order. }
  split_and!; [done| |].
  - intros w c [Hhigh ->]%Hcrit. split; [|done].
    unfold high_load in Hhigh. by apply bool_decide_eq_true in Hhigh.
  - assert (length (filter (λ wc : warehouse * option string,
                              high_load (warehouse_id wc.1) = true) (out.1)) = 3%nat) as <-
      by reflexivity.
    change (out.2)
      with (filter (λ wc : warehouse * option string,
                      gtb (Some (utilization_rate wc.1)) (Some (qc 85 100)) = true) (out.1)).
    apply filter_length_le. intros [w c] Hin Hgt.
    apply (Hcrit w c). unfold out, analyze_warehouse_utilization. cbn [snd].
    by apply list_elem_of_filter.
Qed.
End generated_warehouses.

(** The report on the warehouses of the generator whose draws are the
    lower bounds. *)
Definition lowest_draws_report
    : list (data_generator.warehouse * option string)
      * list (data_generator.warehouse * option string) :=
  warehouse_report.analyze_warehouse_utilization
    (λ w, Some (data_generator.utilization_rate w))
    (@data_generator.generate_warehouses lowest_draws tt).1.

Lemma generated_warehouse_categories_witness :
  (∀ w c, (w, c) ∈ lowest_draws_report.1 →
     if data_generator.high_load (data_generator.warehouse_id w)
     then c = Some "High" ∨ c = Some "Critical"
     else c = Some "Low" ∨ c = Some "Normal" ∨ c = Some "High") ∧
  (∀ w c, (w, c) ∈ lowest_draws_report.2 →
     data_generator.warehouse_id w ∈ [3; 7; 9] ∧ c = Some "Critical") ∧
  (length (lowest_draws_report.2) ≤ 3)%nat.
Proof.
  exact (generated_warehouse_categories (H := lowest_draws)
           lowest_draws_randint_range lowest_draws_uniform_range tt).
Defined.

(** Its three high-load warehouses have rate 0.85, category High, and
    none is critical. *)
Example no_critical_warehouse_at_lowest_draws :
  lowest_draws_report.2 = [] ∧
  (λ wc, (data_generator.warehouse_id wc.1, wc.2))
    <$> filter (λ wc, data_generator.high_load (data_generator.warehouse_id wc.1) = true)
          (lowest_draws_report.1)
  = [(3, Some "High"); (7, Some "High"); (9, Some "High")].
Proof. split; by vm_compute. Qed.
